(** * pysdbd: condition algebra, validation, row planner and transaction manager

    A shallow embedding of the parts of pysdbd that its specification makes
    statements about:

    - [condition]: the predicate tree of [condition.py] with [serialize],
      [params] and [cols];
    - [validate]: the field validator of [validate.py];
    - [Table]: the row planner of [Table.py] ([_validate_data],
      [_split_col_value], [create], [update], ...), run on the [execute]
      of [SqliteDriver];
    - [MysqlDriver] and [SqliteDriver]: the transaction managers.

    Python values are the inductive [PyVal]; a text is a [string], one
    [ascii] for each of its characters; a Python [dict] is an association
    list in insertion order; a raised exception is the [Raise] branch of
    [result]. *)

From Stdlib Require Import List ZArith Lia Bool Ascii String Arith.
From Stdlib Require Import DecimalString.
Import ListNotations.

Set Warnings "-register-all".
Local Open Scope list_scope.
Local Open Scope Z_scope.
Local Open Scope string_scope.

(** ** Python values *)

(** A float is held by the text [repr] gives for it: [str] of a float is that
    text, and nothing here computes with floats. *)
Inductive PyVal : Type :=
| PNone : PyVal
| PBool (b : bool) : PyVal
| PInt (z : Z) : PyVal
| PFloat (repr : string) : PyVal
| PStr (s : string) : PyVal
| PList (l : list PyVal) : PyVal.

(** A [dict] with string keys, in insertion order. *)
Definition dict (V : Type) : Type := list (string * V).

Fixpoint dict_get {V} (d : dict V) (k : string) : option V :=
  match d with
  | [] => None
  | (k', v) :: d' => if String.eqb k' k then Some v else dict_get d' k
  end.

(** [k in d] *)
Definition dict_in {V} (k : string) (d : dict V) : bool :=
  match dict_get d k with Some _ => true | None => false end.

(** [d[k] = v]: an existing key keeps its place, a new one goes last. *)
Fixpoint dict_set {V} (d : dict V) (k : string) (v : V) : dict V :=
  match d with
  | [] => [(k, v)]
  | (k', v') :: d' =>
      if String.eqb k' k then (k', v) :: d' else (k', v') :: dict_set d' k v
  end.

(** [[k for k in d]] *)
Definition dict_keys {V} (d : dict V) : list string := map fst d.

(** [x in l] for a list of strings *)
Definition str_in (x : string) (l : list string) : bool :=
  existsb (String.eqb x) l.

(** ** Exceptions *)

(** The error mapping of one row: column name to error code. *)
Definition ErrorDict : Type := dict string.

Inductive exn : Type :=
| Error (msg : string)
| ColumnError (msg : string)
| ValidationError (errors : list ErrorDict)
| QueryError (msg : string) (code : Z) (sql : string)
| IndexError
| TypeError
| AttributeError
| NameError (name : string)
| KeyError (key : string)
| NotImplementedError (fmt col value : string)
| ReError (pattern : string).

Inductive result (A : Type) : Type :=
| Ok (a : A)
| Raise (e : exn).
Arguments Ok {A} a.
Arguments Raise {A} e.

Definition bind {A B} (r : result A) (k : A -> result B) : result B :=
  match r with
  | Ok a => k a
  | Raise e => Raise e
  end.

Notation "x <- r ;; k" := (bind r (fun x => k))
  (at level 61, r at next level, right associativity).

(** Run [f] over a list from left to right; the first exception wins. *)
Fixpoint mapM {A B} (f : A -> result B) (l : list A) : result (list B) :=
  match l with
  | [] => Ok []
  | a :: l' => b <- f a ;; bs <- mapM f l' ;; Ok (b :: bs)
  end.

(** [l[i]] for [0 <= i], [IndexError] out of range. *)
Definition list_index {A} (l : list A) (i : nat) : result A :=
  match nth_error l i with
  | Some a => Ok a
  | None => Raise IndexError
  end.

(** [l[-1]], [IndexError] on the empty list. *)
Fixpoint list_last {A} (l : list A) : result A :=
  match l with
  | [] => Raise IndexError
  | [a] => Ok a
  | _ :: l' => list_last l'
  end.

(** [sep.join(l)] *)
Fixpoint join (sep : string) (l : list string) : string :=
  match l with
  | [] => EmptyString
  | [s] => s
  | s :: l' => s ++ sep ++ join sep l'
  end.

(** ** condition.py *)

Module condition.

(** One constructor per class family; the class attribute [operator] is the
    field [operator] ([And]/[Or], [Null]/[NotNull], [Eq] and its subclasses
    differ in nothing else).  [Compare] keeps the [value] that [__init__] was
    given; the attribute [self.value] is [init_value value]. *)
Inductive Condition : Type :=
| Base : Condition
| Junction (operator : string) (conditions : list Condition) : Condition
| NullTest (operator : string) (col : string) : Condition
| Compare (operator : string) (col : string) (value : PyVal) : Condition.

(** Induction on a condition with the hypothesis for every child of a
    junction. *)
Fixpoint Condition_nested_ind (P : Condition -> Prop)
    (HBase : P Base)
    (HJunction : forall op cs, Forall P cs -> P (Junction op cs))
    (HNull : forall op col, P (NullTest op col))
    (HCompare : forall op col value, P (Compare op col value))
    (c : Condition) : P c :=
  match c with
  | Base => HBase
  | Junction op cs =>
      HJunction op cs
        ((fix children (l : list Condition) : Forall P l :=
            match l with
            | [] => Forall_nil P
            | c' :: l' =>
                Forall_cons c'
                  (Condition_nested_ind P HBase HJunction HNull HCompare c')
                  (children l')
            end) cs)
  | NullTest op col => HNull op col
  | Compare op col value => HCompare op col value
  end.

(** [Eq.__init__]: a list gives one single-element row per element, any other
    value gives one row. *)
Definition init_value (value : PyVal) : list (list PyVal) :=
  match value with
  | PList l => map (fun v => [v]) l
  | _ => [[value]]
  end.

Definition And (conditions : list Condition) : Condition :=
  Junction "AND" conditions.
Definition Or (conditions : list Condition) : Condition :=
  Junction "OR" conditions.
Definition Null (col : string) : Condition := NullTest "IS" col.
Definition NotNull (col : string) : Condition := NullTest "IS NOT" col.

Definition Eq (col : string) (value : PyVal) : Condition :=
  Compare "=" col value.
Definition NotEq (col : string) (value : PyVal) : Condition :=
  Compare "!=" col value.
Definition Le (col : string) (value : PyVal) : Condition :=
  Compare "<" col value.
Definition Gt (col : string) (value : PyVal) : Condition :=
  Compare ">" col value.
Definition Leq (col : string) (value : PyVal) : Condition :=
  Compare "<=" col value.
Definition Geq (col : string) (value : PyVal) : Condition :=
  Compare ">=" col value.
Definition Re (col : string) (value : PyVal) : Condition :=
  Compare "REGEXP" col value.
Definition Like (col : string) (value : PyVal) : Condition :=
  Compare "LIKE" col value.

(** [And.add] *)
Definition add (c : Condition) (condition : Condition) : Condition :=
  match c with
  | Junction op cs => Junction op (cs ++ [condition])%list
  | _ => c
  end.

Definition apply_quote (quote : option (string -> string)) (col : string)
  : string :=
  match quote with
  | Some q => q col
  | None => col
  end.

Definition where_prefix (nested : bool) : string :=
  if nested then EmptyString else " WHERE ".

(** The loop of [And.serialize] writes the children one after the other with
    the operator between two of them, which is [join]. *)
Fixpoint serialize (c : Condition) (nested : bool)
    (quote : option (string -> string)) (placeholder : string) : string :=
  match c with
  | Base => EmptyString
  | Junction operator conditions =>
      if negb nested && (List.length conditions =? 0)%nat then EmptyString
      else
        where_prefix nested ++ "(" ++
        join (" " ++ operator ++ " ")
             (map (fun c' => serialize c' true quote placeholder) conditions)
        ++ ")"
  | NullTest operator col =>
      where_prefix nested ++ apply_quote quote col ++ " " ++ operator ++ " NULL"
  | Compare operator col _ =>
      where_prefix nested ++
      apply_quote quote col ++ " " ++ operator ++ " " ++ placeholder
  end.

(** The first loop of [And.params]: the largest number of parameter sets,
    starting from 1. *)
Definition max_sets (ps : list (list (list PyVal))) : nat :=
  fold_left (fun N_sets p =>
               if (N_sets <? List.length p)%nat then List.length p else N_sets)
            ps 1%nat.

(** The inner loop of [And.params] for one [i]: each child gives its [i]-th
    set, or its last one when it has fewer. *)
Fixpoint param_set (i : nat) (ps : list (list (list PyVal)))
  : result (list PyVal) :=
  match ps with
  | [] => Ok []
  | p :: ps' =>
      r <- (if (i <? List.length p)%nat then list_index p i else list_last p) ;;
      rest <- param_set i ps' ;;
      Ok (r ++ rest)%list
  end.

Fixpoint params (c : Condition) : result (list (list PyVal)) :=
  match c with
  | Base => Ok []
  | Junction _ conditions =>
      ps <- mapM params conditions ;;
      mapM (fun i => param_set i ps) (seq 0 (max_sets ps))
  | NullTest _ _ => Ok [[]]
  | Compare _ _ value => Ok (init_value value)
  end.

(** [serialize] cut into pieces: the text it writes, and where it writes the
    placeholder. *)
Inductive Token : Type :=
| Text (s : string)
| Placeholder.

(** [sep.join] on lists of pieces *)
Fixpoint join_pieces (sep : Token) (l : list (list Token)) : list Token :=
  match l with
  | [] => []
  | [x] => x
  | x :: l' => (x ++ sep :: join_pieces sep l')%list
  end.

Fixpoint pieces (c : Condition) (nested : bool)
    (quote : option (string -> string)) : list Token :=
  match c with
  | Base => []
  | Junction operator conditions =>
      if negb nested && (List.length conditions =? 0)%nat then []
      else
        (Text (where_prefix nested) :: Text "(" ::
         join_pieces (Text (" " ++ operator ++ " "))
                     (map (fun c' => pieces c' true quote) conditions)
         ++ [Text ")"])%list
  | NullTest operator col =>
      [Text (where_prefix nested);
       Text (apply_quote quote col ++ " " ++ operator ++ " NULL")]
  | Compare operator col _ =>
      [Text (where_prefix nested);
       Text (apply_quote quote col ++ " " ++ operator ++ " "); Placeholder]
  end.

(** The text of a list of pieces, with [placeholder] for each placeholder. *)
Fixpoint render (placeholder : string) (l : list Token) : string :=
  match l with
  | [] => EmptyString
  | Text s :: l' => s ++ render placeholder l'
  | Placeholder :: l' => placeholder ++ render placeholder l'
  end.

(** The number of placeholders among the pieces. *)
Fixpoint placeholders (l : list Token) : nat :=
  match l with
  | [] => 0
  | Text _ :: l' => placeholders l'
  | Placeholder :: l' => S (placeholders l')
  end.

Fixpoint cols (c : Condition) : list string :=
  match c with
  | Base => []
  | Junction _ conditions => flat_map cols conditions
  | NullTest _ col => [col]
  | Compare _ col _ => [col]
  end.

End condition.

(** ** The Python runtime the code calls into *)

(** What the code uses from the interpreter and its [re] and [datetime]
    modules, and what is not modelled here: [repr] of a [str] (quoting and
    escapes), whether [re] can compile a pattern ([re.match] raises
    the error of its compiler, [re.error], here [ReError], when it cannot), whether
    [re.match(pattern, value)] finds a match for a pattern that compiles,
    whether [datetime.strptime(value, format)] accepts the text, and
    [s.upper()], which also maps letters beyond ASCII. *)
Class PyRuntime : Type := {
  repr_str : string -> string;
  re_compiles : string -> bool;
  re_match : string -> string -> bool;
  strptime_ok : string -> string -> bool;
  str_upper : string -> string
}.

Definition str_of_Z (z : Z) : string := NilZero.string_of_int (Z.to_int z).

Section Str.
Context {rt : PyRuntime}.

(** [repr(v)] *)
Fixpoint py_repr (v : PyVal) : string :=
  match v with
  | PNone => "None"
  | PBool true => "True"
  | PBool false => "False"
  | PInt z => str_of_Z z
  | PFloat r => r
  | PStr s => repr_str s
  | PList l => "[" ++ join ", " (map py_repr l) ++ "]"
  end.

(** [str(v)]: a [str] is itself, everything else prints as its [repr]. *)
Definition py_str (v : PyVal) : string :=
  match v with
  | PStr s => s
  | _ => py_repr v
  end.

End Str.

(** [s.lower()] on ASCII letters; other characters stay. *)
Definition lower_ascii (c : ascii) : ascii :=
  let n := nat_of_ascii c in
  if ((65 <=? n) && (n <=? 90))%nat then ascii_of_nat (n + 32)%nat else c.

Fixpoint lower (s : string) : string :=
  match s with
  | EmptyString => EmptyString
  | String c s' => String (lower_ascii c) (lower s')
  end.

(** [s.upper()] for a text of ASCII characters: the letters a to z go to A
    to Z.  The runtime of the examples uses it for [str_upper]. *)
Definition upper_ascii (c : ascii) : ascii :=
  let n := nat_of_ascii c in
  if ((97 <=? n) && (n <=? 122))%nat then ascii_of_nat (n - 32)%nat else c.

Fixpoint upper (s : string) : string :=
  match s with
  | EmptyString => EmptyString
  | String c s' => String (upper_ascii c) (upper s')
  end.

(** [s.replace(a, b)] for single characters [a] and [b]. *)
Fixpoint replace_char (a b : ascii) (s : string) : string :=
  match s with
  | EmptyString => EmptyString
  | String c s' =>
      String (if Ascii.eqb c a then b else c) (replace_char a b s')
  end.

(** [s.endswith(c)] for a single character [c]. *)
Fixpoint endswith_char (c : ascii) (s : string) : bool :=
  match s with
  | EmptyString => false
  | String c' EmptyString => Ascii.eqb c' c
  | String _ s' => endswith_char c s'
  end.

(** [s.startswith(p)] *)
Fixpoint startswith (p s : string) : bool :=
  match p with
  | EmptyString => true
  | String a p' =>
      match s with
      | EmptyString => false
      | String b s' => Ascii.eqb a b && startswith p' s'
      end
  end.

(** [s[n:]] *)
Definition drop_str (n : nat) (s : string) : string :=
  String.substring n (String.length s - n)%nat s.

(** ** validate.py *)

Module validate.
Section Validate.
Context {rt : PyRuntime}.

Definition _v_datetime (col value : string) (errors : ErrorDict)
  : string * ErrorDict :=
  if strptime_ok value "%Y-%m-%d %H:%M:%S" then (value, errors)
  else (value, dict_set errors col "INVALID_DATETIME").

Definition _v_date (col value : string) (errors : ErrorDict)
  : string * ErrorDict :=
  if strptime_ok value "%Y-%m-%d" then (value, errors)
  else (value, dict_set errors col "INVALID_DATE").

Definition _v_int (col value : string) (errors : ErrorDict)
  : string * ErrorDict :=
  if re_match "^([+-])?[0-9]+$" value then (value, errors)
  else (value, dict_set errors col "INVALID_INT").

Definition _v_uint (col value : string) (errors : ErrorDict)
  : string * ErrorDict :=
  if re_match "^[0-9]+$" value then (value, errors)
  else (value, dict_set errors col "INVALID_UINT").

Definition _v_float (col value : string) (errors : ErrorDict)
  : string * ErrorDict :=
  let value := replace_char "," "." value in
  let value := if endswith_char "." value then value ++ "0" else value in
  if re_match "^([+-])?[0-9]+(\.[0-9]+)?$" value then (value, errors)
  else (value, dict_set errors col "INVALID_FLOAT").

Definition _v_ufloat (col value : string) (errors : ErrorDict)
  : string * ErrorDict :=
  let value := replace_char "," "." value in
  let value := if endswith_char "." value then value ++ "0" else value in
  if re_match "^[0-9]+(\.[0-9]+)?$" value then (value, errors)
  else (value, dict_set errors col "INVALID_UFLOAT").

Definition _v_text100 (col value : string) (errors : ErrorDict)
  : string * ErrorDict :=
  if (100 <? String.length value)%nat
  then (value, dict_set errors col "INVALID_TEXT100")
  else (value, errors).

Definition _v_bool (col value : string) (errors : ErrorDict)
  : string * ErrorDict :=
  if String.eqb (lower value) "true" || String.eqb value "1" then ("1", errors)
  else if String.eqb (lower value) "false" || String.eqb value "0"
  then ("0", errors)
  else (value, dict_set errors col "INVALID_BOOL").

(** [globals()["_v_" + f]]: the validation functions the module defines. *)
Definition globals (f : string)
  : option (string -> string -> ErrorDict -> string * ErrorDict) :=
  if String.eqb f "datetime" then Some _v_datetime
  else if String.eqb f "date" then Some _v_date
  else if String.eqb f "int" then Some _v_int
  else if String.eqb f "uint" then Some _v_uint
  else if String.eqb f "float" then Some _v_float
  else if String.eqb f "ufloat" then Some _v_ufloat
  else if String.eqb f "text100" then Some _v_text100
  else if String.eqb f "bool" then Some _v_bool
  else None.

(** The loop over the formats, run on the text of the value. *)
Fixpoint formats (col : string) (fmt : list string) (value : string)
    (errors : ErrorDict) : result (string * ErrorDict) :=
  match fmt with
  | [] => Ok (value, errors)
  | f :: fmt' =>
      if str_in f ["not_empty"; "not_null"; "unique"; "text"]
      then formats col fmt' value errors
      else if startswith "r_" f then
        if negb (re_compiles ("^(" ++ drop_str 2 f ++ ")$"))
        then Raise (ReError ("^(" ++ drop_str 2 f ++ ")$"))
        else if re_match ("^(" ++ drop_str 2 f ++ ")$") value
        then formats col fmt' value errors
        else formats col fmt' value (dict_set errors col "INVALID_REGEX")
      else
        match globals f with
        | None => Raise (NotImplementedError f col value)
        | Some func =>
            let (value', errors') := func col value errors in
            formats col fmt' value' errors'
        end
  end.

Definition validate (col : string) (value : PyVal) (fmt : list string)
    (errors : ErrorDict) : result (PyVal * ErrorDict) :=
  match value with
  | PNone =>
      if str_in "not_null" fmt
      then Ok (value, dict_set errors col "NONE_FIELD")
      else Ok (PNone, errors)
  | _ =>
      let value := py_str value in
      if str_in "not_empty" fmt && String.eqb value EmptyString
      then Ok (PStr value, dict_set errors col "EMPTY_FIELD")
      else if negb (String.eqb value EmptyString) then
        r <- formats col fmt value errors ;;
        Ok (PStr (fst r), snd r)
      else Ok (PStr value, errors)
  end.

End Validate.
End validate.

(** A format tag the loop of [validate] gets past: a keyword, an [r_] tag
    whose pattern compiles, or the name of a validation function. *)
Definition known_format {rt : PyRuntime} (f : string) : bool :=
  str_in f ["not_empty"; "not_null"; "unique"; "text"]
  || (if startswith "r_" f then re_compiles ("^(" ++ drop_str 2 f ++ ")$")
      else match validate.globals f with
           | Some _ => true
           | None => false
           end).

(** ** The database connection *)

(** An exception of the engine's library ([mysql.connector.Error],
    [sqlite3.Error]): [e_msg] is [e.msg] (MySQL) or [str(e)] (SQLite),
    [e_code] is [e.args[0]] of a MySQL error, and [e_text] is [e.args[1]] of a
    MySQL error or [e.args[0]] of an SQLite one. *)
Record EngineError : Type := {
  e_msg : string;
  e_code : Z;
  e_text : string
}.

(** What a cursor holds after a statement: the rows to fetch, each a [dict]
    from column name to value, and [lastrowid]. *)
Record Cursor : Type := {
  fetch : list (dict PyVal);
  lastrowid : PyVal
}.

(** The connection object of the engine's library, as far as the drivers use
    it.  Every call gives the next state of the connection and, when it
    raises, the exception. *)
Class Connection (C : Type) : Type := {
  con_start_transaction : C -> C * option EngineError;
  con_commit : C -> C * option EngineError;
  con_rollback : C -> C * option EngineError;
  con_in_transaction : C -> bool;
  cursor_execute : C -> string -> list PyVal -> C * (EngineError + Cursor);
  cursor_executemany :
    C -> string -> list (list PyVal) -> C * option EngineError
}.

(** A call made on the connection. *)
Inductive Call : Type :=
| CallStart
| CallCommit
| CallRollback
| CallExecute (sql : string) (params : list (list PyVal)).

(** ** Driver.py *)

Module Driver.
Section Driver.
Context {C : Type} {conn : Connection C}.

(** The attributes of a driver object, together with what its methods read
    and write outside it: [clock] is [time.time()] in milliseconds, and
    [calls] records every call made on the connection with the time it was
    made at. *)
Record Driver : Type := {
  con : C;
  transaction_timeout : Z;
  nested_transactions : bool;
  transaction_cnt : Z;
  nested_rollback : bool;
  clock : Z;
  calls : list (Z * Call)
}.

(** Modelled from the spec: the start values of [nested_transactions],
    [transaction_cnt] and [nested_rollback], which [Driver.__init__] under
    src/ does not set: timeout mode, and the transaction state (0, false).
    [transaction_timeout] is the class attribute, 3 seconds. *)
Definition init (c : C) (now : Z) : Driver :=
  {| con := c; transaction_timeout := 3; nested_transactions := false;
     transaction_cnt := 0; nested_rollback := false;
     clock := now; calls := [] |}.

Definition set_con (d : Driver) (c : C) : Driver :=
  {| con := c; transaction_timeout := transaction_timeout d;
     nested_transactions := nested_transactions d;
     transaction_cnt := transaction_cnt d;
     nested_rollback := nested_rollback d;
     clock := clock d; calls := calls d |}.

Definition set_nested_transactions (d : Driver) (b : bool) : Driver :=
  {| con := con d; transaction_timeout := transaction_timeout d;
     nested_transactions := b;
     transaction_cnt := transaction_cnt d;
     nested_rollback := nested_rollback d;
     clock := clock d; calls := calls d |}.

Definition set_transaction_cnt (d : Driver) (n : Z) : Driver :=
  {| con := con d; transaction_timeout := transaction_timeout d;
     nested_transactions := nested_transactions d;
     transaction_cnt := n;
     nested_rollback := nested_rollback d;
     clock := clock d; calls := calls d |}.

Definition set_nested_rollback (d : Driver) (b : bool) : Driver :=
  {| con := con d; transaction_timeout := transaction_timeout d;
     nested_transactions := nested_transactions d;
     transaction_cnt := transaction_cnt d;
     nested_rollback := b;
     clock := clock d; calls := calls d |}.

(** [time.sleep(ms / 1000)] *)
Definition sleep (d : Driver) (ms : Z) : Driver :=
  {| con := con d; transaction_timeout := transaction_timeout d;
     nested_transactions := nested_transactions d;
     transaction_cnt := transaction_cnt d;
     nested_rollback := nested_rollback d;
     clock := clock d + ms; calls := calls d |}.

Definition record (d : Driver) (c : C) (call : Call) : Driver :=
  {| con := c; transaction_timeout := transaction_timeout d;
     nested_transactions := nested_transactions d;
     transaction_cnt := transaction_cnt d;
     nested_rollback := nested_rollback d;
     clock := clock d; calls := (calls d ++ [(clock d, call)])%list |}.

(** [self.con.start_transaction()], or [BEGIN TRANSACTION;] on a cursor *)
Definition call_start (d : Driver) : Driver * option EngineError :=
  let (c, r) := con_start_transaction (con d) in (record d c CallStart, r).

(** [self.con.commit()] *)
Definition call_commit (d : Driver) : Driver * option EngineError :=
  let (c, r) := con_commit (con d) in (record d c CallCommit, r).

(** [self.con.rollback()] *)
Definition call_rollback (d : Driver) : Driver * option EngineError :=
  let (c, r) := con_rollback (con d) in (record d c CallRollback, r).

(** [c.execute(sql, p)] on a cursor of the connection *)
Definition call_execute (d : Driver) (sql : string) (p : list PyVal)
  : Driver * (EngineError + Cursor) :=
  let (c, r) := cursor_execute (con d) sql p in
  (record d c (CallExecute sql [p]), r).

(** [c.executemany(sql, params)] on a cursor of the connection *)
Definition call_executemany (d : Driver) (sql : string)
    (params : list (list PyVal)) : Driver * option EngineError :=
  let (c, r) := cursor_executemany (con d) sql params in
  (record d c (CallExecute sql params), r).

(** How the [while] loop of [start_transaction] ends: by its [return], or by
    leaving the loop ([break], or the test failing) with [exc_buf]. *)
Inductive LoopExit : Type :=
| LoopReturn
| LoopLeft (exc_buf : option EngineError).

(** The loop of [start_transaction] in timeout mode, which both drivers have:
<<
    while time.time() < t0+timeout:
        try:
            (start the transaction); return
        except (engine error) as e:
            exc_buf = e
            if (e says a transaction is in progress):
                time.sleep(0.1)
            else:
                break
>>
    [busy] is the text the engine gives when a transaction is in progress,
    [deadline] is [t0+timeout] in milliseconds.  Each unit of [fuel] pays for
    one pass; [None] is the loop not having ended within [fuel] passes. *)
Fixpoint wait_loop (busy : string) (deadline : Z) (fuel : nat)
    (exc_buf : option EngineError) (d : Driver)
  : option (Driver * LoopExit) :=
  if (clock d <? deadline)%Z then
    match fuel with
    | O => None
    | S fuel' =>
        match call_start d with
        | (d1, None) => Some (d1, LoopReturn)
        | (d1, Some e) =>
            if String.eqb (e_msg e) busy
            then wait_loop busy deadline fuel' (Some e) (sleep d1 100)
            else Some (d1, LoopLeft (Some e))
        end
    end
  else Some (d, LoopLeft exc_buf).

End Driver.
Arguments Driver C : clear implicits.
End Driver.

(** ** MysqlDriver.py *)

Module MysqlDriver.
Section MysqlDriver.
Import Driver.
Context {C : Type} {conn : Connection C}.

Definition busy : string := "Transaction already in progress".

(** The [except sqlite3.Error] clauses of the nested branches: the module
    does not import [sqlite3], so when the call on the connection raises,
    looking the name up raises [NameError]. *)
Definition except_sqlite3 : exn := NameError "sqlite3".

Definition failed_start (timeout : Z) (e : EngineError) : exn :=
  Error ("Failed to start transaction (timeout=" ++ str_of_Z timeout ++ "s): "
         ++ e_text e ++ " (code " ++ str_of_Z (e_code e) ++ ")").

Definition start_transaction (fuel : nat) (t_state : bool)
    (timeout : option Z) (d : Driver C)
  : option (Driver C * result unit) :=
  if negb t_state then Some (d, Ok tt)
  else if nested_transactions d then
    if (transaction_cnt d =? 0)%Z then
      let d := set_nested_rollback d false in
      match call_start d with
      | (d1, Some _) => Some (d1, Raise except_sqlite3)
      | (d1, None) =>
          Some (set_transaction_cnt d1 (transaction_cnt d1 + 1), Ok tt)
      end
    else Some (set_transaction_cnt d (transaction_cnt d + 1), Ok tt)
  else
    let timeout :=
      match timeout with None => transaction_timeout d | Some t => t end in
    let t0 := clock d in
    match wait_loop busy (t0 + 1000 * timeout) fuel None d with
    | None => None
    | Some (d1, LoopReturn) => Some (d1, Ok tt)
    | Some (d1, LoopLeft None) => Some (d1, Raise AttributeError)
    | Some (d1, LoopLeft (Some exc_buf)) =>
        Some (d1, Raise (failed_start timeout exc_buf))
    end.

Definition rollback (t_state : bool) (d : Driver C)
  : Driver C * result unit :=
  if negb t_state then (d, Ok tt)
  else if nested_transactions d then
    let d := set_nested_rollback d true in
    if (transaction_cnt d =? 1)%Z then
      match call_rollback d with
      | (d1, Some _) => (d1, Raise except_sqlite3)
      | (d1, None) => (set_transaction_cnt d1 (transaction_cnt d1 - 1), Ok tt)
      end
    else (set_transaction_cnt d (transaction_cnt d - 1), Ok tt)
  else
    match call_rollback d with
    | (d1, Some e) =>
        (d1, Raise (Error ("Failed to rollback transaction: " ++ e_text e
                           ++ " (code " ++ str_of_Z (e_code e) ++ ")")))
    | (d1, None) => (d1, Ok tt)
    end.

Definition sticky_commit : exn :=
  Error ("Transaction was commited despite previous " ++
         "rollback in nested transaction").

Definition commit (t_state : bool) (d : Driver C) : Driver C * result unit :=
  if negb t_state then (d, Ok tt)
  else if nested_transactions d then
    if (transaction_cnt d =? 1)%Z then
      if nested_rollback d then
        match rollback true d with
        | (d1, Raise e) => (d1, Raise e)
        | (d1, Ok _) =>
            (set_transaction_cnt d1 (transaction_cnt d1 - 1),
             Raise sticky_commit)
        end
      else
        match call_commit d with
        | (d1, Some _) => (d1, Raise except_sqlite3)
        | (d1, None) =>
            (set_transaction_cnt d1 (transaction_cnt d1 - 1), Ok tt)
        end
    else (set_transaction_cnt d (transaction_cnt d - 1), Ok tt)
  else
    match call_commit d with
    | (d1, Some e) =>
        (d1, Raise (Error ("Failed to commit transaction: " ++ e_text e
                           ++ " (code " ++ str_of_Z (e_code e) ++ ")")))
    | (d1, None) => (d1, Ok tt)
    end.

End MysqlDriver.
End MysqlDriver.

(** ** Methods that run on a driver *)

(** A method that reads and writes the driver (and through it the
    connection) and returns or raises. *)
Definition M (C : Type) (A : Type) : Type :=
  Driver.Driver C -> Driver.Driver C * result A.

Definition ret {C A} (a : A) : M C A := fun d => (d, Ok a).
Definition raise {C A} (e : exn) : M C A := fun d => (d, Raise e).
Definition lift {C A} (r : result A) : M C A := fun d => (d, r).

Definition bindM {C A B} (m : M C A) (k : A -> M C B) : M C B :=
  fun d =>
    match m d with
    | (d1, Ok a) => k a d1
    | (d1, Raise e) => (d1, Raise e)
    end.

Notation "x <~ m ;; k" := (bindM m (fun x => k))
  (at level 61, m at next level, right associativity).

(** What [execute] hands back: a plain value ([None], a number, a list of
    column values), one row, or a list of rows. *)
Inductive Returned : Type :=
| Val (v : PyVal)
| Row (r : dict PyVal)
| Rows (rs : list (dict PyVal)).

(** The part of a driver that [Table] calls. *)
Record Dbh (C : Type) : Type := {
  dbh_quote_name : string -> string;
  dbh_placeholder : string;
  dbh_execute : string -> list (list PyVal) -> string -> M C Returned
}.
Arguments dbh_quote_name {C} _ _.
Arguments dbh_placeholder {C} _.
Arguments dbh_execute {C} _ _ _ _ _.

(** ** SqliteDriver.py *)

Module SqliteDriver.
Section SqliteDriver.
Import Driver.
Context {C : Type} {conn : Connection C}.

Definition placeholder : string := "?".

Definition dquote : string := String (ascii_of_nat 34) EmptyString.

(** [name.replace(dquote, dquote + dquote)] *)
Fixpoint double_dquotes (name : string) : string :=
  match name with
  | EmptyString => EmptyString
  | String c name' =>
      if Ascii.eqb c (ascii_of_nat 34)
      then String c (String c (double_dquotes name'))
      else String c (double_dquotes name')
  end.

Definition quote_name (name : string) : string :=
  dquote ++ double_dquotes name ++ dquote.

Definition busy : string := "cannot start a transaction within a transaction".

Definition failed_start (timeout : Z) (e : EngineError) : exn :=
  Error ("Failed to start transaction (timeout=" ++ str_of_Z timeout ++ "s): "
         ++ e_text e).

Definition start_transaction (fuel : nat) (t_state : bool)
    (timeout : option Z) (d : Driver C)
  : option (Driver C * result unit) :=
  if negb t_state then Some (d, Ok tt)
  else
    let timeout :=
      match timeout with None => transaction_timeout d | Some t => t end in
    let t0 := clock d in
    match wait_loop busy (t0 + 1000 * timeout) fuel None d with
    | None => None
    | Some (d1, LoopReturn) => Some (d1, Ok tt)
    | Some (d1, LoopLeft None) => Some (d1, Raise AttributeError)
    | Some (d1, LoopLeft (Some exc_buf)) =>
        Some (d1, Raise (failed_start timeout exc_buf))
    end.

Definition commit (t_state : bool) : M C unit :=
  fun d =>
    if negb t_state then (d, Ok tt)
    else
      match call_commit d with
      | (d1, Some e) =>
          (d1, Raise (Error ("Failed to commit transaction: " ++ e_text e)))
      | (d1, None) => (d1, Ok tt)
      end.

Definition rollback (t_state : bool) : M C unit :=
  fun d =>
    if negb t_state then (d, Ok tt)
    else
      match call_rollback d with
      | (d1, Some e) =>
          (d1, Raise (Error ("Failed to rollback transaction: " ++ e_text e)))
      | (d1, None) => (d1, Ok tt)
      end.

(** A new cursor: nothing to fetch, [lastrowid] is [None]. *)
Definition new_cursor : Cursor := {| fetch := []; lastrowid := PNone |}.

(** The [if]/[elif] chain on [ret] after the statement has run. *)
Definition returned (c : Cursor) (ret : string) : result Returned :=
  if String.eqb ret "rows" then Ok (Rows (fetch c))
  else if String.eqb ret "row" then
    match fetch c with
    | [] => Ok (Val PNone)
    | r :: _ => Ok (Row r)
    end
  else if String.eqb ret "col" then
    match fetch c with
    | [] => Ok (Val PNone)
    | [] :: _ => Ok (Row [])
    | ((_, v) :: _) :: _ => Ok (Val v)
    end
  else if String.eqb ret "cols" then
    vs <- mapM (fun row : dict PyVal =>
                  match row with
                  | [] => Raise IndexError
                  | (_, v) :: _ => Ok v
                  end) (fetch c) ;;
    Ok (Val (PList vs))
  else if String.eqb ret "id" then Ok (Val (lastrowid c))
  else Ok (Val PNone).

(** [execute], with [params] a list of parameter sets.  [executemany] leaves
    the [lastrowid] of the cursor as it was, which on the new cursor is
    [None], and gives no rows to fetch. *)
Definition execute (sql : string) (params : list (list PyVal))
    (ret : string) : M C Returned :=
  fun d =>
    let run : Driver C * (EngineError + Cursor) :=
      match params with
      | [] => call_execute d sql []
      | [p] => call_execute d sql p
      | _ =>
          match call_executemany d sql params with
          | (d1, Some e) => (d1, inl e)
          | (d1, None) => (d1, inr new_cursor)
          end
      end in
    match run with
    | (d1, inl e) => (d1, Raise (QueryError (e_text e) (-1) sql))
    | (d1, inr c) => (d1, returned c ret)
    end.

Definition dbh : Dbh C :=
  {| dbh_quote_name := quote_name;
     dbh_placeholder := placeholder;
     dbh_execute := execute |}.

End SqliteDriver.
End SqliteDriver.

(** ** Table.py *)

Module Table.
Section Table.
Import condition.
Context {rt : PyRuntime} {C : Type}.

(** A table class: its [name], its [columns] (column name to the list of its
    format tags) and the driver [dbh] it was set up with. *)
Record Table : Type := {
  name : string;
  columns : dict (list string);
  dbh : Dbh C
}.

(** [not e] for an error dict *)
Definition no_error (e : ErrorDict) : bool :=
  match e with [] => true | _ => false end.

(** [not all(not e for e in errors)] *)
Definition any_errors (errors : list ErrorDict) : bool :=
  negb (forallb no_error errors).

Definition serialized (self : Table) (where_ : Condition) : string :=
  serialize where_ false (Some (dbh_quote_name (dbh self)))
            (dbh_placeholder (dbh self)).

Fixpoint _validate_where_loop (self : Table) (where_ : Condition)
    (cs : list string) : result unit :=
  match cs with
  | [] => Ok tt
  | col :: cs' =>
      if String.eqb col "id" || dict_in col (columns self)
      then _validate_where_loop self where_ cs'
      else Raise (ColumnError ("Invalid column '" ++ col ++
                               "' in condition '" ++
                               serialized self where_ ++ "'"))
  end.

Definition _validate_where (self : Table) (where_ : Condition)
  : result unit :=
  _validate_where_loop self where_ (cols where_).

Definition count (self : Table) (where_ : Condition) : M C Returned :=
  _ <~ lift (_validate_where self where_) ;;
  let sql := "SELECT COUNT(*) FROM " ++ dbh_quote_name (dbh self) (name self)
             ++ " " ++ serialized self where_ in
  ps <~ lift (params where_) ;;
  dbh_execute (dbh self) sql ps "col".

(** [_validate_data]: the loop over the columns of one data row; [validated]
    and [errors] are the two dicts it fills. *)
Fixpoint _validate_data_loop (self : Table) (data : dict PyVal)
    (validated : dict PyVal) (errors : ErrorDict)
  : result (dict PyVal * ErrorDict) :=
  match data with
  | [] => Ok (validated, errors)
  | (col, value) :: data' =>
      match dict_get (columns self) col with
      | None => _validate_data_loop self data' validated errors
      | Some fmt =>
          r <- validate.validate col value fmt errors ;;
          _validate_data_loop self data' (dict_set validated col (fst r))
                              (snd r)
      end
  end.

Definition _validate_data (self : Table) (data : dict PyVal)
    (errors : ErrorDict) : result (dict PyVal * ErrorDict) :=
  _validate_data_loop self data [] errors.

(** The four lists [_split_col_value] builds. *)
Record Split : Type := {
  validated : list (dict PyVal);
  cols : list string;
  values : list (list PyVal);
  errors : list ErrorDict
}.

Definition same_columns : exn := Error "Data sets have not the same columns".

(** [for col in cols: if col not in v: raise Error(...)] *)
Fixpoint check_cols_in (cols : list string) (v : dict PyVal) : result unit :=
  match cols with
  | [] => Ok tt
  | col :: cols' =>
      if dict_in col v then check_cols_in cols' v else Raise same_columns
  end.

(** [[v[col] for col in cols]] *)
Definition row_values (cols : list string) (v : dict PyVal)
  : result (list PyVal) :=
  mapM (fun col => match dict_get v col with
                   | Some x => Ok x
                   | None => Raise (KeyError col)
                   end) cols.

(** One pass of the loop of [_split_col_value], for the data row [row]. *)
Definition split_step (self : Table) (acc : Split) (row : dict PyVal)
  : result Split :=
  r <- _validate_data self row [] ;;
  let v := fst r in
  let error := snd r in
  let errors' := (errors acc ++ [error])%list in
  match error with
  | _ :: _ =>
      Ok {| validated := validated acc; cols := cols acc;
            values := values acc; errors := errors' |}
  | [] =>
      cols' <- match cols acc with
               | [] => Ok (dict_keys v)
               | _ => _ <- check_cols_in (cols acc) v ;; Ok (cols acc)
               end ;;
      vals <- row_values cols' v ;;
      Ok {| validated := (validated acc ++ [v])%list; cols := cols';
            values := (values acc ++ [vals])%list; errors := errors' |}
  end.

Fixpoint split_loop (self : Table) (acc : Split) (data : list (dict PyVal))
  : result Split :=
  match data with
  | [] => Ok acc
  | row :: data' =>
      acc' <- split_step self acc row ;; split_loop self acc' data'
  end.

Definition _split_col_value (self : Table) (data : list (dict PyVal))
  : result (list (dict PyVal) * list string * list (list PyVal)) :=
  acc <- split_loop self
           {| validated := []; cols := []; values := []; errors := [] |}
           data ;;
  if any_errors (errors acc) then Raise (ValidationError (errors acc))
  else
    match cols acc with
    | [] => Raise (Error "No valid columns available")
    | _ => Ok (validated acc, cols acc, values acc)
    end.

(** [self.count(...) > 1] on what [count] returned: the engine answers
    a count with an [int]; a [bool] compares as its number, and anything
    else is taken not to compare with an [int]. *)
Definition gt_one (r : Returned) : result bool :=
  match r with
  | Val (PInt n) => Ok (1 <? n)%Z
  | Val (PBool _) => Ok false
  | _ => Raise TypeError
  end.

(** The loop over [self.columns] in [_validate2] for the row [d], filling
    the error dict [e] of that row. *)
Fixpoint unique_loop (self : Table) (d : dict PyVal)
    (cs : dict (list string)) (e : ErrorDict) : M C ErrorDict :=
  match cs with
  | [] => ret e
  | (col, fmt) :: cs' =>
      match (if str_in "unique" fmt then dict_get d col else None) with
      | Some x =>
          n <~ count self (Eq col x) ;;
          many <~ lift (gt_one n) ;;
          unique_loop self d cs'
                      (if many then dict_set e col "NOT_UNIQUE" else e)
      | None => unique_loop self d cs' e
      end
  end.

Fixpoint _validate2_loop (self : Table) (data : list (dict PyVal))
  : M C (list ErrorDict) :=
  match data with
  | [] => ret []
  | d :: data' =>
      e <~ unique_loop self d (columns self) [] ;;
      es <~ _validate2_loop self data' ;;
      ret (e :: es)
  end.

(** [cb_validate(data, errors)] writes into the error dicts it is given; it
    is a function from the dicts before to the dicts after. *)
Definition Callback : Type :=
  list (dict PyVal) -> list ErrorDict -> list ErrorDict.

Definition _validate2 (self : Table) (data : list (dict PyVal))
    (cb_validate : option Callback) : M C unit :=
  errors <~ _validate2_loop self data ;;
  if any_errors errors then raise (ValidationError errors)
  else
    match cb_validate with
    | None => ret tt
    | Some cb =>
        let errors := cb data errors in
        if any_errors errors then raise (ValidationError errors) else ret tt
    end.

(** The statement [create] builds for the columns [cols]. *)
Definition insert_sql (self : Table) (cols : list string) : string :=
  let cols := map (dbh_quote_name (dbh self)) cols in
  "INSERT INTO " ++ dbh_quote_name (dbh self) (name self) ++ " ("
  ++ join "," cols ++ ") VALUES ("
  ++ join "," (repeat (dbh_placeholder (dbh self)) (List.length cols)) ++ ")".

Definition create (self : Table) (data : list (dict PyVal))
    (cb_validate : option Callback) : M C Returned :=
  s <~ lift (_split_col_value self data) ;;
  let '(validated, cols, values) := s in
  let sql := insert_sql self cols in
  ids <~ dbh_execute (dbh self) sql values "id" ;;
  _ <~ _validate2 self validated cb_validate ;;
  ret ids.

(** [values[i]] if [i < len(values)], else [values[-1]] *)
Definition nth_or_last (l : list (list PyVal)) (i : nat)
  : result (list PyVal) :=
  if (i <? List.length l)%nat then list_index l i else list_last l.

Definition _join_where_params (self : Table) (values : list (list PyVal))
    (where_ : Condition) : result (list (list PyVal)) :=
  _ <- _validate_where self where_ ;;
  values_where <- params where_ ;;
  let N_sets := Nat.max (List.length values) (List.length values_where) in
  mapM (fun i =>
          v1 <- nth_or_last values i ;;
          v2 <- nth_or_last values_where i ;;
          Ok (v1 ++ v2)%list) (seq 0 N_sets).

Definition update (self : Table) (data : list (dict PyVal))
    (where_ : Condition) (cb_validate : option Callback) : M C unit :=
  s <~ lift (_split_col_value self data) ;;
  let '(validated, cols, values) := s in
  values <~ lift (_join_where_params self values where_) ;;
  let cols_str :=
    map (fun col => dbh_quote_name (dbh self) col ++ " = "
                    ++ dbh_placeholder (dbh self)) cols in
  let sql := "UPDATE " ++ dbh_quote_name (dbh self) (name self) ++ " SET "
             ++ join "," cols_str ++ " " ++ serialized self where_ in
  _ <~ dbh_execute (dbh self) sql values "none" ;;
  _validate2 self validated cb_validate.

End Table.
Arguments Table C : clear implicits.
End Table.

(** ** Sequences of transaction calls *)

Inductive Op : Type :=
| OpStart (timeout : option Z)
| OpCommit
| OpRollback
| OpExecute (sql : string) (p : list PyVal).

Module Calls.
Section Calls.
Import Driver.
Context {C : Type} {conn : Connection C}.

(** One call on a [MysqlDriver]; [OpExecute] runs a statement on a cursor of
    its connection. *)
Definition step (fuel : nat) (op : Op) (d : Driver C)
  : option (Driver C * result unit) :=
  match op with
  | OpStart timeout => MysqlDriver.start_transaction fuel true timeout d
  | OpCommit => Some (MysqlDriver.commit true d)
  | OpRollback => Some (MysqlDriver.rollback true d)
  | OpExecute sql p =>
      match call_execute d sql p with
      | (d1, inl e) => Some (d1, Raise (QueryError (e_text e) (e_code e) sql))
      | (d1, inr _) => Some (d1, Ok tt)
      end
  end.

(** The calls of [ops] one after the other, whatever each returns or raises;
    the outcomes are listed in the order of the calls. *)
Fixpoint run (fuel : nat) (ops : list Op) (d : Driver C)
  : option (Driver C * list (result unit)) :=
  match ops with
  | [] => Some (d, [])
  | op :: ops' =>
      match step fuel op d with
      | None => None
      | Some (d1, r) =>
          match run fuel ops' d1 with
          | None => None
          | Some (d2, rs) => Some (d2, r :: rs)
          end
      end
  end.

(** Statements run one after the other, each given as its text and its
    parameters. *)
Definition execs (w : list (string * list PyVal)) : list Op :=
  map (fun x => OpExecute (fst x) (snd x)) w.

(** The next [n] attempts to start a transaction on [c] all fail with the
    text [busy]: the connection after them and the last exception. *)
Fixpoint busy_for (busy : string) (n : nat) (last : option EngineError)
    (c : C) : option (C * option EngineError) :=
  match n with
  | O => Some (c, last)
  | S n' =>
      match con_start_transaction c with
      | (c1, Some e) =>
          if String.eqb (e_msg e) busy then busy_for busy n' (Some e) c1
          else None
      | (_, None) => None
      end
  end.

(** The attempts of one [start_transaction] that began at [t0]: one every
    100 milliseconds. *)
Definition attempts (t0 : Z) (n : nat) : list (Z * Call) :=
  map (fun k => (t0 + 100 * Z.of_nat k, CallStart)) (seq 0 n).

End Calls.
End Calls.

(** ** The two drivers side by side *)

Inductive Backend : Type := Mysql | Sqlite.

Module Backends.
Section Backends.
Context {C : Type} {conn : Connection C}.

Definition start_transaction (b : Backend)
  : nat -> bool -> option Z -> Driver.Driver C
    -> option (Driver.Driver C * result unit) :=
  match b with
  | Mysql => MysqlDriver.start_transaction
  | Sqlite => SqliteDriver.start_transaction
  end.

Definition busy (b : Backend) : string :=
  match b with
  | Mysql => MysqlDriver.busy
  | Sqlite => SqliteDriver.busy
  end.

Definition failed_start (b : Backend) : Z -> EngineError -> exn :=
  match b with
  | Mysql => MysqlDriver.failed_start
  | Sqlite => SqliteDriver.failed_start
  end.

End Backends.
End Backends.

(** ** A connection to run examples on *)

(** A small engine with one table.  Every statement inserts its parameter
    row; rows written inside a transaction are stored by [commit] and dropped
    by [rollback]; outside a transaction a row is stored at once.  Starting a
    transaction inside a transaction fails with the text [busy]. *)
Module Engine.

Record Db : Type := {
  in_transaction : bool;
  stored : list (list PyVal);
  working : list (list PyVal)
}.

Definition empty : Db :=
  {| in_transaction := false; stored := []; working := [] |}.

Definition insert (db : Db) (rows : list (list PyVal)) : Db :=
  {| in_transaction := in_transaction db;
     stored := if in_transaction db then stored db
               else (working db ++ rows)%list;
     working := (working db ++ rows)%list |}.

Definition connection (busy : string) : Connection Db :=
  {| con_start_transaction := fun db =>
       if in_transaction db
       then (db, Some {| e_msg := busy; e_code := -1; e_text := busy |})
       else ({| in_transaction := true; stored := stored db;
                working := stored db |}, None);
     con_commit := fun db =>
       ({| in_transaction := false; stored := working db;
           working := working db |}, None);
     con_rollback := fun db =>
       ({| in_transaction := false; stored := stored db;
           working := stored db |}, None);
     con_in_transaction := in_transaction;
     cursor_execute := fun db _ p =>
       let db' := insert db [p] in
       (db', inr {| fetch := [];
                    lastrowid :=
                      PInt (Z.of_nat (List.length (working db'))) |});
     cursor_executemany := fun db _ ps => (insert db ps, None) |}.

Definition mysql : Connection Db := connection MysqlDriver.busy.
Definition sqlite : Connection Db := connection SqliteDriver.busy.

(** A table on the SQLite driver, without unique columns. *)
Definition people : Table.Table Db :=
  {| Table.name := "people";
     Table.columns := [("name", ["not_empty"]); ("size", ["float"])];
     Table.dbh := SqliteDriver.dbh (conn := sqlite) |}.

(** A runtime for the examples: [repr] of a text puts it in single quotes,
    every pattern compiles but the one of the tag [r_(], which has a
    parenthesis that is not closed, every pattern that compiles and every
    date is taken to match, and [upper] is the one for ASCII texts. *)
Definition runtime : PyRuntime :=
  {| repr_str := fun s => "'" ++ s ++ "'";
     re_compiles := fun pattern => negb (String.eqb pattern "^(()$");
     re_match := fun _ _ => true;
     strptime_ok := fun _ _ => true;
     str_upper := upper |}.

End Engine.

(** ** The statements of the specification *)

Module Spec.

(** The row-repeat cross rule in the words of the specification: with [N] the
    largest row count among the children, row [i] below [N] is made of each
    child's row [i], or of its last row when it has no row [i]. *)
Definition pick (i : nat) (rows : list (list PyVal)) : list PyVal :=
  if (i <? List.length rows)%nat then nth i rows [] else last rows [].

Definition cross_rows (N : nat) (children : list (list (list PyVal)))
  : list (list PyVal) :=
  map (fun i => List.concat (map (pick i) children)) (seq 0 N).

Definition cross_rule (children : list (list (list PyVal)))
  : list (list PyVal) :=
  cross_rows (list_max (map (@List.length _) children)) children.

(** What a format tag does to the text of a value, in the words of the
    specification. *)
Definition normalize_tag (f : string) (s : string) : string :=
  if String.eqb f "bool" then
    if String.eqb (lower s) "true" || String.eqb s "1" then "1"
    else if String.eqb (lower s) "false" || String.eqb s "0" then "0"
    else s
  else if String.eqb f "float" || String.eqb f "ufloat" then
    let s := replace_char "," "." s in
    if endswith_char "." s then s ++ "0" else s
  else s.

(** The tags are applied in the order the column lists them; the empty text
    stays as it is. *)
Definition normalize (fmt : list string) (s : string) : string :=
  if String.eqb s EmptyString then s
  else fold_left (fun s f => normalize_tag f s) fmt s.



End Spec.

(** ** Table.py, the other methods *)

(** The methods of the driver that [Table] calls besides [execute]. *)
Record Schema (C : Type) : Type := {
  dbh_table_exists : string -> M C bool;
  dbh_create_table : string -> dict (list string) -> M C unit;
  dbh_get_columns : string -> M C (list PyVal)
}.
Arguments dbh_table_exists {C} _ _ _.
Arguments dbh_create_table {C} _ _ _ _.
Arguments dbh_get_columns {C} _ _ _.

(** The argument [cols] of [get]: a text or a list of texts. *)
Inductive ColsArg : Type :=
| ColsStr (s : string)
| ColsList (l : list string).

(** The argument [order] of [get]: a text or a dict from column to
    direction. *)
Inductive OrderArg : Type :=
| OrderStr (s : string)
| OrderDict (o : dict string).

Module TableOps.
Section TableOps.
Import condition Table.
Context {rt : PyRuntime} {C : Type}.

(** [self.count(where) > 0], compared as [gt_one] compares. *)
Definition gt_zero (r : Returned) : result bool :=
  match r with
  | Val (PInt n) => Ok (0 <? n)%Z
  | Val (PBool b) => Ok b
  | _ => Raise TypeError
  end.

(** [exists]; [where] and [exists] are taken words here. *)
Definition exists_ (self : Table C) (where_ : Condition) : M C bool :=
  n <~ count self where_ ;;
  lift (gt_zero n).

Definition delete (self : Table C) (where_ : Condition) : M C unit :=
  _ <~ lift (_validate_where self where_) ;;
  let sql := "DELETE FROM " ++ dbh_quote_name (dbh self) (name self)
             ++ " " ++ serialized self where_ in
  ps <~ lift (params where_) ;;
  _ <~ dbh_execute (dbh self) sql ps "none" ;;
  ret tt.

(** [col != "id" and col not in self.columns] *)
Definition invalid_column (self : Table C) (col : string) : bool :=
  negb (String.eqb col "id") && negb (dict_in col (columns self)).

(** The loop of [get] over [cols]: every column is checked and quoted. *)
Fixpoint get_cols (self : Table C) (cols : list string)
  : result (list string) :=
  match cols with
  | [] => Ok []
  | col :: cols' =>
      if invalid_column self col
      then Raise (ColumnError ("Invalid column '" ++ col ++ "'"))
      else
        rest <- get_cols self cols' ;;
        Ok (dbh_quote_name (dbh self) col :: rest)
  end.

(** The loop of [get] over [order]. *)
Fixpoint get_order (self : Table C) (order : dict string)
  : result (list string) :=
  match order with
  | [] => Ok []
  | (col, direction) :: order' =>
      if invalid_column self col
      then Raise (ColumnError ("Invalid column '" ++ col ++ "'"))
      else if negb (str_in (str_upper direction) ["ASC"; "DESC"])
      then Raise (Error ("Invalid ordering direction '" ++ direction ++ "'"))
      else
        rest <- get_order self order' ;;
        Ok ((dbh_quote_name (dbh self) col ++ " " ++ direction) :: rest)
  end.

(** The statement of [get], once [cols] and [order] are texts. *)
Definition select_sql (self : Table C) (where_ : Condition)
    (cols order : string) (distinct : bool) (limit offset : option Z)
  : string :=
  let limit := match limit with
               | Some n => " LIMIT " ++ str_of_Z n
               | None => EmptyString
               end in
  let offset := match offset with
                | Some n => " OFFSET " ++ str_of_Z n
                | None => EmptyString
                end in
  let distinct := if distinct then " DISTINCT" else EmptyString in
  " SELECT " ++ distinct ++ " " ++ cols ++ " FROM "
  ++ dbh_quote_name (dbh self) (name self) ++ " " ++ serialized self where_
  ++ " ORDER BY " ++ order ++ " " ++ limit ++ " " ++ offset.

Definition get (self : Table C) (where_ : Condition) (ret_ : string)
    (cols : ColsArg) (order : OrderArg) (distinct : bool)
    (limit offset : option Z) : M C Returned :=
  _ <~ lift (_validate_where self where_) ;;
  cols <~ lift (match cols with
                | ColsStr s =>
                    if String.eqb s "*" then Ok "*"
                    else l <- get_cols self [s] ;; Ok (join "," l)
                | ColsList l => l' <- get_cols self l ;; Ok (join "," l')
                end) ;;
  order <~ lift (l <- get_order self
                        match order with
                        | OrderStr s => [(s, "ASC")]
                        | OrderDict o => o
                        end ;;
                 Ok (join ", " l)) ;;
  let sql := select_sql self where_ cols order distinct limit offset in
  ps <~ lift (params where_) ;;
  dbh_execute (dbh self) sql ps ret_.

(** The columns [check_cols] asks for: the declared ones, then [id]. *)
Definition cols_defined (self : Table C) : list string :=
  (dict_keys (columns self) ++ ["id"])%list.

(** [col in cols] for a text and a list of values: only a text is equal to
    a text. *)
Definition str_in_values (col : string) (cols : list PyVal) : bool :=
  existsb (fun v => match v with
                    | PStr s => String.eqb col s
                    | _ => false
                    end) cols.

Definition check_cols (schema : Schema C) (self : Table C) : M C unit :=
  cols <~ dbh_get_columns schema (name self) ;;
  let missing :=
    map (fun col => "'" ++ col ++ "'")
        (filter (fun col => negb (str_in_values col cols))
                (cols_defined self)) in
  match missing with
  | [] => ret tt
  | _ =>
      raise (Error ("Table '" ++ name self ++ "' is invalid. "
                    ++ "The following columns do not exist: "
                    ++ join ", " missing))
  end.

(** [create_default_rows], with [default] the class attribute. *)
Fixpoint create_default_rows (self : Table C)
    (default : list (dict PyVal)) : M C unit :=
  match default with
  | [] => ret tt
  | row :: default' =>
      _ <~ create self [row] None ;;
      create_default_rows self default'
  end.

(** [Table.__init__], with [default] the class attribute. *)
Definition __init__ (schema : Schema C) (self : Table C)
    (default : list (dict PyVal)) (create : bool) : M C unit :=
  found <~ dbh_table_exists schema (name self) ;;
  if found then ret tt
  else if create then
    _ <~ dbh_create_table schema (name self) (columns self) ;;
    create_default_rows self default
  else raise (Error ("Table '" ++ name self ++ "' does not exist")).

End TableOps.
End TableOps.

(** ** SqliteDriver.py, the tables *)

Module SqliteSchema.
Section SqliteSchema.
Context {C : Type} {conn : Connection C}.

Definition table_exists (name : string) : M C bool :=
  r <~ SqliteDriver.execute "SELECT name FROM sqlite_master WHERE name=?"
                            [[PStr name]] "row" ;;
  ret (match r with Val PNone => false | _ => true end).

(** The SQL type of a column with the tags [tags]. *)
Definition column_type (tags : list string) : string :=
  if str_in "text100" tags then "varchar(100)"
  else if str_in "float" tags || str_in "ufloat" tags then "float"
  else if str_in "int" tags || str_in "uint" tags then "integer"
  else if str_in "date" tags then "date"
  else if str_in "datetime" tags then "datetime"
  else if str_in "bool" tags then "integer"
  else "text".

Definition column_def (col : string) (tags : list string) : string :=
  SqliteDriver.quote_name col ++ " " ++ column_type tags
  ++ (if str_in "not_null" tags then " NOT NULL" else EmptyString).

(** The list [col_str] of [create_table]: the key, the columns, and the
    unique constraint when [unique] is not empty. *)
Definition col_str (columns : dict (list string)) (unique : list string)
  : list string :=
  let id_def :=
    SqliteDriver.quote_name "id"
    ++ " integer NOT NULL primary key autoincrement" in
  let unique_def :=
    "UNIQUE(" ++ join ", " (map SqliteDriver.quote_name unique) ++ ")" in
  id_def
  :: app (map (fun c => column_def (fst c) (snd c)) columns)
         match unique with
         | [] => []
         | _ => [unique_def]
         end.

Definition create_table_sql (name : string) (columns : dict (list string))
    (unique : list string) : string :=
  "CREATE TABLE " ++ SqliteDriver.quote_name name ++ " ("
  ++ join ", " (col_str columns unique) ++ ");".

Definition create_table (name : string) (columns : dict (list string))
    (unique : list string) : M C unit :=
  _ <~ SqliteDriver.execute (create_table_sql name columns unique) []
                            "none" ;;
  ret tt.

Definition delete_table (name : string) : M C unit :=
  _ <~ SqliteDriver.execute ("DROP TABLE " ++ SqliteDriver.quote_name name)
                            [] "none" ;;
  ret tt.

(** [[x["name"] for x in rows]] *)
Definition names_of (rows : list (dict PyVal)) : result (list PyVal) :=
  mapM (fun x : dict PyVal =>
          match dict_get x "name" with
          | Some v => Ok v
          | None => Raise (KeyError "name")
          end) rows.

Definition get_columns (table : string) : M C (list PyVal) :=
  r <~ SqliteDriver.execute
         ("PRAGMA table_info(" ++ SqliteDriver.quote_name table ++ ");")
         [] "rows" ;;
  match r with
  | Rows rows => lift (names_of rows)
  | _ => raise TypeError
  end.

Definition schema : Schema C :=
  {| dbh_table_exists := table_exists;
     dbh_create_table := fun name columns => create_table name columns [];
     dbh_get_columns := get_columns |}.

End SqliteSchema.
End SqliteSchema.

(** ** TransactionCM.py *)

Module TransactionCM.
Section TransactionCM.
Context {C : Type} {conn : Connection C}.

Definition commit (b : Backend) : bool -> M C unit :=
  match b with
  | Mysql => MysqlDriver.commit
  | Sqlite => SqliteDriver.commit
  end.

Definition rollback (b : Backend) : bool -> M C unit :=
  match b with
  | Mysql => MysqlDriver.rollback
  | Sqlite => SqliteDriver.rollback
  end.

Definition __enter__ (b : Backend) (fuel : nat) (d : Driver.Driver C)
  : option (Driver.Driver C * result unit) :=
  Backends.start_transaction b fuel true None d.

(** [__exit__]: [traceback] says whether the block raised; the [False] it
    returns tells the interpreter to raise the exception of the block
    again. *)
Definition __exit__ (b : Backend) (traceback : bool) : M C bool :=
  _ <~ (if traceback then rollback b true else commit b true) ;;
  ret false.

(** [with TransactionCM(dbh): body], as the interpreter runs it: when
    [__enter__] raises, the block and [__exit__] are not run; an exception
    of [__exit__] takes the place of the one of the block; [__exit__]
    returns [False], so the exception of the block is raised again. *)
Definition with_ {A} (b : Backend) (fuel : nat) (body : M C A)
    (d : Driver.Driver C) : option (Driver.Driver C * result A) :=
  match __enter__ b fuel d with
  | None => None
  | Some (d1, Raise e) => Some (d1, Raise e)
  | Some (d1, Ok _) =>
      match body d1 with
      | (d2, Ok a) =>
          match __exit__ b false d2 with
          | (d3, Ok _) => Some (d3, Ok a)
          | (d3, Raise e) => Some (d3, Raise e)
          end
      | (d2, Raise e) =>
          match __exit__ b true d2 with
          | (d3, Ok _) => Some (d3, Raise e)
          | (d3, Raise e') => Some (d3, Raise e')
          end
      end
  end.

End TransactionCM.
End TransactionCM.

(** ** MysqlDriver.py, the statements *)

(** What [MysqlDriver.execute] returns: one result, or the list of the
    results of all parameter sets. *)
Inductive Results : Type :=
| Single (r : Returned)
| Several (rs : list Returned).

Module MysqlStatements.
Section MysqlStatements.
Import Driver.
Context {C : Type} {conn : Connection C}.

Definition placeholder : string := "%s".

Definition quote_name (name : string) : string := "`" ++ name ++ "`".

(** What one pass of the loop of [execute] appends to [res]; the rows of a
    cursor that is not a dict cursor are tuples, read here in the order of
    their columns. *)
Definition fetched (c : Cursor) (ret_ : string) : result Returned :=
  if String.eqb ret_ "rows" then Ok (Rows (fetch c))
  else if String.eqb ret_ "row" then
    match fetch c with
    | [] => Ok (Val PNone)
    | r :: _ => Ok (Row r)
    end
  else if String.eqb ret_ "col" then
    match fetch c with
    | ((_, v) :: _) :: _ => Ok (Val v)
    | _ => Ok (Val PNone)
    end
  else if String.eqb ret_ "cols" then
    vs <- mapM (fun row : dict PyVal =>
                  match row with
                  | [] => Raise IndexError
                  | (_, v) :: _ => Ok v
                  end) (fetch c) ;;
    Ok (Val (PList vs))
  else if String.eqb ret_ "id" then Ok (Val (lastrowid c))
  else Ok (Val PNone).

(** [if len(p) == 0 or p == [None]: p = None]; the cursor is given no
    parameters then. *)
Definition cursor_params (p : list PyVal) : list PyVal :=
  match p with
  | [] => []
  | [PNone] => []
  | _ => p
  end.

(** The loop of [execute] over the parameter sets; an exception of the
    engine leaves it as the [QueryError] of the [except] clause. *)
Fixpoint execute_loop (sql ret_ : string) (params : list (list PyVal))
    (res : list Returned) (d : Driver C)
  : Driver C * result (list Returned) :=
  match params with
  | [] => (d, Ok res)
  | p :: params' =>
      match call_execute d sql (cursor_params p) with
      | (d1, inl e) => (d1, Raise (QueryError (e_text e) (e_code e) sql))
      | (d1, inr c) =>
          match fetched c ret_ with
          | Raise e => (d1, Raise e)
          | Ok r => execute_loop sql ret_ params' (res ++ [r])%list d1
          end
      end
  end.

(** [execute], with [params] a list of parameter sets. *)
Definition execute (fuel : nat) (sql : string)
    (params : list (list PyVal)) (ret_ : string) (d : Driver C)
  : option (Driver C * result Results) :=
  let params := match params with [] => [[PNone]] | _ => params end in
  let started :=
    if con_in_transaction (con d) then Some (d, Ok tt, false)
    else
      match MysqlDriver.start_transaction fuel true None d with
      | None => None
      | Some (d1, r) => Some (d1, r, true)
      end in
  match started with
  | None => None
  | Some (d1, Raise e, _) => Some (d1, Raise e)
  | Some (d1, Ok _, autotrans) =>
      match execute_loop sql ret_ params [] d1 with
      | (d2, Raise e) => Some (d2, Raise e)
      | (d2, Ok res) =>
          match (if autotrans && con_in_transaction (con d2)
                 then MysqlDriver.commit true d2 else (d2, Ok tt)) with
          | (d3, Raise e) => Some (d3, Raise e)
          | (d3, Ok _) =>
              Some (d3,
                    if String.eqb ret_ "none" then Ok (Single (Val PNone))
                    else
                      match params with
                      | _ :: _ :: _ => Ok (Several res)
                      | _ => r <- list_index res 0 ;; Ok (Single r)
                      end)
          end
      end
  end.

End MysqlStatements.
End MysqlStatements.

(** [c in s] for a character and a text *)
Fixpoint has_char (c : ascii) (s : string) : bool :=
  match s with
  | EmptyString => false
  | String c' s' => Ascii.eqb c' c || has_char c s'
  end.

(** The text is one that the format bool takes: true, false, 1 or 0. *)
Definition boolish (s : string) : bool :=
  (String.eqb (lower s) "true" || String.eqb s "1")
  || (String.eqb (lower s) "false" || String.eqb s "0").

(** What holds of the lists [_split_col_value] builds, after every pass of
    its loop. *)
Definition split_shape {C} (self : Table.Table C) (acc : Table.Split)
  : Prop :=
  NoDup (Table.cols acc)
  /\ (forall c, In c (Table.cols acc) ->
                dict_in c (Table.columns self) = true)
  /\ Forall (fun r => List.length r = List.length (Table.cols acc)
                      \/ r = [])
            (Table.values acc)
  /\ List.length (Table.validated acc) = List.length (Table.values acc).

(** A call that runs a statement. *)
Definition is_execute (c : Z * Call) : Prop :=
  match snd c with
  | CallExecute _ _ => True
  | _ => False
  end.

(** A method that leaves the calls made so far as they are, and after them
    only runs statements: it starts, commits and rolls back nothing. *)
Definition only_executes {C A} (m : M C A) : Prop :=
  forall d, exists l,
    Driver.calls (fst (m d)) = (Driver.calls d ++ l)%list
    /\ Forall is_execute l.

(** The columns [get] is asked for: none for ["*"], the one column of a
    text, the columns of a list. *)
Definition asked_cols (cols : ColsArg) : list string :=
  match cols with
  | ColsStr s => if String.eqb s "*" then [] else [s]
  | ColsList l => l
  end.

(** [cols] is the text ["*"]. *)
Definition asks_all (cols : ColsArg) : bool :=
  match cols with
  | ColsStr s => String.eqb s "*"
  | ColsList _ => false
  end.

(** The ordering [get] is asked for: ascending for a text. *)
Definition asked_order (order : OrderArg) : dict string :=
  match order with
  | OrderStr s => [(s, "ASC")]
  | OrderDict o => o
  end.

(** A connection whose engine starts, commits and rolls back what it is
    asked to and refuses every statement; its state says whether a
    transaction is open. *)
Module Refusing.

Definition no_table : EngineError :=
  {| e_msg := "Table 'people' doesn't exist"; e_code := 1146;
     e_text := "Table 'people' doesn't exist" |}.

Definition connection : Connection bool :=
  {| con_start_transaction := fun _ => (true, None);
     con_commit := fun _ => (false, None);
     con_rollback := fun _ => (false, None);
     con_in_transaction := fun open => open;
     cursor_execute := fun open _ _ => (open, inl no_table);
     cursor_executemany := fun open _ _ => (open, Some no_table) |}.

End Refusing.

(** A connection on which another session holds a transaction for a
    while: the engine answers the next [n] attempts to start a transaction
    with the text [busy] and takes the attempt after them; its state is
    [n]. *)
Module Waiting.

Definition busy_error (busy : string) : EngineError :=
  {| e_msg := busy; e_code := -1; e_text := busy |}.

Definition connection (busy : string) : Connection nat :=
  {| con_start_transaction := fun n =>
       match n with
       | O => (O, None)
       | S n' => (n', Some (busy_error busy))
       end;
     con_commit := fun n => (n, None);
     con_rollback := fun n => (n, None);
     con_in_transaction := fun _ => false;
     cursor_execute := fun n _ _ =>
       (n, inr {| fetch := []; lastrowid := PNone |});
     cursor_executemany := fun n _ _ => (n, None) |}.

Definition sqlite : Connection nat := connection SqliteDriver.busy.

End Waiting.

(** A call that starts a transaction. *)
Definition is_start (c : Z * Call) : Prop := snd c = CallStart.

(** * Facts *)

(** ** Lists, texts and results *)

Lemma append_assoc (a b c : string) : (a ++ b) ++ c = a ++ b ++ c.
Proof. induction a as [|x a IH]; simpl; [reflexivity | now rewrite IH]. Qed.

Lemma append_empty_r (a : string) : a ++ EmptyString = a.
Proof. induction a as [|x a IH]; simpl; [reflexivity | now rewrite IH]. Qed.

Lemma mapM_Forall2 {A B} (f : A -> result B) (l : list A) (bs : list B) :
  mapM f l = Ok bs -> Forall2 (fun a b => f a = Ok b) l bs.
Proof.
  revert bs; induction l as [|a l IH]; simpl; intros bs H.
  - injection H as <-. constructor.
  - destruct (f a) as [b|e] eqn:Hb; simpl in H; [|discriminate].
    destruct (mapM f l) as [bs'|e] eqn:Hl; simpl in H; [|discriminate].
    injection H as <-. constructor; auto.
Qed.

Lemma Forall2_mapM {A B} (f : A -> result B) (l : list A) (bs : list B) :
  Forall2 (fun a b => f a = Ok b) l bs -> mapM f l = Ok bs.
Proof.
  induction 1 as [|a b l bs Hab _ IH]; simpl; [reflexivity|].
  now rewrite Hab, IH.
Qed.

Lemma mapM_ext_in {A B} (f g : A -> result B) (l : list A) :
  (forall a, In a l -> f a = g a) -> mapM f l = mapM g l.
Proof.
  induction l as [|a l IH]; simpl; intros H; [reflexivity|].
  rewrite (H a) by now left. rewrite IH; [reflexivity|].
  intros; apply H; now right.
Qed.

Lemma mapM_Ok_map {A B} (f : A -> B) (l : list A) :
  mapM (fun a => Ok (f a)) l = Ok (map f l).
Proof. induction l as [|a l IH]; simpl; [reflexivity | now rewrite IH]. Qed.

Lemma list_index_In {A} (l : list A) (i : nat) (a : A) :
  list_index l i = Ok a -> In a l.
Proof.
  unfold list_index. destruct (nth_error l i) eqn:H; [|discriminate].
  intros [= <-]. eapply nth_error_In; eauto.
Qed.

Lemma list_last_In {A} (l : list A) (a : A) : list_last l = Ok a -> In a l.
Proof.
  induction l as [|x l IH]; simpl; [discriminate|].
  destruct l as [|y l]; [intros [= <-]; now left|].
  intros H; right; auto.
Qed.

Lemma list_index_nth {A} (l : list A) (i : nat) (dflt : A) :
  (i < List.length l)%nat -> list_index l i = Ok (nth i l dflt).
Proof.
  intros H. unfold list_index.
  now rewrite (nth_error_nth' l dflt H).
Qed.

Lemma list_last_last {A} (l : list A) (dflt : A) :
  l <> [] -> list_last l = Ok (last l dflt).
Proof.
  induction l as [|x l IH]; [congruence|]. intros _.
  destruct l as [|y l]; [reflexivity|].
  change (list_last (y :: l) = Ok (last (y :: l) dflt)).
  apply IH; congruence.
Qed.

(** ** condition.py *)

Section ConditionFacts.
Import condition.

Lemma render_app (ph : string) (a b : list Token) :
  render ph (a ++ b) = render ph a ++ render ph b.
Proof.
  induction a as [|[s|] a IH]; simpl; [reflexivity| |];
    now rewrite IH, append_assoc.
Qed.

Lemma placeholders_app (a b : list Token) :
  placeholders (a ++ b) = (placeholders a + placeholders b)%nat.
Proof. induction a as [|[s|] a IH]; simpl; auto. Qed.

Lemma render_join_pieces (ph sep : string) (ls : list (list Token)) :
  render ph (join_pieces (Text sep) ls) = join sep (map (render ph) ls).
Proof.
  induction ls as [|x ls IH]; [reflexivity|].
  destruct ls as [|y ls]; [reflexivity|].
  change (render ph (x ++ Text sep :: join_pieces (Text sep) (y :: ls))
          = render ph x ++ sep ++ join sep (map (render ph) (y :: ls))).
  rewrite render_app. cbn [render]. now rewrite IH.
Qed.

Lemma placeholders_join_pieces (sep : string) (ls : list (list Token)) :
  placeholders (join_pieces (Text sep) ls) = list_sum (map placeholders ls).
Proof.
  induction ls as [|x ls IH]; [reflexivity|].
  destruct ls as [|y ls]; [simpl; lia|].
  change (placeholders (x ++ Text sep :: join_pieces (Text sep) (y :: ls))
          = (placeholders x + list_sum (map placeholders (y :: ls)))%nat).
  rewrite placeholders_app. cbn [placeholders]. now rewrite IH.
Qed.

(** The pieces are the text: with the placeholder put in, they read as
    [serialize] writes. *)
Lemma serialize_pieces (c : Condition) :
  forall nested quote placeholder,
    serialize c nested quote placeholder
    = render placeholder (pieces c nested quote).
Proof.
  induction c as [|op cs IH|op col|op col value] using Condition_nested_ind;
    intros nested quote ph; simpl.
  - reflexivity.
  - destruct (negb nested && (List.length cs =? 0)%nat); [reflexivity|].
    simpl. rewrite render_app, render_join_pieces. simpl.
    rewrite map_map.
    do 4 f_equal. apply map_ext_in. intros c Hc.
    rewrite Forall_forall in IH. now apply IH.
  - rewrite append_empty_r. reflexivity.
  - rewrite append_empty_r, !append_assoc. simpl.
    rewrite ?append_assoc. reflexivity.
Qed.

(** The number of placeholders of a junction is the sum over its children. *)
Lemma placeholders_junction op (cs : list Condition) nested quote :
  placeholders (pieces (Junction op cs) nested quote)
  = list_sum (map (fun c => placeholders (pieces c true quote)) cs).
Proof.
  simpl. destruct (negb nested && (List.length cs =? 0)%nat) eqn:E.
  - apply andb_prop in E as [_ E]. apply Nat.eqb_eq in E.
    destruct cs; [reflexivity | discriminate].
  - simpl. rewrite placeholders_app, placeholders_join_pieces, map_map.
    simpl. lia.
Qed.

Lemma max_sets_fold (ps : list (list (list PyVal))) (n : nat) :
  fold_left (fun N_sets p =>
               if (N_sets <? List.length p)%nat then List.length p else N_sets)
            ps n
  = Nat.max n (list_max (map (@List.length _) ps)).
Proof.
  revert n; induction ps as [|p ps IH]; intros n; simpl.
  - lia.
  - rewrite IH. destruct (Nat.ltb_spec n (List.length p)); lia.
Qed.

Lemma max_sets_spec (ps : list (list (list PyVal))) :
  max_sets ps = Nat.max 1 (list_max (map (@List.length _) ps)).
Proof. apply max_sets_fold. Qed.

(** A row of a junction is as wide as the rows of its children together. *)
Lemma param_set_length (i : nat) (ps : list (list (list PyVal)))
    (ws : list nat) (r : list PyVal) :
  Forall2 (fun p w => Forall (fun row => List.length row = w) p) ps ws ->
  param_set i ps = Ok r -> List.length r = list_sum ws.
Proof.
  intros H; revert r; induction H as [|p w ps ws Hp _ IH]; simpl; intros r Hr.
  - now injection Hr as <-.
  - destruct (if (i <? List.length p)%nat then list_index p i else list_last p)
      as [x|e] eqn:Hx; simpl in Hr; [|discriminate].
    destruct (param_set i ps) as [rest|e]; simpl in Hr; [|discriminate].
    injection Hr as <-. rewrite length_app, (IH rest eq_refl).
    f_equal. rewrite Forall_forall in Hp. apply Hp.
    destruct (i <? List.length p)%nat;
      [eapply list_index_In | eapply list_last_In]; eauto.
Qed.

(** Where every child has a row, [param_set] picks by the rule. *)
Lemma param_set_pick (i : nat) (ps : list (list (list PyVal))) :
  Forall (fun p => p <> []) ps ->
  param_set i ps = Ok (List.concat (map (Spec.pick i) ps)).
Proof.
  induction 1 as [|p ps Hp _ IH]; simpl; [reflexivity|].
  rewrite IH. unfold Spec.pick.
  destruct (Nat.ltb_spec i (List.length p)).
  - now rewrite (list_index_nth p i []).
  - now rewrite (list_last_last p []).
Qed.

(** Where a child has no row, row 0 cannot be made. *)
Lemma param_set_empty (ps : list (list (list PyVal))) :
  Exists (fun p => p = []) ps -> param_set 0 ps = Raise IndexError.
Proof.
  induction ps as [|p ps IH]; intros H; [inversion H|].
  simpl. destruct p as [|row p].
  - reflexivity.
  - inversion H as [? ? Hp|? ? Hps]; subst; [discriminate|].
    simpl. rewrite (IH Hps). reflexivity.
Qed.

(** Every row of [params] is as wide as [serialize] has placeholders. *)
Lemma params_width (c : Condition) :
  forall nested quote rows,
    params c = Ok rows ->
    Forall (fun row => List.length row = placeholders (pieces c nested quote))
           rows.
Proof.
  induction c as [|op cs IH|op col|op col value] using Condition_nested_ind;
    intros nested quote rows Hrows.
  - injection Hrows as <-. constructor.
  - rewrite placeholders_junction.
    simpl in Hrows.
    destruct (mapM params cs) as [ps|e] eqn:Hps; simpl in Hrows;
      [|discriminate].
    apply mapM_Forall2 in Hps. apply mapM_Forall2 in Hrows.
    assert (Hw : Forall2
                   (fun p w => Forall (fun row => List.length row = w) p) ps
                   (map (fun c => placeholders (pieces c true quote)) cs)).
    { clear Hrows. induction Hps as [|c p cs ps Hc _ IHps]; simpl;
        constructor.
      - inversion IH; subst. eauto.
      - inversion IH; subst. auto. }
    clear Hps IH.
    induction Hrows as [|i row idx rows Hrow _ IHrows]; constructor; auto.
    eapply param_set_length; eauto.
  - injection Hrows as <-. repeat constructor.
  - injection Hrows as <-. simpl.
    destruct value; simpl; repeat constructor.
    induction l; simpl; constructor; auto.
Qed.

(** The rows of a junction whose children all have rows. *)
Lemma params_junction op (cs : list Condition)
    (children : list (list (list PyVal))) :
  Forall2 (fun c rows => params c = Ok rows /\ rows <> []) cs children ->
  params (Junction op cs)
  = Ok (Spec.cross_rows
          (Nat.max 1 (list_max (map (@List.length _) children))) children).
Proof.
  intros H. simpl.
  assert (Hps : mapM params cs = Ok children).
  { apply Forall2_mapM. induction H as [|c p cs ps [Hc _] _ IHps];
      constructor; assumption. }
  assert (Hne : Forall (fun p => p <> []) children).
  { clear Hps. induction H as [|c p cs ps [_ Hp] _ IHps];
      constructor; assumption. }
  rewrite Hps. simpl. rewrite max_sets_spec.
  rewrite (mapM_ext_in _ (fun i =>
                            Ok (List.concat (map (Spec.pick i) children)))).
  - apply mapM_Ok_map.
  - intros i _. now apply param_set_pick.
Qed.

End ConditionFacts.

(** ** Transactions *)

Section TransactionFacts.
Import Driver.
Context {C : Type} {conn : Connection C}.

(** The loop of [start_transaction] touches the connection, the clock and the
    list of calls, and nothing of the transaction state. *)
Lemma wait_loop_state (busy : string) (deadline : Z) (fuel : nat) :
  forall exc_buf (d d' : Driver C) x,
    wait_loop busy deadline fuel exc_buf d = Some (d', x) ->
    transaction_cnt d' = transaction_cnt d
    /\ nested_rollback d' = nested_rollback d
    /\ nested_transactions d' = nested_transactions d.
Proof.
  induction fuel as [|fuel IH]; intros exc_buf d d' x; simpl.
  - destruct (clock d <? deadline)%Z; [discriminate|].
    intros [= <- <-]. auto.
  - destruct (clock d <? deadline)%Z; [|intros [= <- <-]; auto].
    unfold call_start. destruct (con_start_transaction (con d)) as [c [e|]].
    + destruct (String.eqb (e_msg e) busy).
      * intros H. apply IH in H. simpl in H. exact H.
      * intros [= <- <-]. auto.
    + intros [= <- <-]. auto.
Qed.

(** With a unit of fuel for every 100 milliseconds up to the deadline the
    loop ends. *)
Lemma wait_loop_total (busy : string) (deadline : Z) (fuel : nat) :
  forall exc_buf (d : Driver C),
    deadline - clock d <= 100 * Z.of_nat fuel ->
    exists res, wait_loop busy deadline fuel exc_buf d = Some res.
Proof.
  induction fuel as [|fuel IH]; intros exc_buf d Hfuel; simpl.
  - destruct (Z.ltb_spec (clock d) deadline); [lia | eauto].
  - destruct (Z.ltb_spec (clock d) deadline); [|eauto].
    unfold call_start. destruct (con_start_transaction (con d)) as [c [e|]];
      [|eauto].
    destruct (String.eqb (e_msg e) busy); [|eauto].
    apply IH. unfold sleep, record. cbn [clock]. lia.
Qed.

(** What the loop does while the engine says a transaction is in progress:
    after [n] such answers, [n] attempts have been made 100 milliseconds
    apart, and the loop goes on from there. *)
Lemma wait_loop_busy (busy : string) (deadline : Z) (n : nat) :
  forall fuel exc_buf (d : Driver C) last c',
    Calls.busy_for busy n exc_buf (con d) = Some (c', last) ->
    clock d + 100 * Z.of_nat n < deadline + 100 ->
    wait_loop busy deadline (n + fuel) exc_buf d
    = wait_loop busy deadline fuel last
        {| con := c'; transaction_timeout := transaction_timeout d;
           nested_transactions := nested_transactions d;
           transaction_cnt := transaction_cnt d;
           nested_rollback := nested_rollback d;
           clock := clock d + 100 * Z.of_nat n;
           calls := (calls d ++ Calls.attempts (clock d) n)%list |}.
Proof.
  induction n as [|n IH]; intros fuel exc_buf d last c' Hbusy Htime.
  - simpl in Hbusy. injection Hbusy as <- <-.
    destruct d; simpl. unfold Calls.attempts. simpl.
    now rewrite app_nil_r, Z.add_0_r.
  - simpl in Hbusy.
    destruct (con_start_transaction (con d)) as [c1 [e|]] eqn:Hstart;
      [|discriminate].
    destruct (String.eqb (e_msg e) busy) eqn:He; [|discriminate].
    change (S n + fuel)%nat with (S (n + fuel)). cbn [wait_loop].
    destruct (Z.ltb_spec (clock d) deadline); [|lia].
    unfold call_start. rewrite Hstart, He.
    rewrite (IH fuel (Some e) _ last c');
      [|exact Hbusy|unfold sleep, record; cbn [clock]; lia].
    f_equal. unfold sleep, record.
    cbn [con transaction_timeout nested_transactions transaction_cnt
         nested_rollback clock calls].
    f_equal; [lia|].
    unfold Calls.attempts. rewrite <- app_assoc. f_equal.
    cbn [seq map app]. f_equal; [f_equal; lia|].
    rewrite <- seq_shift, map_map. apply map_ext. intros k. f_equal. lia.
Qed.

Lemma attempts_S (t0 : Z) (n : nat) :
  Calls.attempts t0 (S n)
  = (Calls.attempts t0 n ++ [(t0 + 100 * Z.of_nat n, CallStart)])%list.
Proof.
  unfold Calls.attempts. now rewrite seq_S, map_app.
Qed.




(** The loop of [start_transaction] when the time is up before the first
    pass. *)
Lemma wait_loop_late (busy : string) (deadline : Z) (fuel : nat)
    (exc_buf : option EngineError) (d : Driver C) :
  deadline <= clock d ->
  wait_loop busy deadline fuel exc_buf d = Some (d, LoopLeft exc_buf).
Proof.
  intros H. destruct fuel; cbn [wait_loop];
    destruct (Z.ltb_spec (clock d) deadline); try lia; reflexivity.
Qed.

Lemma run_app (fuel : nat) (a b : list Op) (d : Driver C) :
  Calls.run fuel (a ++ b) d
  = match Calls.run fuel a d with
    | None => None
    | Some (d1, rs1) =>
        match Calls.run fuel b d1 with
        | None => None
        | Some (d2, rs2) => Some (d2, (rs1 ++ rs2)%list)
        end
    end.
Proof.
  revert d; induction a as [|op a IH]; intros d; simpl.
  - destruct (Calls.run fuel b d) as [[d2 rs2]|]; reflexivity.
  - destruct (Calls.step fuel op d) as [[d1 r]|]; [|reflexivity].
    rewrite IH. destruct (Calls.run fuel a d1) as [[d2 rs1]|]; [|reflexivity].
    destruct (Calls.run fuel b d2) as [[d3 rs2]|]; reflexivity.
Qed.

End TransactionFacts.

(** Statements run on the example engine inside a transaction leave what is
    stored, and the transaction state of the driver, as they are. *)
Lemma engine_executes (fuel : nat) (w : list (string * list PyVal)) :
  forall d : Driver.Driver Engine.Db,
    Engine.in_transaction (Driver.con d) = true ->
    exists d' rs,
      Calls.run (conn := Engine.mysql) fuel (Calls.execs w) d
      = Some (d', rs)
      /\ Forall (fun r => r = Ok tt) rs
      /\ Engine.in_transaction (Driver.con d') = true
      /\ Engine.stored (Driver.con d') = Engine.stored (Driver.con d)
      /\ Driver.transaction_cnt d' = Driver.transaction_cnt d
      /\ Driver.nested_rollback d' = Driver.nested_rollback d
      /\ Driver.nested_transactions d' = Driver.nested_transactions d.
Proof.
  induction w as [|[sql p] w IH]; intros d Hin.
  - exists d, []. repeat split; try constructor; auto.
  - unfold Calls.execs. cbn [map fst snd Calls.run Calls.step].
    fold (Calls.execs w).
    unfold Driver.call_execute.
    cbn [cursor_execute Engine.mysql Engine.connection].
    set (d1 := Driver.record d _ _).
    destruct (IH d1) as (d' & rs & Hrun & Hrs & Hin' & Hst & Hcnt & Hnr & Hnt).
    { unfold d1. simpl. exact Hin. }
    exists d', (Ok tt :: rs). rewrite Hrun.
    repeat split; auto.
    rewrite Hst. unfold d1. simpl. now rewrite Hin.
Qed.

(** ** validate.py and Table.py *)

Lemma dict_get_set {V} (d : dict V) (k k' : string) (v : V) :
  dict_get (dict_set d k v) k'
  = if String.eqb k k' then Some v else dict_get d k'.
Proof.
  induction d as [|[k0 v0] d IH]; simpl.
  - reflexivity.
  - destruct (String.eqb_spec k0 k) as [->|Hk]; simpl.
    + destruct (String.eqb k k'); reflexivity.
    + rewrite IH. destruct (String.eqb_spec k0 k') as [->|Hk'].
      * destruct (String.eqb_spec k k'); [congruence | reflexivity].
      * reflexivity.
Qed.

Lemma dict_get_keys {V} (d : dict V) (k : string) :
  In k (dict_keys d) -> exists v, dict_get d k = Some v.
Proof.
  induction d as [|[k0 v0] d IH]; simpl; [tauto|].
  intros [->|H].
  - rewrite String.eqb_refl. eauto.
  - destruct (String.eqb k0 k); eauto.
Qed.

Lemma str_in_In (x : string) (l : list string) :
  str_in x l = true <-> In x l.
Proof.
  unfold str_in. rewrite existsb_exists. split.
  - intros (y & Hy & E). apply String.eqb_eq in E. now subst.
  - intros H. exists x. split; [exact H | apply String.eqb_refl].
Qed.

Section ValidateFacts.
Context {rt : PyRuntime}.

(** A validation function of the module does to the text what the
    specification says of its tag. *)
Lemma globals_normalize (f col value : string) (errors : ErrorDict) func :
  validate.globals f = Some func ->
  fst (func col value errors) = Spec.normalize_tag f value.
Proof.
  unfold validate.globals, Spec.normalize_tag.
  repeat match goal with
         | |- context [String.eqb f ?s] =>
             destruct (String.eqb_spec f s) as [->|?]
         end; try discriminate; intros [= <-]; cbn [String.eqb Ascii.eqb
           Bool.eqb orb];
    try (unfold validate._v_datetime, validate._v_date, validate._v_int,
           validate._v_uint, validate._v_text100;
         match goal with |- context [if ?b then _ else _] => destruct b end;
         reflexivity).
  - unfold validate._v_float.
    match goal with |- context [re_match ?a ?b] => destruct (re_match a b) end;
      reflexivity.
  - unfold validate._v_ufloat.
    match goal with |- context [re_match ?a ?b] => destruct (re_match a b) end;
      reflexivity.
  - unfold validate._v_bool.
    destruct (String.eqb (lower value) "true" || String.eqb value "1");
      [reflexivity|].
    destruct (String.eqb (lower value) "false" || String.eqb value "0");
      reflexivity.
Qed.

Lemma skipped_normalize (f value : string) :
  str_in f ["not_empty"; "not_null"; "unique"; "text"] = true ->
  Spec.normalize_tag f value = value.
Proof.
  rewrite str_in_In. simpl.
  intros [<-|[<-|[<-|[<-|[]]]]]; reflexivity.
Qed.

Lemma regex_normalize (f value : string) :
  startswith "r_" f = true -> Spec.normalize_tag f value = value.
Proof.
  destruct f as [|a [|b f]]; cbn [startswith]; try discriminate.
  - rewrite andb_false_r. discriminate.
  - destruct (Ascii.eqb_spec "r" a) as [<-|]; [|discriminate].
    destruct (Ascii.eqb_spec "_" b) as [<-|]; [|discriminate].
    reflexivity.
Qed.

Lemma formats_normalize (col : string) (fmt : list string) :
  forall value errors value' errors',
    validate.formats col fmt value errors = Ok (value', errors') ->
    value' = fold_left (fun s f => Spec.normalize_tag f s) fmt value.
Proof.
  induction fmt as [|f fmt IH]; intros value errors value' errors' H;
    cbn [validate.formats] in H.
  - now injection H as <- _.
  - cbn [fold_left].
    destruct (str_in f ["not_empty"; "not_null"; "unique"; "text"]) eqn:Hs.
    + rewrite (skipped_normalize f value Hs). eauto.
    + destruct (startswith "r_" f) eqn:Hr.
      * rewrite (regex_normalize f value Hr).
        destruct (re_compiles _); [|discriminate]. cbn [negb] in H.
        destruct (re_match _ value); eauto.
      * destruct (validate.globals f) as [func|] eqn:Hg; [|discriminate].
        rewrite <- (globals_normalize f col value errors func Hg).
        destruct (func col value errors) as [v1 e1]. eauto.
Qed.

(** What [validate] returns for a value that is not [None]. *)
Lemma validate_not_none (col : string) (v : PyVal) (fmt : list string)
    (errors : ErrorDict) (r : PyVal) (errors' : ErrorDict) :
  v <> PNone ->
  validate.validate col v fmt errors = Ok (r, errors') ->
  r = PStr (Spec.normalize fmt (py_str v)).
Proof.
  intros Hv H. unfold Spec.normalize.
  assert (Hbody :
    (if str_in "not_empty" fmt && String.eqb (py_str v) EmptyString
     then Ok (PStr (py_str v), dict_set errors col "EMPTY_FIELD")
     else if negb (String.eqb (py_str v) EmptyString) then
       r <- validate.formats col fmt (py_str v) errors ;;
       Ok (PStr (fst r), snd r)
     else Ok (PStr (py_str v), errors)) = Ok (r, errors')).
  { destruct v; try exact H. congruence. }
  clear H. destruct (String.eqb (py_str v) EmptyString) eqn:E.
  - destruct (str_in "not_empty" fmt); simpl in Hbody;
      now injection Hbody as <- _.
  - rewrite andb_false_r in Hbody. simpl in Hbody.
    destruct (validate.formats col fmt (py_str v) errors) as [[v1 e1]|e]
      eqn:Hf; simpl in Hbody; [|discriminate].
    injection Hbody as <- _. f_equal. eapply formats_normalize; eauto.
Qed.


End ValidateFacts.

Section TableFacts.
Import Table.
Context {rt : PyRuntime} {C : Type}.







Lemma formats_total (col : string) (fmt : list string) :
  forall value errors,
    (forall f, In f fmt -> known_format f = true) ->
    exists r, validate.formats col fmt value errors = Ok r.
Proof.
  induction fmt as [|f fmt IH]; intros value errors Hknown;
    cbn [validate.formats].
  - eauto.
  - assert (Hrest : forall f', In f' fmt -> known_format f' = true)
      by (intros; apply Hknown; now right).
    pose proof (Hknown f (or_introl eq_refl)) as Hf.
    unfold known_format in Hf.
    destruct (str_in f ["not_empty"; "not_null"; "unique"; "text"]) eqn:Hs;
      [now apply IH|].
    cbn [orb] in Hf. destruct (startswith "r_" f) eqn:Hr.
    + rewrite Hf. cbn [negb]. destruct (re_match _ value); now apply IH.
    + destruct (validate.globals f) as [func|]; [|discriminate].
      destruct (func col value errors). now apply IH.
Qed.

Lemma check_cols_in_forallb (cs : list string) (v : dict PyVal) :
  check_cols_in cs v
  = if forallb (fun col => dict_in col v) cs then Ok tt
    else Raise same_columns.
Proof.
  induction cs as [|col cs IH]; simpl; [reflexivity|].
  destruct (dict_in col v); simpl; [exact IH | reflexivity].
Qed.

Lemma row_values_total (cs : list string) (v : dict PyVal) :
  forallb (fun col => dict_in col v) cs = true ->
  exists vals, row_values cs v = Ok vals.
Proof.
  unfold row_values. induction cs as [|col cs IH]; simpl; [eauto|].
  intros H. apply andb_prop in H as [Hcol Hcs].
  destruct (IH Hcs) as [vals ->]. unfold dict_in in Hcol.
  destruct (dict_get v col); [|discriminate]. simpl. eauto.
Qed.

Lemma dict_keys_in {V} (v : dict V) :
  forallb (fun col => dict_in col v) (dict_keys v) = true.
Proof.
  apply forallb_forall. intros col Hcol. unfold dict_in.
  destruct (dict_get_keys v col Hcol) as [x ->]. reflexivity.
Qed.

(** A later row without errors: it is taken when it has every column of
    [cols], and raises the error of the columns when it lacks one. *)
Lemma split_step_later (self : Table C) (acc : Split) (row v : dict PyVal) :
  _validate_data self row [] = Ok (v, []) ->
  cols acc <> [] ->
  (forallb (fun col => dict_in col v) (cols acc) = true ->
   exists vals,
     split_step self acc row
     = Ok {| validated := (validated acc ++ [v])%list; cols := cols acc;
             values := (values acc ++ [vals])%list;
             errors := (errors acc ++ [[]])%list |})
  /\ (forallb (fun col => dict_in col v) (cols acc) = false ->
      split_step self acc row = Raise same_columns).
Proof.
  intros Hv Hcols. unfold split_step. rewrite Hv. cbn [bind fst snd].
  destruct (cols acc) as [|c cs] eqn:Hc; [congruence|].
  rewrite check_cols_in_forallb. split; intros Hall; rewrite Hall.
  - cbn [bind]. destruct (row_values_total (c :: cs) v Hall) as [vals ->].
    cbn [bind]. eauto.
  - reflexivity.
Qed.

Lemma split_loop_later (self : Table C) (data : list (dict PyVal))
    (vs : list (dict PyVal)) :
  Forall2 (fun row v => _validate_data self row [] = Ok (v, [])) data vs ->
  forall acc,
    cols acc <> [] ->
    (Forall (fun v => forallb (fun col => dict_in col v) (cols acc) = true)
            vs ->
     exists vals,
       split_loop self acc data
       = Ok {| validated := (validated acc ++ vs)%list; cols := cols acc;
               values := (values acc ++ vals)%list;
               errors := (errors acc ++ map (fun _ => []) vs)%list |}
       /\ List.length vals = List.length vs)
    /\ (Exists (fun v => forallb (fun col => dict_in col v) (cols acc)
                         = false) vs ->
        split_loop self acc data = Raise same_columns).
Proof.
  induction 1 as [|row v data vs Hv _ IH]; intros acc Hcols.
  - split.
    + intros _. exists []. simpl. rewrite !app_nil_r.
      destruct acc; split; reflexivity.
    + intros H. inversion H.
  - destruct (split_step_later self acc row v Hv Hcols) as [Hok Hfail].
    cbn [split_loop].
    destruct (forallb (fun col => dict_in col v) (cols acc)) eqn:Hall.
    + destruct (Hok eq_refl) as [vals0 ->]. cbn [bind].
      match goal with
      | |- context [split_loop self ?a data] =>
          destruct (IH a Hcols) as [IHok IHfail]
      end.
      split.
      * intros Hvs. inversion Hvs as [|? ? _ Hrest]; subst.
        destruct (IHok Hrest) as (vals & -> & Hlen).
        exists (vals0 :: vals). cbn [validated cols values errors map].
        rewrite <- !app_assoc. split; [reflexivity | simpl; lia].
      * intros Hex. inversion Hex as [? ? Hhead|? ? Htail]; subst;
          [congruence|].
        now apply IHfail.
    + rewrite (Hfail eq_refl). split; [|reflexivity].
      intros Hvs. inversion Hvs; congruence.
Qed.

(** The first row without errors, with a declared column: its columns are
    taken for all rows. *)
Lemma split_step_first (self : Table C) (row v : dict PyVal) :
  _validate_data self row [] = Ok (v, []) ->
  exists vals,
    split_step self
      {| validated := []; cols := []; values := []; errors := [] |} row
    = Ok {| validated := [v]; cols := dict_keys v; values := [vals];
            errors := [[]] |}.
Proof.
  intros Hv. unfold split_step. rewrite Hv. cbn [bind fst snd cols].
  destruct (row_values_total (dict_keys v) v (dict_keys_in v)) as [vals ->].
  cbn [bind validated values errors app]. eauto.
Qed.

Lemma forallb_map_nil {A} (l : list A) :
  forallb no_error (map (fun _ => []) l) = true.
Proof. induction l; simpl; auto. Qed.

(** [_split_col_value] on rows that all validate without errors, the first
    with a declared column. *)
Lemma _split_col_value_clean (self : Table C) (data : list (dict PyVal))
    (v0 : dict PyVal) (vs : list (dict PyVal)) :
  Forall2 (fun row v => _validate_data self row [] = Ok (v, []))
          data (v0 :: vs) ->
  dict_keys v0 <> [] ->
  (Forall (fun v => forallb (fun col => dict_in col v) (dict_keys v0) = true)
          vs ->
   exists values,
     _split_col_value self data = Ok (v0 :: vs, dict_keys v0, values)
     /\ List.length values = List.length data)
  /\ (Exists (fun v => forallb (fun col => dict_in col v) (dict_keys v0)
                       = false) vs ->
      _split_col_value self data = Raise same_columns).
Proof.
  intros H Hkeys. inversion H as [|row ? data' ? Hv0 Hrest]; subst.
  unfold _split_col_value. cbn [split_loop].
  destruct (split_step_first self row v0 Hv0) as [vals0 ->]. cbn [bind].
  match goal with
  | |- context [split_loop self ?a data'] =>
      destruct (split_loop_later self data' vs Hrest a Hkeys) as [Hok Hfail]
  end.
  cbn [cols] in Hok, Hfail. split.
  - intros Hall. destruct (Hok Hall) as (vals & -> & Hlen).
    cbn [bind errors cols validated values app].
    unfold any_errors. cbn [forallb no_error].
    rewrite forallb_map_nil. cbn [negb andb].
    destruct (dict_keys v0) eqn:E; [congruence|].
    eexists. split; [reflexivity|].
    apply Forall2_length in Hrest. simpl. lia.
  - intros Hex. rewrite (Hfail Hex). reflexivity.
Qed.

Lemma forallb_false_intro {A} (f : A -> bool) (l : list A) (x : A) :
  In x l -> f x = false -> forallb f l = false.
Proof.
  intros Hx Hf. destruct (forallb f l) eqn:E; [|reflexivity].
  rewrite forallb_forall in E. rewrite (E x Hx) in Hf. discriminate.
Qed.

Lemma forallb_false_Exists {A} (f : A -> bool) (l : list A) :
  forallb f l = false <-> Exists (fun x => f x = false) l.
Proof.
  induction l as [|x l IH]; simpl.
  - split; [discriminate | intros H; inversion H].
  - destruct (f x) eqn:E; simpl.
    + rewrite IH. split; [now right|].
      intros H; inversion H; subst; [congruence | assumption].
    + split; [now left | reflexivity].
Qed.

(** One pass of [_split_col_value] files one error dict, and one row of
    values when that dict is empty. *)
Lemma split_step_lengths (self : Table C) (acc acc' : Split)
    (row : dict PyVal) :
  split_step self acc row = Ok acc' ->
  exists error,
    errors acc' = (errors acc ++ [error])%list
    /\ List.length (values acc')
       = (List.length (values acc) + if no_error error then 1 else 0)%nat.
Proof.
  unfold split_step.
  destruct (_validate_data self row []) as [[v error]|e]; simpl;
    [|discriminate].
  destruct error as [|x error].
  - destruct (match cols acc with
              | [] => Ok (dict_keys v)
              | _ :: _ => _ <- check_cols_in (cols acc) v ;; Ok (cols acc)
              end) as [cols'|e]; simpl; [|discriminate].
    destruct (row_values cols' v) as [vals|e]; simpl; [|discriminate].
    intros [= <-]. exists []. simpl. rewrite length_app. simpl. auto.
  - intros [= <-]. exists (x :: error). simpl. split; [reflexivity | lia].
Qed.

Lemma split_loop_lengths (self : Table C) (data : list (dict PyVal)) :
  forall acc acc',
    split_loop self acc data = Ok acc' ->
    exists es,
      errors acc' = (errors acc ++ es)%list
      /\ List.length es = List.length data
      /\ List.length (values acc')
         = (List.length (values acc) + List.length (filter no_error es))%nat.
Proof.
  induction data as [|row data IH]; intros acc acc' H; simpl in H.
  - injection H as <-. exists []. rewrite app_nil_r. simpl. auto.
  - destruct (split_step self acc row) as [acc1|e] eqn:Hstep; simpl in H;
      [|discriminate].
    destruct (split_step_lengths self acc acc1 row Hstep)
      as (error & Herr & Hlen).
    destruct (IH acc1 acc' H) as (es & Hes & Hn & Hvals).
    exists (error :: es). rewrite Hes, Herr, <- app_assoc.
    split; [reflexivity|]. split; [simpl; lia|].
    rewrite Hvals, Hlen. simpl. destruct (no_error error); simpl; lia.
Qed.

Lemma filter_all {A} (f : A -> bool) (l : list A) :
  forallb f l = true -> filter f l = l.
Proof.
  induction l as [|x l IH]; simpl; [reflexivity|].
  intros H. apply andb_prop in H as [Hx Hl]. rewrite Hx. now rewrite IH.
Qed.

(** When [_split_col_value] returns, it returns one row of values for each
    data row. *)
Lemma _split_col_value_length (self : Table C) (data : list (dict PyVal))
    validated cols values :
  _split_col_value self data = Ok (validated, cols, values) ->
  List.length values = List.length data.
Proof.
  unfold _split_col_value.
  destruct (split_loop self _ data) as [acc|e] eqn:Hloop; simpl;
    [|discriminate].
  destruct (any_errors (errors acc)) eqn:Herr; [discriminate|].
  destruct (Table.cols acc); [discriminate|].
  intros [= _ _ <-].
  destruct (split_loop_lengths self data _ acc Hloop) as (es & Hes & Hn & Hv).
  simpl in Hes, Hv. rewrite Hv, <- Hn. f_equal. apply filter_all.
  unfold any_errors in Herr. rewrite Hes in Herr.
  now destruct (forallb no_error es).
Qed.

End TableFacts.

(** The condition of [test_nested_conditions], with its expected [params]
    and [cols]. *)
Example test_nested_conditions :
  let cond1 :=
    condition.Or
      [condition.And [condition.Eq "name" (PStr "value");
                      condition.Null "name2"];
       condition.And [condition.Eq "foo" (PStr "value");
                      condition.Eq "bar" (PStr "value2")];
       condition.Re "baz" (PStr "(.*)[abc|def]");
       condition.Like "blub" (PList [PStr "blabla"; PStr "bloblo"]);
       condition.NotEq "haha" PNone;
       condition.Gt "number1" (PInt 44);
       condition.Le "number2" (PInt (-3));
       condition.Leq "keyXY" (PStr "jaja");
       condition.Geq "number3" (PFloat "33.2");
       condition.Geq "abc" (PList [PInt 14; PInt 3; PInt 11])] in
  condition.params cond1
  = Ok [[PStr "value"; PStr "value"; PStr "value2"; PStr "(.*)[abc|def]";
         PStr "blabla"; PNone; PInt 44; PInt (-3); PStr "jaja";
         PFloat "33.2"; PInt 14];
        [PStr "value"; PStr "value"; PStr "value2"; PStr "(.*)[abc|def]";
         PStr "bloblo"; PNone; PInt 44; PInt (-3); PStr "jaja";
         PFloat "33.2"; PInt 3];
        [PStr "value"; PStr "value"; PStr "value2"; PStr "(.*)[abc|def]";
         PStr "bloblo"; PNone; PInt 44; PInt (-3); PStr "jaja";
         PFloat "33.2"; PInt 11]]
  /\ condition.cols cond1
     = ["name"; "name2"; "foo"; "bar"; "baz"; "blub"; "haha"; "number1";
        "number2"; "keyXY"; "number3"; "abc"]
  /\ condition.serialize cond1 false None "?"
     = " WHERE ((name = ? AND name2 IS NULL) OR (foo = ? AND bar = ?) OR "
       ++ "baz REGEXP ? OR blub LIKE ? OR haha != ? OR number1 > ? OR "
       ++ "number2 < ? OR keyXY <= ? OR number3 >= ? OR abc >= ?)".
Proof. cbv zeta. repeat split; reflexivity. Qed.

(** C3. For every condition tree the number of placeholders [serialize]
    writes is the width of every row of [params]: the text of [serialize] is
    its pieces rendered with the placeholder, and each row that [params]
    yields has as many values as there are placeholders among the pieces.
    A null check has no placeholder and the one empty row; a comparison has
    exactly one placeholder. *)
Theorem C3_placeholders_match_rows :
  forall (c : condition.Condition) (nested : bool)
         (quote : option (string -> string)) (placeholder : string),
    condition.serialize c nested quote placeholder
    = condition.render placeholder (condition.pieces c nested quote)
    /\ (forall rows i row,
          condition.params c = Ok rows ->
          nth_error rows i = Some row ->
          List.length row
          = condition.placeholders (condition.pieces c nested quote))
    /\ (forall op col,
          c = condition.NullTest op col ->
          condition.placeholders (condition.pieces c nested quote) = 0%nat
          /\ condition.params c = Ok [[]])
    /\ (forall op col value,
          c = condition.Compare op col value ->
          condition.placeholders (condition.pieces c nested quote) = 1%nat).
Proof.
  intros c nested quote placeholder. split; [|split; [|split]].
  - apply serialize_pieces.
  - intros rows i row Hrows Hi.
    pose proof (params_width c nested quote rows Hrows) as H.
    rewrite Forall_forall in H. apply H. eapply nth_error_In; eauto.
  - intros op col ->. split; reflexivity.
  - intros op col value ->. reflexivity.
Qed.

(** C4, as stated, fails for a junction without children: each of its (no)
    children has a row, the largest row count among them is 0, so the rule
    gives no row, and [params] gives the one empty row. *)
Lemma C4_counterexample :
  Forall2 (fun c rows => condition.params c = Ok rows /\ rows <> []) [] []
  /\ Spec.cross_rule [] = []
  /\ condition.params (condition.And []) = Ok [[]]
  /\ condition.params (condition.And []) <> Ok (Spec.cross_rule []).
Proof.
  split; [constructor|]. split; [reflexivity|]. split; [reflexivity|].
  discriminate.
Qed.

(** C4, amended. For every And/Or junction whose children each yield at least
    one row, [params] follows the row-repeat cross rule with [N] the larger
    of 1 and the largest row count among the children: row [i] below [N] is
    made, in the order of the children, of each child's row [i], or of its
    last row when it has no row [i].  With at least one child that [N] is
    the largest row count itself.  [And(Eq(a,[1,2,3]), Eq(b,x))] yields
    [[1,x],[2,x],[3,x]]. *)
Theorem C4_cross_rule :
  forall (op : string) (cs : list condition.Condition)
         (children : list (list (list PyVal))),
    Forall2 (fun c rows => condition.params c = Ok rows /\ rows <> [])
            cs children ->
    condition.params (condition.Junction op cs)
    = Ok (Spec.cross_rows
            (Nat.max 1 (list_max (map (@List.length _) children))) children)
    /\ (cs <> [] ->
        condition.params (condition.Junction op cs)
        = Ok (Spec.cross_rule children))
    /\ condition.params
         (condition.And [condition.Eq "a" (PList [PInt 1; PInt 2; PInt 3]);
                         condition.Eq "b" (PStr "x")])
       = Ok [[PInt 1; PStr "x"]; [PInt 2; PStr "x"]; [PInt 3; PStr "x"]].
Proof.
  intros op cs children H. split; [|split].
  - now apply params_junction.
  - intros Hcs. rewrite (params_junction op cs children H).
    unfold Spec.cross_rule. do 2 f_equal.
    destruct H as [|c p cs ps [_ Hp] _]; [congruence|].
    change (list_max (map (@List.length _) (p :: ps)))
      with (Nat.max (List.length p) (list_max (map (@List.length _) ps))).
    destruct p; [congruence|]. cbn [List.length]. lia.
  - reflexivity.
Qed.

Lemma C4_cross_rule_witness :
  Forall2 (fun c rows => condition.params c = Ok rows /\ rows <> [])
          [condition.Eq "a" (PList [PInt 1; PInt 2]); condition.Null "b"]
          [[[PInt 1]; [PInt 2]]; [[]]]
  /\ condition.params
       (condition.Or [condition.Eq "a" (PList [PInt 1; PInt 2]);
                      condition.Null "b"])
     = Ok [[PInt 1]; [PInt 2]].
Proof.
  assert (H : Forall2
                (fun c rows => condition.params c = Ok rows /\ rows <> [])
                [condition.Eq "a" (PList [PInt 1; PInt 2]); condition.Null "b"]
                [[[PInt 1]; [PInt 2]]; [[]]]).
  { repeat constructor; discriminate. }
  split; [exact H|].
  exact (proj1 (C4_cross_rule "OR" _ _ H)).
Defined.

(** C9. [params] of an And/Or junction is partial.  With every child's
    [params] returning: if each child has at least one row, the junction
    returns its rows; if some child has no row, the padding step asks that
    child for its last row and [IndexError] is raised.  A comparison built
    from an empty list and a bare [Condition] are such children. *)
Theorem C9_params_partial :
  forall (op : string) (cs : list condition.Condition)
         (children : list (list (list PyVal))),
    Forall2 (fun c rows => condition.params c = Ok rows) cs children ->
    (Forall (fun rows => rows <> []) children ->
     exists out, condition.params (condition.Junction op cs) = Ok out)
    /\ (Exists (fun rows => rows = []) children ->
        condition.params (condition.Junction op cs) = Raise IndexError)
    /\ condition.params (condition.Eq "a" (PList [])) = Ok []
    /\ condition.params condition.Base = Ok []
    /\ condition.params (condition.And [condition.Eq "a" (PList [])])
       = Raise IndexError
    /\ condition.params (condition.Or [condition.Base]) = Raise IndexError.
Proof.
  intros op cs children H. split; [|split].
  - intros Hne. eexists. apply (params_junction op cs children).
    clear op. induction H as [|c p cs ps Hc _ IH]; inversion Hne; subst;
      constructor; auto.
  - intros Hex. simpl. rewrite (Forall2_mapM _ _ _ H). simpl.
    rewrite max_sets_spec.
    destruct (Nat.max 1 (list_max (map (@List.length _) children)))
      as [|n] eqn:Hn; [lia|].
    simpl. now rewrite (param_set_empty children Hex).
  - repeat split; reflexivity.
Qed.

Lemma C9_params_partial_witness :
  Forall2 (fun c rows => condition.params c = Ok rows)
          [condition.Null "a"; condition.Eq "b" (PList [])] [[[]]; []]
  /\ condition.params
       (condition.And [condition.Null "a"; condition.Eq "b" (PList [])])
     = Raise IndexError.
Proof.
  assert (H : Forall2 (fun c rows => condition.params c = Ok rows)
                [condition.Null "a"; condition.Eq "b" (PList [])] [[[]]; []]).
  { repeat constructor. }
  split; [exact H|].
  apply (proj1 (proj2 (C9_params_partial "AND" _ _ H))).
  right. left. reflexivity.
Defined.

(** C1. In nested mode, with [nested_rollback] set, a [commit] at depth 1
    makes exactly one call on the connection, a rollback and no commit, and
    raises: when the engine takes the rollback, the error says that the
    transaction was committed although a nested transaction had been rolled
    back. *)
Theorem C1_sticky_commit_rolls_back :
  forall (C : Type) (conn : Connection C) (d : Driver.Driver C),
    Driver.nested_transactions d = true ->
    Driver.nested_rollback d = true ->
    Driver.transaction_cnt d = 1 ->
    exists d' e,
      MysqlDriver.commit true d = (d', Raise e)
      /\ Driver.calls d'
         = (Driver.calls d ++ [(Driver.clock d, CallRollback)])%list
      /\ Driver.con d' = fst (con_rollback (Driver.con d))
      /\ (snd (con_rollback (Driver.con d)) = None ->
          e = Error ("Transaction was commited despite previous rollback "
                     ++ "in nested transaction")).
Proof.
  intros C conn d Hnested Hsticky Hcnt.
  destruct d as [c0 tmo nested cnt sticky clk cl]. simpl in *. subst.
  unfold MysqlDriver.commit, MysqlDriver.rollback, Driver.call_rollback.
  simpl. destruct (con_rollback c0) as [c [err|]]; simpl.
  - eexists _, _. split; [reflexivity|]. split; [reflexivity|].
    split; [reflexivity|]. discriminate.
  - eexists _, _. split; [reflexivity|]. split; [reflexivity|].
    split; [reflexivity|]. intros _. reflexivity.
Qed.

Lemma C1_sticky_commit_rolls_back_witness :
  let d : Driver.Driver Engine.Db :=
    {| Driver.con := {| Engine.in_transaction := true; Engine.stored := [];
                        Engine.working := [[PInt 7]] |};
       Driver.transaction_timeout := 3; Driver.nested_transactions := true;
       Driver.transaction_cnt := 1; Driver.nested_rollback := true;
       Driver.clock := 0; Driver.calls := [] |} in
  Driver.nested_transactions d = true
  /\ Driver.nested_rollback d = true
  /\ Driver.transaction_cnt d = 1
  /\ exists d' e,
       MysqlDriver.commit (conn := Engine.mysql) true d = (d', Raise e)
       /\ Driver.calls d'
          = (Driver.calls d ++ [(Driver.clock d, CallRollback)])%list
       /\ Driver.con d' = fst (con_rollback (Connection := Engine.mysql)
                                            (Driver.con d))
       /\ (snd (con_rollback (Connection := Engine.mysql) (Driver.con d))
           = None ->
           e = Error ("Transaction was commited despite previous rollback "
                      ++ "in nested transaction")).
Proof.
  intros d. split; [reflexivity|]. split; [reflexivity|].
  split; [reflexivity|].
  apply (C1_sticky_commit_rolls_back Engine.Db Engine.mysql d);
    reflexivity.
Defined.

(** The calls start, start, rollback, commit of the tests, in nested mode
    from depth 0: the outer commit raises and leaves the depth at -1, having
    counted down once in [rollback] and once more itself. *)
Example balanced_calls_end_below_zero :
  let d : Driver.Driver Engine.Db :=
    Driver.set_nested_transactions (Driver.init Engine.empty 0) true in
  exists d',
    Calls.run (conn := Engine.mysql) 0
              [OpStart None; OpStart None; OpRollback; OpCommit] d
    = Some (d', [Ok tt; Ok tt; Ok tt; Raise MysqlDriver.sticky_commit])
    /\ Driver.transaction_cnt d' = -1.
Proof. cbv zeta. eexists. split; reflexivity. Qed.

(** C2, as stated, fails: a driver in nested mode at depth 0, as it is when
    it is set up, is taken to depth -1 by [rollback] and by [commit]. *)
Lemma C2_counterexample :
  let d : Driver.Driver Engine.Db :=
    Driver.set_nested_transactions (Driver.init Engine.empty 0) true in
  Driver.transaction_cnt d = 0
  /\ Driver.transaction_cnt
       (fst (MysqlDriver.rollback (conn := Engine.mysql) true d)) = -1
  /\ Driver.transaction_cnt
       (fst (MysqlDriver.commit (conn := Engine.mysql) true d)) = -1
  /\ ~ (0 <= Driver.transaction_cnt
               (fst (MysqlDriver.rollback (conn := Engine.mysql) true d))).
Proof.
  cbv zeta. split; [reflexivity|]. split; [reflexivity|].
  split; [reflexivity|]. vm_compute. intros H. apply H. reflexivity.
Qed.

(** C2, amended. From a depth that is not negative: [start] leaves the depth
    not negative in both modes, and returns or raises once it has fuel for
    the length of its timeout; in timeout mode [commit] and [rollback] leave
    the depth as it is; in nested mode [rollback] at depth 1 or more, and
    [commit] at depth 1 or more other than the commit at depth 1 with
    [nested_rollback] set, leave the depth not negative; in nested mode at
    depth 0 [commit] and [rollback] take the depth to -1. *)
Theorem C2_depth_not_negative :
  forall (C : Type) (conn : Connection C) (d : Driver.Driver C)
         (fuel : nat) (timeout : option Z),
    0 <= Driver.transaction_cnt d ->
    (forall d' r,
        MysqlDriver.start_transaction fuel true timeout d = Some (d', r) ->
        0 <= Driver.transaction_cnt d')
    /\ ((10 * match timeout with
              | None => Driver.transaction_timeout d
              | Some t => t
              end <= Z.of_nat fuel) ->
        exists d' r,
          MysqlDriver.start_transaction fuel true timeout d = Some (d', r))
    /\ (Driver.nested_transactions d = false ->
        Driver.transaction_cnt (fst (MysqlDriver.commit true d))
        = Driver.transaction_cnt d
        /\ Driver.transaction_cnt (fst (MysqlDriver.rollback true d))
           = Driver.transaction_cnt d)
    /\ (Driver.nested_transactions d = true ->
        1 <= Driver.transaction_cnt d ->
        0 <= Driver.transaction_cnt (fst (MysqlDriver.rollback true d))
        /\ (~ (Driver.transaction_cnt d = 1
               /\ Driver.nested_rollback d = true) ->
            0 <= Driver.transaction_cnt (fst (MysqlDriver.commit true d))))
    /\ (Driver.nested_transactions d = true ->
        Driver.transaction_cnt d = 0 ->
        Driver.transaction_cnt (fst (MysqlDriver.rollback true d)) = -1
        /\ Driver.transaction_cnt (fst (MysqlDriver.commit true d)) = -1).
Proof.
  intros C conn d fuel timeout Hcnt.
  split; [|split; [|split; [|split]]].
  - intros d' r. unfold MysqlDriver.start_transaction. cbn [negb].
    destruct (Driver.nested_transactions d).
    + destruct (Z.eqb_spec (Driver.transaction_cnt d) 0) as [E|E].
      * unfold Driver.call_start. cbn [Driver.con Driver.set_nested_rollback].
        destruct (con_start_transaction (Driver.con d)) as [c [err|]];
          intros [= <- <-]; simpl; lia.
      * intros [= <- <-]. simpl. lia.
    + destruct (Driver.wait_loop _ _ fuel None d) as [[d1 x]|] eqn:Hloop;
        [|discriminate].
      apply wait_loop_state in Hloop as (Hc & _ & _).
      destruct x as [|[e|]]; intros [= <- <-]; lia.
  - intros Hfuel. unfold MysqlDriver.start_transaction. cbn [negb].
    destruct (Driver.nested_transactions d).
    + destruct (Driver.transaction_cnt d =? 0)%Z; [|eauto].
      destruct (Driver.call_start _) as [d1 [err|]]; eauto.
    + destruct (wait_loop_total MysqlDriver.busy
                  (Driver.clock d
                   + 1000 * match timeout with
                            | None => Driver.transaction_timeout d
                            | Some t => t
                            end) fuel None d)
        as [[d1 x] Hloop]; [lia|].
      rewrite Hloop. destruct x as [|[e|]]; eauto.
  - intros Hmode. unfold MysqlDriver.commit, MysqlDriver.rollback.
    cbn [negb]. rewrite Hmode.
    unfold Driver.call_commit, Driver.call_rollback.
    destruct (con_commit (Driver.con d)) as [c1 [e1|]];
      destruct (con_rollback (Driver.con d)) as [c2 [e2|]];
      split; reflexivity.
  - intros Hmode Hdepth.
    destruct d as [c0 tmo nested cnt sticky clk cl]. simpl in *. subst.
    unfold MysqlDriver.commit, MysqlDriver.rollback, Driver.call_commit,
      Driver.call_rollback.
    simpl. destruct (Z.eqb_spec cnt 1) as [E|E].
    + split.
      * destruct (con_rollback c0) as [c2 [e2|]]; simpl; lia.
      * intros Hns. destruct sticky; [tauto|].
        destruct (con_commit c0) as [c1 [e1|]]; simpl; lia.
    + split; [simpl; lia | intros _; simpl; lia].
  - intros Hmode Hdepth.
    destruct d as [c0 tmo nested cnt sticky clk cl]. simpl in *. subst.
    split; reflexivity.
Qed.

Lemma C2_depth_not_negative_witness :
  let d : Driver.Driver Engine.Db :=
    {| Driver.con := {| Engine.in_transaction := true; Engine.stored := [];
                        Engine.working := [] |};
       Driver.transaction_timeout := 3; Driver.nested_transactions := true;
       Driver.transaction_cnt := 2; Driver.nested_rollback := false;
       Driver.clock := 0; Driver.calls := [] |} in
  0 <= Driver.transaction_cnt d
  /\ Driver.nested_transactions d = true
  /\ 1 <= Driver.transaction_cnt d
  /\ 0 <= Driver.transaction_cnt
            (fst (MysqlDriver.rollback (conn := Engine.mysql) true d)).
Proof.
  intros d.
  assert (H0 : 0 <= Driver.transaction_cnt d) by (simpl; lia).
  assert (H1 : 1 <= Driver.transaction_cnt d) by (simpl; lia).
  split; [exact H0|]. split; [reflexivity|]. split; [exact H1|].
  exact (proj1 (proj1 (proj2 (proj2 (proj2
           (C2_depth_not_negative Engine.Db Engine.mysql d 0%nat None H0))))
           eq_refl H1)).
Defined.

(** C5, as stated, fails: in nested mode, from depth 0, none of the calls
    start, start, commit, rollback raises. *)
Lemma C5_counterexample :
  let d : Driver.Driver Engine.Db :=
    Driver.set_nested_transactions (Driver.init Engine.empty 0) true in
  exists d',
    Calls.run (conn := Engine.mysql) 0
              [OpStart None; OpStart None; OpCommit; OpRollback] d
    = Some (d', [Ok tt; Ok tt; Ok tt; Ok tt])
    /\ ~ In (Raise MysqlDriver.sticky_commit) [Ok tt; Ok tt; Ok tt; Ok tt].
Proof.
  cbv zeta. eexists. split; [vm_compute; reflexivity|].
  simpl. intros [H|[H|[H|[H|[]]]]]; discriminate.
Qed.

(** C5, amended. In nested mode, from depth 0 and with the engine taking the
    calls: start, start, commit, rollback raises nothing; the inner commit
    makes no call on the connection and the outer rollback rolls the engine
    transaction back, so the calls on the connection are one start and one
    rollback and the depth is 0 again.  The error of the sticky rollback is
    raised by the outer commit of start, start, rollback, commit, which rolls
    back as well.  On the example engine, whatever statements run between
    the four calls, what is stored after them is what was stored before. *)
Theorem C5_nested_commit_then_rollback :
  forall (C : Type) (conn : Connection C) (d : Driver.Driver C) (c1 c2 : C)
         (fuel : nat) (t1 t2 : option Z),
    Driver.nested_transactions d = true ->
    Driver.transaction_cnt d = 0 ->
    con_start_transaction (Driver.con d) = (c1, None) ->
    con_rollback c1 = (c2, None) ->
    (exists d',
        Calls.run fuel [OpStart t1; OpStart t2; OpCommit; OpRollback] d
        = Some (d', [Ok tt; Ok tt; Ok tt; Ok tt])
        /\ Driver.calls d'
           = (Driver.calls d ++ [(Driver.clock d, CallStart);
                                 (Driver.clock d, CallRollback)])%list
        /\ Driver.con d' = c2
        /\ Driver.transaction_cnt d' = 0
        /\ Driver.nested_rollback d' = true)
    /\ (exists d',
        Calls.run fuel [OpStart t1; OpStart t2; OpRollback; OpCommit] d
        = Some (d', [Ok tt; Ok tt; Ok tt; Raise MysqlDriver.sticky_commit])
        /\ Driver.calls d'
           = (Driver.calls d ++ [(Driver.clock d, CallStart);
                                 (Driver.clock d, CallRollback)])%list
        /\ Driver.con d' = c2)
    /\ (forall (e : Driver.Driver Engine.Db)
               (w1 w2 w3 : list (string * list PyVal)),
        Driver.nested_transactions e = true ->
        Driver.transaction_cnt e = 0 ->
        Engine.in_transaction (Driver.con e) = false ->
        exists e' rs,
          Calls.run (conn := Engine.mysql) fuel
            (OpStart t1 :: Calls.execs w1 ++
             OpStart t2 :: Calls.execs w2 ++
             OpCommit :: Calls.execs w3 ++ [OpRollback]) e
          = Some (e', rs)
          /\ Forall (fun r => r = Ok tt) rs
          /\ Engine.stored (Driver.con e') = Engine.stored (Driver.con e)
          /\ Engine.in_transaction (Driver.con e') = false).
Proof.
  intros C conn d c1 c2 fuel t1 t2 Hmode Hcnt Hstart Hrollback.
  split; [|split].
  - destruct d as [c0 tmo nested cnt sticky clk cl]. simpl in *. subst.
    unfold Calls.run, Calls.step, MysqlDriver.start_transaction,
      MysqlDriver.commit, MysqlDriver.rollback, Driver.call_start,
      Driver.call_rollback.
    simpl. rewrite Hstart. simpl. rewrite Hrollback. simpl.
    eexists. split; [reflexivity|]. simpl.
    rewrite <- app_assoc. repeat split.
  - destruct d as [c0 tmo nested cnt sticky clk cl]. simpl in *. subst.
    unfold Calls.run, Calls.step, MysqlDriver.start_transaction,
      MysqlDriver.commit, MysqlDriver.rollback, Driver.call_start,
      Driver.call_rollback.
    simpl. rewrite Hstart. simpl. rewrite Hrollback. simpl.
    eexists. split; [reflexivity|]. simpl.
    rewrite <- app_assoc. repeat split.
  - clear. intros e w1 w2 w3 Hmode Hcnt Hout.
    destruct e as [db tmo nested cnt sticky clk cl]. simpl in *. subst.
    cbn [Calls.run Calls.step]. unfold MysqlDriver.start_transaction at 1.
    unfold Driver.call_start. simpl. rewrite Hout.
    rewrite (run_app (conn := Engine.mysql)).
    match goal with
    | |- context [Calls.run _ (Calls.execs w1) ?e1] =>
        destruct (engine_executes fuel w1 e1 eq_refl)
          as (e2 & rs1 & -> & Hrs1 & Hin2 & Hst2 & Hcnt2 & Hnr2 & Hnt2)
    end.
    simpl in Hst2, Hcnt2, Hnr2, Hnt2.
    cbn [Calls.run Calls.step]. unfold MysqlDriver.start_transaction at 1.
    cbn [negb]. rewrite Hnt2, Hcnt2. simpl.
    rewrite (run_app (conn := Engine.mysql)).
    match goal with
    | |- context [Calls.run _ (Calls.execs w2) ?e3] =>
        destruct (engine_executes fuel w2 e3 Hin2)
          as (e4 & rs2 & -> & Hrs2 & Hin4 & Hst4 & Hcnt4 & Hnr4 & Hnt4)
    end.
    simpl in Hst4, Hcnt4, Hnr4, Hnt4.
    try rewrite Hst2 in Hst4. try rewrite Hcnt2 in Hcnt4.
    try rewrite Hnt2 in Hnt4.
    simpl in Hcnt4.
    cbn [Calls.run Calls.step]. unfold MysqlDriver.commit at 1.
    cbn [negb]. rewrite Hnt4, Hcnt4. simpl.
    rewrite (run_app (conn := Engine.mysql)).
    match goal with
    | |- context [Calls.run _ (Calls.execs w3) ?e5] =>
        destruct (engine_executes fuel w3 e5 Hin4)
          as (e6 & rs3 & -> & Hrs3 & Hin6 & Hst6 & Hcnt6 & Hnr6 & Hnt6)
    end.
    simpl in Hst6, Hcnt6, Hnr6, Hnt6.
    try rewrite Hst4 in Hst6. try rewrite Hcnt4 in Hcnt6.
    try rewrite Hnt4 in Hnt6.
    simpl in Hcnt6.
    cbn [Calls.run Calls.step]. unfold MysqlDriver.rollback at 1.
    cbn [negb]. rewrite Hnt6. simpl. rewrite Hcnt6. simpl.
    eexists _, _. split; [reflexivity|]. split; [|split].
    + constructor; [reflexivity|]. apply Forall_app. split; [exact Hrs1|].
      constructor; [reflexivity|]. apply Forall_app. split; [exact Hrs2|].
      constructor; [reflexivity|]. apply Forall_app. split; [exact Hrs3|].
      repeat constructor.
    + simpl. exact Hst6.
    + reflexivity.
Qed.

Lemma C5_nested_commit_then_rollback_witness :
  let d : Driver.Driver Engine.Db :=
    Driver.set_nested_transactions (Driver.init Engine.empty 0) true in
  let c1 : Engine.Db :=
    {| Engine.in_transaction := true; Engine.stored := [];
       Engine.working := [] |} in
  Driver.nested_transactions d = true
  /\ Driver.transaction_cnt d = 0
  /\ con_start_transaction (Connection := Engine.mysql) (Driver.con d)
     = (c1, None)
  /\ con_rollback (Connection := Engine.mysql) c1 = (Engine.empty, None)
  /\ exists d',
       Calls.run (conn := Engine.mysql) 0
                 [OpStart None; OpStart None; OpCommit; OpRollback] d
       = Some (d', [Ok tt; Ok tt; Ok tt; Ok tt])
       /\ Driver.calls d'
          = (Driver.calls d ++ [(Driver.clock d, CallStart);
                                (Driver.clock d, CallRollback)])%list
       /\ Driver.con d' = Engine.empty
       /\ Driver.transaction_cnt d' = 0
       /\ Driver.nested_rollback d' = true.
Proof.
  intros d c1.
  split; [reflexivity|]. split; [reflexivity|]. split; [reflexivity|].
  split; [reflexivity|].
  exact (proj1 (C5_nested_commit_then_rollback Engine.Db Engine.mysql d c1
                  Engine.empty 0%nat None None
                  eq_refl eq_refl eq_refl eq_refl)).
Defined.




(** Cases of [test_formats] that do not hang on a pattern or a date. *)
Example test_formats :
  validate.validate (rt := Engine.runtime) "col" (PBool true) ["bool"] []
  = Ok (PStr "1", [])
  /\ validate.validate (rt := Engine.runtime) "col" (PBool false) ["bool"] []
     = Ok (PStr "0", [])
  /\ validate.validate (rt := Engine.runtime) "col" (PStr "trUE") ["bool"] []
     = Ok (PStr "1", [])
  /\ validate.validate (rt := Engine.runtime) "col" (PInt 0) ["bool"] []
     = Ok (PStr "0", [])
  /\ validate.validate (rt := Engine.runtime) "col" (PInt 22) ["bool"] []
     = Ok (PStr "22", [("col", "INVALID_BOOL")])
  /\ validate.validate (rt := Engine.runtime) "col" (PStr "4,88") ["float"] []
     = Ok (PStr "4.88", [])
  /\ validate.validate (rt := Engine.runtime) "col" (PInt (-200)) ["int"] []
     = Ok (PStr "-200", [])
  /\ validate.validate (rt := Engine.runtime) "col" PNone ["not_null"] []
     = Ok (PNone, [("col", "NONE_FIELD")])
  /\ validate.validate (rt := Engine.runtime) "col" (PStr EmptyString)
                       ["not_empty"] []
     = Ok (PStr EmptyString, [("col", "EMPTY_FIELD")])
  /\ validate.validate (rt := Engine.runtime) "col" (PStr "abc")
                       ["invalid_format"] []
     = Raise (NotImplementedError "invalid_format" "col" "abc").
Proof. repeat split; reflexivity. Qed.

(** C7, as stated, fails: the second row validates to the columns name and
    size, the first to name alone, and the call does not fail; the columns
    of the first row are taken, the statement is issued with them, and the
    size of the second row is left out. *)
Lemma C7_counterexample :
  let data : list (dict PyVal) :=
    [[("name", PStr "Peter")];
     [("name", PStr "Mayer"); ("size", PStr "16.3")]] in
  Table._validate_data (rt := Engine.runtime) Engine.people
                       [("name", PStr "Peter")] []
  = Ok ([("name", PStr "Peter")], [])
  /\ Table._validate_data (rt := Engine.runtime) Engine.people
                          [("name", PStr "Mayer"); ("size", PStr "16.3")] []
     = Ok ([("name", PStr "Mayer"); ("size", PStr "16.3")], [])
  /\ Table._split_col_value (rt := Engine.runtime) Engine.people data
     = Ok ([[("name", PStr "Peter")];
            [("name", PStr "Mayer"); ("size", PStr "16.3")]],
           ["name"], [[PStr "Peter"]; [PStr "Mayer"]])
  /\ Table._split_col_value (rt := Engine.runtime) Engine.people data
     <> Raise Table.same_columns
  /\ snd (Table.create (rt := Engine.runtime) Engine.people data None
                       (Driver.init Engine.empty 0))
     = Ok (Val PNone)
  /\ Driver.calls
       (fst (Table.create (rt := Engine.runtime) Engine.people data None
                          (Driver.init Engine.empty 0)))
     = [(0, CallExecute (Table.insert_sql Engine.people ["name"])
                        [[PStr "Peter"]; [PStr "Mayer"]])].
Proof.
  cbv zeta. split; [reflexivity|]. split; [reflexivity|].
  split; [reflexivity|]. split; [discriminate|].
  split; [reflexivity|]. reflexivity.
Qed.

(** C7, amended. For every create or update call whose rows all validate
    without errors and whose first row has at least one declared column,
    the columns of the first row are taken for the call: if some later row
    lacks one of them, the call raises the generic error of the columns
    before anything is sent to the engine (the driver and the connection
    are as before the call); if every later row has all of them, the rows
    are accepted, whatever further columns a later row has. *)
Theorem C7_same_columns :
  forall (rt : PyRuntime) (C : Type) (self : Table.Table C)
         (data : list (dict PyVal)) (v0 : dict PyVal)
         (vs : list (dict PyVal)),
    Forall2 (fun row v => Table._validate_data self row [] = Ok (v, []))
            data (v0 :: vs) ->
    dict_keys v0 <> [] ->
    (Exists (fun v => exists col,
                 In col (dict_keys v0) /\ dict_in col v = false) vs ->
     Table._split_col_value self data
     = Raise (Error "Data sets have not the same columns")
     /\ (forall cb d,
          Table.create self data cb d
          = (d, Raise (Error "Data sets have not the same columns")))
     /\ (forall where_ cb d,
          Table.update self data where_ cb d
          = (d, Raise (Error "Data sets have not the same columns"))))
    /\ (Forall (fun v => forall col,
                   In col (dict_keys v0) -> dict_in col v = true) vs ->
        exists values,
          Table._split_col_value self data
          = Ok (v0 :: vs, dict_keys v0, values)
          /\ List.length values = List.length data).
Proof.
  intros rt C self data v0 vs Hrows Hkeys.
  destruct (_split_col_value_clean self data v0 vs Hrows Hkeys)
    as [Hok Hfail].
  split.
  - intros Hex.
    assert (Hsplit : Table._split_col_value self data
                     = Raise Table.same_columns).
    { apply Hfail. eapply Exists_impl; [|exact Hex].
      intros v (col & Hcol & Hin). simpl.
      eapply forallb_false_intro; eauto. }
    split; [exact Hsplit|]. split.
    + intros cb d. unfold Table.create, bindM, lift. now rewrite Hsplit.
    + intros where_ cb d. unfold Table.update, bindM, lift.
      now rewrite Hsplit.
  - intros Hall. apply Hok. eapply Forall_impl; [|exact Hall].
    intros v Hv. simpl. now apply forallb_forall.
Qed.

Lemma C7_same_columns_witness :
  let data : list (dict PyVal) :=
    [[("name", PStr "Peter"); ("size", PStr "14.3")];
     [("name", PStr "Mayer")]] in
  let v0 : dict PyVal := [("name", PStr "Peter"); ("size", PStr "14.3")] in
  let vs : list (dict PyVal) := [[("name", PStr "Mayer")]] in
  Forall2 (fun row v =>
             Table._validate_data (rt := Engine.runtime) Engine.people row []
             = Ok (v, []))
          data (v0 :: vs)
  /\ dict_keys v0 <> []
  /\ Exists (fun v => exists col,
                 In col (dict_keys v0) /\ dict_in col v = false) vs
  /\ Table._split_col_value (rt := Engine.runtime) Engine.people data
     = Raise (Error "Data sets have not the same columns").
Proof.
  intros data v0 vs.
  assert (H0 : Forall2 (fun row v =>
             Table._validate_data (rt := Engine.runtime) Engine.people row []
             = Ok (v, []))
          data (v0 :: vs)) by (repeat constructor).
  assert (H1 : dict_keys v0 <> []) by discriminate.
  assert (H2 : Exists (fun v => exists col,
                 In col (dict_keys v0) /\ dict_in col v = false) vs).
  { left. exists "size". split; [right; left; reflexivity | reflexivity]. }
  split; [exact H0|]. split; [exact H1|]. split; [exact H2|].
  exact (proj1 (proj1 (C7_same_columns Engine.runtime Engine.Db Engine.people
                         data v0 vs H0 H1) H2)).
Defined.

(** [create] on the example engine: one row gives the id of the row, two
    rows give [None]. *)
Example create_one_row :
  snd (Table.create (rt := Engine.runtime) Engine.people
         [[("name", PStr "Peter"); ("size", PFloat "14.3")]] None
         (Driver.init Engine.empty 0))
  = Ok (Val (PInt 1)).
Proof. reflexivity. Qed.

Example create_two_rows :
  snd (Table.create (rt := Engine.runtime) Engine.people
         [[("name", PStr "Peter"); ("size", PFloat "14.3")];
          [("name", PStr "Mayer"); ("size", PFloat "16.3")]] None
         (Driver.init Engine.empty 0))
  = Ok (Val PNone).
Proof. reflexivity. Qed.

(** * Further properties *)

(** ** condition.py *)

(** X1. The outermost clause is the nested one after WHERE: for every
    condition but the bare [Condition] and a junction without children,
    [serialize] with [nested] false is [" WHERE "] followed by [serialize]
    with [nested] true; the bare [Condition] gives the empty text either
    way, and a junction without children gives the empty text outermost and
    ["()"] nested. *)
Theorem X1_serialize_outermost :
  forall (c : condition.Condition) (quote : option (string -> string))
         (placeholder : string),
    (c <> condition.Base ->
     (forall op, c <> condition.Junction op []) ->
     condition.serialize c false quote placeholder
     = " WHERE " ++ condition.serialize c true quote placeholder)
    /\ condition.serialize condition.Base false quote placeholder
       = EmptyString
    /\ condition.serialize condition.Base true quote placeholder
       = EmptyString
    /\ (forall op,
         condition.serialize (condition.Junction op []) false quote
                             placeholder = EmptyString
         /\ condition.serialize (condition.Junction op []) true quote
                                placeholder = "()").
Proof.
  intros c quote placeholder. split; [|repeat split].
  intros Hbase Hempty. destruct c as [|op cs|op col|op col value].
  - congruence.
  - destruct cs as [|c cs]; [now destruct (Hempty op)|]. reflexivity.
  - reflexivity.
  - reflexivity.
Qed.

Lemma X1_serialize_outermost_witness :
  condition.Null "a" <> condition.Base
  /\ (forall op, condition.Null "a" <> condition.Junction op [])
  /\ condition.serialize (condition.Null "a") false None "?"
     = " WHERE " ++ condition.serialize (condition.Null "a") true None "?".
Proof.
  assert (H0 : condition.Null "a" <> condition.Base) by discriminate.
  assert (H1 : forall op, condition.Null "a" <> condition.Junction op [])
    by discriminate.
  split; [exact H0|]. split; [exact H1|].
  exact (proj1 (X1_serialize_outermost (condition.Null "a") None "?") H0 H1).
Defined.

(** ** validate.py *)

Section ValidateMore.
Context {rt : PyRuntime}.

(** A validation function of the module leaves the errors as they are or
    files one under its column. *)
Lemma globals_errors (f col value : string) (errors : ErrorDict) func :
  validate.globals f = Some func ->
  snd (func col value errors) = errors
  \/ exists code, snd (func col value errors) = dict_set errors col code.
Proof.
  unfold validate.globals.
  repeat match goal with
         | |- context [String.eqb f ?s] =>
             destruct (String.eqb_spec f s) as [->|?]
         end; try discriminate; intros [= <-];
    unfold validate._v_datetime, validate._v_date, validate._v_int,
      validate._v_uint, validate._v_float, validate._v_ufloat,
      validate._v_text100, validate._v_bool;
    repeat match goal with
           | |- context [if ?b then _ else _] => destruct b
           end; simpl; eauto.
Qed.

Lemma dict_set_other (errors : ErrorDict) (col k code : string) :
  k <> col -> dict_get (dict_set errors col code) k = dict_get errors k.
Proof.
  intros Hk. rewrite dict_get_set.
  destruct (String.eqb_spec col k); [congruence | reflexivity].
Qed.

Lemma dict_set_kept (errors : ErrorDict) (col k code : string) :
  dict_get errors k <> None ->
  dict_get (dict_set errors col code) k <> None.
Proof.
  intros Hk. rewrite dict_get_set.
  destruct (String.eqb col k); [discriminate | exact Hk].
Qed.

Lemma formats_errors (col : string) (fmt : list string) :
  forall value errors value' errors',
    validate.formats col fmt value errors = Ok (value', errors') ->
    forall k,
      (k <> col -> dict_get errors' k = dict_get errors k)
      /\ (dict_get errors k <> None -> dict_get errors' k <> None).
Proof.
  induction fmt as [|f fmt IH]; intros value errors value' errors' H k;
    cbn [validate.formats] in H.
  - injection H as _ <-. auto.
  - destruct (str_in f ["not_empty"; "not_null"; "unique"; "text"]);
      [eauto|].
    destruct (startswith "r_" f).
    + destruct (re_compiles _); [|discriminate]. cbn [negb] in H.
      destruct (re_match _ value); [eauto|].
      destruct (IH _ _ _ _ H k) as [Ho Hk]. split.
      * intros Hne. rewrite (Ho Hne). now apply dict_set_other.
      * intros Hne. apply Hk. now apply dict_set_kept.
    + destruct (validate.globals f) as [func|] eqn:Hg; [|discriminate].
      pose proof (globals_errors f col value errors func Hg) as He.
      destruct (func col value errors) as [v1 e1]. simpl in He.
      destruct (IH _ _ _ _ H k) as [Ho Hk].
      destruct He as [->|[code ->]]; [auto|]. split.
      * intros Hne. rewrite (Ho Hne). now apply dict_set_other.
      * intros Hne. apply Hk. now apply dict_set_kept.
Qed.

(** When the loop over the formats returns, every format was known. *)
Lemma formats_known (col : string) (fmt : list string) :
  forall value errors r,
    validate.formats col fmt value errors = Ok r ->
    forall f, In f fmt -> known_format f = true.
Proof.
  induction fmt as [|f0 fmt IH]; intros value errors r H f Hf;
    cbn [validate.formats] in H; [inversion Hf|].
  unfold known_format.
  destruct (str_in f0 ["not_empty"; "not_null"; "unique"; "text"]) eqn:Hs.
  - destruct Hf as [<-|Hf]; [now rewrite Hs|]. eapply IH; eauto.
  - destruct (startswith "r_" f0) eqn:Hr.
    + destruct (re_compiles ("^(" ++ drop_str 2 f0 ++ ")$")) eqn:Hc;
        [|discriminate]. cbn [negb] in H.
      destruct Hf as [<-|Hf]; [now rewrite Hs, Hr, Hc|].
      destruct (re_match _ value); eapply IH; eauto.
    + destruct (validate.globals f0) as [func|] eqn:Hg; [|discriminate].
      destruct Hf as [<-|Hf]; [now rewrite Hs, Hr, Hg|].
      destruct (func col value errors). eapply IH; eauto.
Qed.

(** When the loop over the formats raises, it raises for the first format
    that is not known: [NotImplementedError] for a name without a
    validation function, [re.error] for an [r_] tag whose pattern does not
    compile. *)
Lemma formats_raise (col : string) (fmt : list string) :
  forall value errors e,
    validate.formats col fmt value errors = Raise e ->
    exists f,
      In f fmt
      /\ str_in f ["not_empty"; "not_null"; "unique"; "text"] = false
      /\ ((startswith "r_" f = false
           /\ validate.globals f = None
           /\ exists value', e = NotImplementedError f col value')
          \/ (startswith "r_" f = true
              /\ re_compiles ("^(" ++ drop_str 2 f ++ ")$") = false
              /\ e = ReError ("^(" ++ drop_str 2 f ++ ")$"))).
Proof.
  induction fmt as [|f0 fmt IH]; intros value errors e H;
    cbn [validate.formats] in H; [discriminate|].
  assert (Hrest : forall value errors,
             validate.formats col fmt value errors = Raise e ->
             exists f,
               In f (f0 :: fmt)
               /\ str_in f ["not_empty"; "not_null"; "unique"; "text"]
                  = false
               /\ ((startswith "r_" f = false
                    /\ validate.globals f = None
                    /\ exists value', e = NotImplementedError f col value')
                   \/ (startswith "r_" f = true
                       /\ re_compiles ("^(" ++ drop_str 2 f ++ ")$") = false
                       /\ e = ReError ("^(" ++ drop_str 2 f ++ ")$")))).
  { intros v1 e1 H1. destruct (IH v1 e1 e H1) as (f & Hin & Hrest).
    exists f. split; [now right | exact Hrest]. }
  destruct (str_in f0 ["not_empty"; "not_null"; "unique"; "text"]) eqn:Hs;
    [eauto|].
  destruct (startswith "r_" f0) eqn:Hr.
  - destruct (re_compiles ("^(" ++ drop_str 2 f0 ++ ")$")) eqn:Hc;
      cbn [negb] in H.
    + destruct (re_match _ value); eauto.
    + injection H as <-. exists f0. split; [now left|]. split; [exact Hs|].
      right. auto.
  - destruct (validate.globals f0) as [func|] eqn:Hg.
    + destruct (func col value errors). eauto.
    + injection H as <-. exists f0. split; [now left|]. split; [exact Hs|].
      left. eauto.
Qed.

End ValidateMore.

(** X2. [validate] files errors under its own column only: the error of
    every other column is after the call what it was before, and a column
    that had an error still has one. *)
Theorem X2_validate_errors_frame :
  forall (rt : PyRuntime) (col : string) (v : PyVal) (fmt : list string)
         (errors : ErrorDict) (r : PyVal) (errors' : ErrorDict),
    validate.validate col v fmt errors = Ok (r, errors') ->
    forall k,
      (k <> col -> dict_get errors' k = dict_get errors k)
      /\ (dict_get errors k <> None -> dict_get errors' k <> None).
Proof.
  intros rt col v fmt errors r errors' H k.
  assert (Hset : forall code,
             (k <> col ->
              dict_get (dict_set errors col code) k = dict_get errors k)
             /\ (dict_get errors k <> None ->
                 dict_get (dict_set errors col code) k <> None)).
  { intros code. split; [apply dict_set_other | apply dict_set_kept]. }
  assert (Hbody :
    v <> PNone ->
    (if str_in "not_empty" fmt && String.eqb (py_str v) EmptyString
     then Ok (PStr (py_str v), dict_set errors col "EMPTY_FIELD")
     else if negb (String.eqb (py_str v) EmptyString) then
       r <- validate.formats col fmt (py_str v) errors ;;
       Ok (PStr (fst r), snd r)
     else Ok (PStr (py_str v), errors)) = Ok (r, errors')).
  { intros Hv. destruct v; try exact H. congruence. }
  destruct v; try specialize (Hbody ltac:(discriminate));
    [simpl in H; destruct (str_in "not_null" fmt);
     injection H as _ <-; auto| | | | |];
    (destruct (str_in "not_empty" fmt && String.eqb _ EmptyString);
     [injection Hbody as _ <-; auto|];
     destruct (negb (String.eqb _ EmptyString));
     [|injection Hbody as _ <-; auto];
     destruct (validate.formats col fmt _ errors) as [[v1 e1]|e] eqn:Hf;
     simpl in Hbody; [|discriminate];
     injection Hbody as _ <-; eapply formats_errors; eauto).
Qed.

Lemma X2_validate_errors_frame_witness :
  validate.validate (rt := Engine.runtime) "size" (PStr "x") ["bool"]
                    [("name", "EMPTY_FIELD")]
  = Ok (PStr "x", [("name", "EMPTY_FIELD"); ("size", "INVALID_BOOL")])
  /\ ("name" <> "size" ->
      dict_get [("name", "EMPTY_FIELD"); ("size", "INVALID_BOOL")] "name"
      = dict_get [("name", "EMPTY_FIELD")] "name").
Proof.
  assert (H : validate.validate (rt := Engine.runtime) "size" (PStr "x")
                ["bool"] [("name", "EMPTY_FIELD")]
              = Ok (PStr "x",
                    [("name", "EMPTY_FIELD"); ("size", "INVALID_BOOL")]))
    by reflexivity.
  split; [exact H|].
  exact (proj1 (X2_validate_errors_frame Engine.runtime _ _ _ _ _ _ H
                  "name")).
Defined.

(** X3. [None] and the empty text are not checked against the formats:
    for [None], [validate] returns [None], with the error NONE_FIELD when
    the column is tagged not_null and with the errors unchanged otherwise;
    for a value whose text is empty it returns the empty text, with the
    error EMPTY_FIELD when the column is tagged not_empty and with the
    errors unchanged otherwise.  This holds whatever the other tags are, so
    a format that is not implemented does not raise for them. *)
Theorem X3_validate_none_and_empty :
  forall (rt : PyRuntime) (col : string) (fmt : list string)
         (errors : ErrorDict),
    validate.validate col PNone fmt errors
    = Ok (PNone, if str_in "not_null" fmt
                 then dict_set errors col "NONE_FIELD" else errors)
    /\ (forall v,
         v <> PNone ->
         py_str v = EmptyString ->
         validate.validate col v fmt errors
         = Ok (PStr EmptyString,
               if str_in "not_empty" fmt
               then dict_set errors col "EMPTY_FIELD" else errors)).
Proof.
  intros rt col fmt errors. split.
  - simpl. destruct (str_in "not_null" fmt); reflexivity.
  - intros v Hv Hempty.
    assert (Hbody :
      validate.validate col v fmt errors
      = (if str_in "not_empty" fmt && String.eqb (py_str v) EmptyString
         then Ok (PStr (py_str v), dict_set errors col "EMPTY_FIELD")
         else if negb (String.eqb (py_str v) EmptyString) then
           r <- validate.formats col fmt (py_str v) errors ;;
           Ok (PStr (fst r), snd r)
         else Ok (PStr (py_str v), errors))).
    { destruct v; try reflexivity. congruence. }
    rewrite Hbody, Hempty. simpl.
    destruct (str_in "not_empty" fmt); reflexivity.
Qed.

Lemma X3_validate_none_and_empty_witness :
  PStr EmptyString <> PNone
  /\ py_str (rt := Engine.runtime) (PStr EmptyString) = EmptyString
  /\ validate.validate (rt := Engine.runtime) "c" (PStr EmptyString)
                       ["no_such_format"] []
     = Ok (PStr EmptyString, []).
Proof.
  assert (H0 : PStr EmptyString <> PNone) by discriminate.
  split; [exact H0|]. split; [reflexivity|].
  exact (proj2 (X3_validate_none_and_empty Engine.runtime "c"
                  ["no_such_format"] []) (PStr EmptyString) H0 eq_refl).
Defined.



Section Revalidate.
Context {rt : PyRuntime}.

Local Abbreviation replace := (replace_char "," ".") (only parsing).
Local Abbreviation F := (Spec.normalize_tag "float") (only parsing).
Local Abbreviation B := (Spec.normalize_tag "bool") (only parsing).

Lemma F_eq (s : string) :
  F s = if endswith_char "." (replace s) then replace s ++ "0"
        else replace s.
Proof. reflexivity. Qed.

Lemma B_eq (s : string) :
  B s = if String.eqb (lower s) "true" || String.eqb s "1" then "1"
        else if String.eqb (lower s) "false" || String.eqb s "0" then "0"
        else s.
Proof. reflexivity. Qed.

Lemma replace_no_comma (s : string) : has_char "," (replace s) = false.
Proof.
  induction s as [|c s IH]; simpl; [reflexivity|].
  rewrite IH. destruct (Ascii.eqb_spec c ","); [reflexivity|].
  destruct (Ascii.eqb_spec c ","); [contradiction | reflexivity].
Qed.

Lemma replace_fixed (s : string) : has_char "," s = false -> replace s = s.
Proof.
  induction s as [|c s IH]; simpl; [reflexivity|].
  intros H. apply orb_false_elim in H as [Hc Hs].
  now rewrite Hc, IH.
Qed.

Lemma replace_dot (s : string) :
  has_char "." (replace s) = false -> has_char "," s = false.
Proof.
  induction s as [|c s IH]; simpl; [reflexivity|].
  destruct (Ascii.eqb_spec c ","); simpl; [discriminate|].
  intros H. apply orb_false_elim in H as [_ Hs]. auto.
Qed.

Lemma replace_app (a b : string) :
  replace (a ++ b) = replace a ++ replace b.
Proof. induction a as [|c a IH]; simpl; [reflexivity | now rewrite IH]. Qed.

Lemma has_char_app (c : ascii) (a b : string) :
  has_char c (a ++ b) = has_char c a || has_char c b.
Proof.
  induction a as [|x a IH]; simpl; [reflexivity|].
  now rewrite IH, orb_assoc.
Qed.

Lemma endswith_has (c : ascii) (s : string) :
  endswith_char c s = true -> has_char c s = true.
Proof.
  induction s as [|x s IH]; [discriminate|].
  destruct s as [|y s].
  - simpl. intros ->. reflexivity.
  - intros H. change (has_char c (String x (String y s)))
      with (Ascii.eqb x c || has_char c (String y s)).
    rewrite IH; [apply orb_true_r | exact H].
Qed.

Lemma endswith_app_zero (s : string) : endswith_char "." (s ++ "0") = false.
Proof.
  induction s as [|x s IH]; [reflexivity|].
  destruct s as [|y s]; [reflexivity|]. exact IH.
Qed.

Lemma F_idempotent (s : string) : F (F s) = F s.
Proof.
  rewrite (F_eq s).
  assert (Hr : replace (replace s) = replace s)
    by (apply replace_fixed, replace_no_comma).
  destruct (endswith_char "." (replace s)) eqn:E; rewrite F_eq.
  - rewrite replace_app, Hr. cbn [replace_char Ascii.eqb Bool.eqb].
    now rewrite endswith_app_zero.
  - now rewrite Hr, E.
Qed.

Lemma lower_ascii_keeps (c a : ascii) :
  a = "."%char \/ a = ","%char -> Ascii.eqb (lower_ascii c) a = Ascii.eqb c a.
Proof.
  intros [->| ->];
    destruct c as [[] [] [] [] [] [] [] []]; reflexivity.
Qed.

Lemma has_char_lower (a : ascii) (s : string) :
  a = "."%char \/ a = ","%char -> has_char a (lower s) = has_char a s.
Proof.
  intros Ha. induction s as [|c s IH]; simpl; [reflexivity|].
  now rewrite IH, lower_ascii_keeps.
Qed.

Lemma boolish_plain (s : string) (a : ascii) :
  a = "."%char \/ a = ","%char -> boolish s = true -> has_char a s = false.
Proof.
  intros Ha H. unfold boolish in H.
  repeat (apply orb_prop in H as [H|H]); apply String.eqb_eq in H.
  - rewrite <- (has_char_lower a s Ha), H. now destruct Ha as [->| ->].
  - subst. now destruct Ha as [->| ->].
  - rewrite <- (has_char_lower a s Ha), H. now destruct Ha as [->| ->].
  - subst. now destruct Ha as [->| ->].
Qed.

Lemma F_boolish (s : string) : boolish s = true -> F s = s.
Proof.
  intros H. rewrite F_eq.
  rewrite (replace_fixed s) by (apply boolish_plain; auto).
  destruct (endswith_char "." s) eqn:E; [|reflexivity].
  apply endswith_has in E.
  rewrite (boolish_plain s ".") in E by auto. discriminate.
Qed.

Lemma boolish_F (s : string) : boolish (F s) = true -> F s = s.
Proof.
  rewrite F_eq. destruct (endswith_char "." (replace s)) eqn:E; intros H.
  - apply boolish_plain with (a := "."%char) in H; [|auto].
    rewrite has_char_app, (endswith_has _ _ E) in H. discriminate.
  - apply replace_fixed, replace_dot. apply boolish_plain; auto.
Qed.

Lemma B_boolish (s : string) :
  boolish s = true -> B s = "1" \/ B s = "0".
Proof.
  unfold boolish. rewrite B_eq. intros H.
  destruct (String.eqb (lower s) "true" || String.eqb s "1"); [now left|].
  simpl in H. rewrite H. now right.
Qed.

Lemma B_other (s : string) : boolish s = false -> B s = s.
Proof.
  unfold boolish. rewrite B_eq. intros H.
  apply orb_false_elim in H as [-> ->]. reflexivity.
Qed.

Lemma B_F_commute (s : string) : B (F s) = F (B s).
Proof.
  destruct (boolish (F s)) eqn:E.
  - pose proof (boolish_F s E) as HF. rewrite HF in E |- *.
    destruct (B_boolish s E) as [-> | ->]; reflexivity.
  - rewrite (B_other _ E).
    destruct (boolish s) eqn:Es.
    + rewrite (F_boolish s Es) in E. congruence.
    + now rewrite (B_other s Es).
Qed.

Lemma B_idempotent (s : string) : B (B s) = B s.
Proof.
  destruct (boolish s) eqn:E.
  - destruct (B_boolish s E) as [-> | ->]; reflexivity.
  - now rewrite !(B_other s E).
Qed.

(** A tag acts on the text as bool does, as float does, or not at all. *)
Lemma normalize_tag_cases (f : string) :
  (forall s, Spec.normalize_tag f s = B s)
  \/ (forall s, Spec.normalize_tag f s = F s)
  \/ (forall s, Spec.normalize_tag f s = s).
Proof.
  unfold Spec.normalize_tag at 1 3 5.
  destruct (String.eqb_spec f "bool") as [->|Hb]; [now left|].
  destruct (String.eqb_spec f "float") as [->|Hf]; [right; now left|].
  destruct (String.eqb_spec f "ufloat") as [->|Hu]; [right; now left|].
  right. now right.
Qed.

Lemma normalize_tag_commute (f g : string) (s : string) :
  Spec.normalize_tag f (Spec.normalize_tag g s)
  = Spec.normalize_tag g (Spec.normalize_tag f s).
Proof.
  destruct (normalize_tag_cases f) as [Hf|[Hf|Hf]];
    destruct (normalize_tag_cases g) as [Hg|[Hg|Hg]];
    rewrite ?Hf, ?Hg, ?Hf, ?Hg; try reflexivity.
  - apply B_F_commute.
  - symmetry. apply B_F_commute.
Qed.

Lemma normalize_tag_idempotent (f : string) (s : string) :
  Spec.normalize_tag f (Spec.normalize_tag f s) = Spec.normalize_tag f s.
Proof.
  destruct (normalize_tag_cases f) as [Hf|[Hf|Hf]]; rewrite !Hf;
    [apply B_idempotent | apply F_idempotent | reflexivity].
Qed.

Lemma fold_tags_commute (fmt : list string) (f : string) :
  forall s,
    Spec.normalize_tag f (fold_left (fun s f => Spec.normalize_tag f s) fmt s)
    = fold_left (fun s f => Spec.normalize_tag f s) fmt
                (Spec.normalize_tag f s).
Proof.
  induction fmt as [|g fmt IH]; intros s; simpl; [reflexivity|].
  now rewrite IH, normalize_tag_commute.
Qed.

Lemma fold_tags_idempotent (fmt : list string) :
  forall s,
    fold_left (fun s f => Spec.normalize_tag f s) fmt
              (fold_left (fun s f => Spec.normalize_tag f s) fmt s)
    = fold_left (fun s f => Spec.normalize_tag f s) fmt s.
Proof.
  induction fmt as [|f fmt IH]; intros s; simpl; [reflexivity|].
  now rewrite fold_tags_commute, IH, normalize_tag_idempotent.
Qed.

Lemma normalize_idempotent (fmt : list string) (s : string) :
  Spec.normalize fmt (Spec.normalize fmt s) = Spec.normalize fmt s.
Proof.
  unfold Spec.normalize.
  destruct (String.eqb s EmptyString) eqn:E; [now rewrite E|].
  destruct (String.eqb (fold_left _ fmt s) EmptyString); [reflexivity|].
  apply fold_tags_idempotent.
Qed.

Lemma validate_total (col : string) (v : PyVal) (fmt : list string)
    (errors : ErrorDict) :
  (forall f, In f fmt -> known_format f = true) ->
  exists r errors', validate.validate col v fmt errors = Ok (r, errors').
Proof.
  intros Hknown. unfold validate.validate.
  assert (Hbody : exists r errors',
    (if str_in "not_empty" fmt && String.eqb (py_str v) EmptyString
     then Ok (PStr (py_str v), dict_set errors col "EMPTY_FIELD")
     else if negb (String.eqb (py_str v) EmptyString) then
       r <- validate.formats col fmt (py_str v) errors ;;
       Ok (PStr (fst r), snd r)
     else Ok (PStr (py_str v), errors)) = Ok (r, errors')).
  { destruct (str_in "not_empty" fmt && String.eqb (py_str v) EmptyString);
      [eauto|].
    destruct (negb (String.eqb (py_str v) EmptyString)); [|eauto].
    destruct (formats_total col fmt (py_str v) errors Hknown) as [r ->].
    simpl. eauto. }
  destruct v; try exact Hbody.
  destruct (str_in "not_null" fmt); eauto.
Qed.

End Revalidate.

(** X5. A validated value is stable: when [validate] returns the text [s]
    for a value that is not [None], then [validate] on [s], for the same
    column and formats and whatever errors are on file, returns [s]
    again. *)
Theorem X5_validate_twice :
  forall (rt : PyRuntime) (col : string) (v : PyVal) (fmt : list string)
         (errors errors1 errors2 : ErrorDict) (r : PyVal),
    v <> PNone ->
    validate.validate col v fmt errors = Ok (r, errors1) ->
    exists errors3,
      validate.validate col r fmt errors2 = Ok (r, errors3).
Proof.
  intros rt col v fmt errors errors1 errors2 r Hv H.
  pose proof (validate_not_none col v fmt errors r errors1 Hv H) as Hr.
  assert (Hagain : exists r' errors3,
             validate.validate col r fmt errors2 = Ok (r', errors3)).
  { assert (Hbody :
      (if str_in "not_empty" fmt && String.eqb (py_str v) EmptyString
       then Ok (PStr (py_str v), dict_set errors col "EMPTY_FIELD")
       else if negb (String.eqb (py_str v) EmptyString) then
         r <- validate.formats col fmt (py_str v) errors ;;
         Ok (PStr (fst r), snd r)
       else Ok (PStr (py_str v), errors)) = Ok (r, errors1)).
    { destruct v; try exact H. congruence. }
    destruct (String.eqb_spec (py_str v) EmptyString) as [E|E].
    - assert (r = PStr EmptyString) as ->.
      { rewrite Hr. unfold Spec.normalize. now rewrite E. }
      simpl. destruct (str_in "not_empty" fmt); simpl; eauto.
    - rewrite andb_false_r in Hbody. simpl in Hbody.
      destruct (validate.formats col fmt (py_str v) errors) as [r0|e] eqn:Hf;
        simpl in Hbody; [|discriminate].
      apply validate_total. eapply formats_known; eauto. }
  destruct Hagain as (r' & errors3 & Hagain). exists errors3.
  rewrite Hagain. do 2 f_equal.
  assert (Hne : r <> PNone) by (rewrite Hr; discriminate).
  rewrite (validate_not_none _ _ _ _ _ _ Hne Hagain).
  rewrite Hr. cbn [py_str]. now rewrite normalize_idempotent.
Qed.

Lemma X5_validate_twice_witness :
  PStr "4," <> PNone
  /\ validate.validate (rt := Engine.runtime) "size" (PStr "4,")
                       ["float"; "bool"] []
     = Ok (PStr "4.0", [("size", "INVALID_BOOL")])
  /\ exists errors3,
       validate.validate (rt := Engine.runtime) "size" (PStr "4.0")
                         ["float"; "bool"] []
       = Ok (PStr "4.0", errors3).
Proof.
  assert (H0 : PStr "4," <> PNone) by discriminate.
  assert (H1 : validate.validate (rt := Engine.runtime) "size" (PStr "4,")
                 ["float"; "bool"] []
               = Ok (PStr "4.0", [("size", "INVALID_BOOL")]))
    by reflexivity.
  split; [exact H0|]. split; [exact H1|].
  exact (X5_validate_twice Engine.runtime _ _ _ _ _ [] _ H0 H1).
Defined.

(** ** Table.py *)

Section TableMore.
Import condition Table.
Context {rt : PyRuntime} {C : Type}.

Lemma invalid_column_spec (self : Table C) (col : string) :
  TableOps.invalid_column self col = true
  <-> col <> "id" /\ dict_in col (columns self) = false.
Proof.
  unfold TableOps.invalid_column.
  destruct (String.eqb_spec col "id") as [->|Hne]; simpl.
  - split; [discriminate | intros [H _]; congruence].
  - destruct (dict_in col (columns self)); simpl;
      split; auto; intros [_ H]; discriminate.
Qed.

(** The loop of [_validate_where] stops at the first column that is neither
    [id] nor declared. *)
Lemma _validate_where_loop_find (self : Table C) (w : Condition)
    (cs : list string) :
  _validate_where_loop self w cs
  = match find (TableOps.invalid_column self) cs with
    | None => Ok tt
    | Some col =>
        Raise (ColumnError ("Invalid column '" ++ col ++
                            "' in condition '" ++ serialized self w ++ "'"))
    end.
Proof.
  induction cs as [|col cs IH]; [reflexivity|].
  cbn [_validate_where_loop find]. unfold TableOps.invalid_column.
  destruct (String.eqb col "id"); [exact IH|].
  destruct (dict_in col (columns self)); [exact IH | reflexivity].
Qed.

Lemma _split_col_value_nonempty (self : Table C) (data : list (dict PyVal))
    vd cs vals :
  _split_col_value self data = Ok (vd, cs, vals) -> vals <> [].
Proof.
  intros H. pose proof (_split_col_value_length self data vd cs vals H) as Hl.
  destruct data as [|row data]; [discriminate H|].
  destruct vals; [discriminate Hl | discriminate].
Qed.

Lemma _join_where_params_Base (self : Table C) (v0 : list PyVal)
    (vals : list (list PyVal)) :
  _join_where_params self (v0 :: vals) Base = Raise IndexError.
Proof. reflexivity. Qed.

Lemma dict_set_keys {V} (d : dict V) (k : string) (v : V) :
  dict_keys (dict_set d k v)
  = if dict_in k d then dict_keys d else (dict_keys d ++ [k])%list.
Proof.
  unfold dict_in, dict_keys.
  induction d as [|[k' v'] d IH]; [reflexivity|].
  cbn [dict_set dict_get]. destruct (String.eqb k' k); [reflexivity|].
  cbn [map fst]. rewrite IH.
  now destruct (dict_get d k).
Qed.

Lemma dict_in_keys {V} (d : dict V) (k : string) :
  dict_in k d = true <-> In k (dict_keys d).
Proof.
  split.
  - unfold dict_in. induction d as [|[k' v'] d IH]; [discriminate|].
    cbn [dict_get dict_keys map fst].
    destruct (String.eqb_spec k' k) as [->|Hne]; [now left|].
    intros H. right. now apply IH.
  - intros H. unfold dict_in.
    now destruct (dict_get_keys d k H) as [v ->].
Qed.

Lemma NoDup_snoc {A} (l : list A) (a : A) :
  NoDup l -> ~ In a l -> NoDup (l ++ [a]).
Proof.
  induction l as [|x l IH]; intros Hl Ha; simpl.
  - constructor; [intros [] | constructor].
  - inversion Hl as [|? ? Hx Hl']; subst. constructor.
    + rewrite in_app_iff. intros [H|[H|[]]]; [auto|].
      subst. apply Ha. now left.
    + apply IH; [exact Hl'|]. intros H. apply Ha. now right.
Qed.

Lemma dict_set_NoDup {V} (d : dict V) (k : string) (v : V) :
  NoDup (dict_keys d) -> NoDup (dict_keys (dict_set d k v)).
Proof.
  intros H. rewrite dict_set_keys. destruct (dict_in k d) eqn:E; [exact H|].
  apply NoDup_snoc; [exact H|]. intros Hin.
  apply dict_in_keys in Hin. congruence.
Qed.

(** The validated row has each of its columns once, and only declared
    ones. *)
Lemma _validate_data_loop_keys (self : Table C) (data : dict PyVal) :
  forall vd errs vd' errs',
    NoDup (dict_keys vd) ->
    (forall c, In c (dict_keys vd) -> dict_in c (columns self) = true) ->
    _validate_data_loop self data vd errs = Ok (vd', errs') ->
    NoDup (dict_keys vd')
    /\ (forall c, In c (dict_keys vd') -> dict_in c (columns self) = true).
Proof.
  induction data as [|[col value] data IH]; intros vd errs vd' errs' Hn Hd H.
  - injection H as <- <-. auto.
  - cbn [_validate_data_loop] in H.
    destruct (dict_get (columns self) col) as [fmt|] eqn:Hcol; [|eauto].
    destruct (validate.validate col value fmt errs) as [[r e]|e]; simpl in H;
      [|discriminate].
    apply IH in H; [exact H | now apply dict_set_NoDup |].
    intros c Hc. rewrite dict_set_keys in Hc.
    destruct (dict_in col vd); [auto|].
    apply in_app_iff in Hc as [Hc|[<-|[]]]; [auto|].
    unfold dict_in. now rewrite Hcol.
Qed.

Lemma mapM_length {A B} (f : A -> result B) (l : list A) (bs : list B) :
  mapM f l = Ok bs -> List.length bs = List.length l.
Proof.
  intros H. apply mapM_Forall2 in H. symmetry.
  exact (Forall2_length H).
Qed.

Lemma split_step_shape (self : Table C) (acc acc' : Split)
    (row : dict PyVal) :
  split_shape self acc -> split_step self acc row = Ok acc' ->
  split_shape self acc'.
Proof.
  intros (Hn & Hd & Hw & Hl). unfold split_step.
  destruct (_validate_data self row []) as [[v error]|e] eqn:Hv; simpl;
    [|discriminate].
  destruct error as [|x error]; [|intros [= <-]; repeat split; auto].
  destruct (_validate_data_loop_keys self row [] [] v [] (NoDup_nil _)
              (fun c (H : In c []) => match H with end) Hv) as [Hvn Hvd].
  destruct (Table.cols acc) as [|c0 cs0] eqn:Hc.
  - simpl. destruct (row_values (dict_keys v) v) as [vals|e] eqn:Hr; simpl;
      [|discriminate].
    intros [= <-]. unfold split_shape. cbn [Table.cols values validated].
    split; [exact Hvn|]. split; [exact Hvd|]. split.
    + apply Forall_app. split.
      * eapply Forall_impl; [|exact Hw]. intros r [H|H]; [|auto].
        right. now destruct r.
      * constructor; [|constructor]. left. exact (mapM_length _ _ _ Hr).
    + rewrite !length_app. simpl. lia.
  - destruct (check_cols_in (c0 :: cs0) v); simpl; [|discriminate].
    destruct (row_values (c0 :: cs0) v) as [vals|e] eqn:Hr; simpl;
      [|discriminate].
    intros [= <-]. unfold split_shape. cbn [Table.cols values validated].
    split; [exact Hn|]. split; [exact Hd|]. split.
    + apply Forall_app. split; [exact Hw|].
      constructor; [|constructor]. left. exact (mapM_length _ _ _ Hr).
    + rewrite !length_app. simpl. lia.
Qed.

Lemma split_loop_shape (self : Table C) (data : list (dict PyVal)) :
  forall acc acc',
    split_shape self acc -> split_loop self acc data = Ok acc' ->
    split_shape self acc'.
Proof.
  induction data as [|row data IH]; intros acc acc' Hs H; simpl in H.
  - now injection H as <-.
  - destruct (split_step self acc row) as [acc1|e] eqn:Hstep; simpl in H;
      [|discriminate].
    eapply IH; [|exact H]. eapply split_step_shape; eauto.
Qed.

Lemma nth_or_last_In (l : list (list PyVal)) (i : nat) (r : list PyVal) :
  nth_or_last l i = Ok r -> In r l.
Proof.
  unfold nth_or_last. destruct (i <? List.length l)%nat.
  - apply list_index_In.
  - apply list_last_In.
Qed.

Lemma mapM_In {A B} (f : A -> result B) (l : list A) (bs : list B) :
  mapM f l = Ok bs -> Forall (fun b => exists a, In a l /\ f a = Ok b) bs.
Proof.
  intros H. apply mapM_Forall2 in H.
  induction H as [|a b l bs Hab _ IH]; constructor.
  - exists a. split; [now left | exact Hab].
  - eapply Forall_impl; [|exact IH].
    intros b' (a' & Hin & Hf). exists a'. split; [now right | exact Hf].
Qed.

End TableMore.

(** X6. [_validate_where] accepts a condition exactly when every column
    it names, at any depth, is [id] or a declared column; otherwise it
    raises a [ColumnError] that names a column of the condition that is
    neither. *)
Theorem X6_validate_where :
  forall (C : Type) (self : Table.Table C) (w : condition.Condition),
    (Table._validate_where self w = Ok tt
     <-> forall col, In col (condition.cols w) ->
                     col = "id" \/ dict_in col (Table.columns self) = true)
    /\ (forall e,
         Table._validate_where self w = Raise e ->
         exists col,
           In col (condition.cols w)
           /\ col <> "id"
           /\ dict_in col (Table.columns self) = false
           /\ e = ColumnError ("Invalid column '" ++ col ++
                               "' in condition '" ++
                               Table.serialized self w ++ "'")).
Proof.
  intros C self w. unfold Table._validate_where.
  rewrite _validate_where_loop_find.
  destruct (find (TableOps.invalid_column self) (condition.cols w))
    as [col|] eqn:F.
  - apply find_some in F as [Hin Hinv].
    apply invalid_column_spec in Hinv as [Hid Hcol]. split.
    + split; [discriminate|]. intros H.
      destruct (H col Hin) as [Hc|Hc]; congruence.
    + intros e [= <-]. exists col. auto.
  - pose proof (find_none _ _ F) as Hnone. split; [|discriminate].
    split; [|reflexivity]. intros _ col Hin.
    specialize (Hnone col Hin). unfold TableOps.invalid_column in Hnone.
    destruct (String.eqb_spec col "id"); [now left|]. right.
    now destruct (dict_in col (Table.columns self)).
Qed.

(** X7. A condition that [_validate_where] rejects stops [count],
    [exists], [delete], [get] and [update] before anything is asked of the
    driver: the driver is left as it was.  [count], [exists], [delete] and
    [get] raise the [ColumnError] of [_validate_where]; [update] raises it
    unless the data is rejected first. *)
Theorem X7_rejected_condition_runs_nothing :
  forall (rt : PyRuntime) (C : Type) (self : Table.Table C)
         (w : condition.Condition) (e : exn) (d : Driver.Driver C),
    Table._validate_where self w = Raise e ->
    Table.count self w d = (d, Raise e)
    /\ TableOps.exists_ self w d = (d, Raise e)
    /\ TableOps.delete self w d = (d, Raise e)
    /\ (forall ret_ cols order distinct limit offset,
         TableOps.get self w ret_ cols order distinct limit offset d
         = (d, Raise e))
    /\ (forall data cb,
         exists e', Table.update self data w cb d = (d, Raise e')).
Proof.
  intros rt C self w e d H.
  assert (Hcount : Table.count self w d = (d, Raise e)).
  { unfold Table.count, bindM, lift. now rewrite H. }
  split; [exact Hcount|]. split; [|split; [|split]].
  - unfold TableOps.exists_, bindM. now rewrite Hcount.
  - unfold TableOps.delete, bindM, lift. now rewrite H.
  - intros. unfold TableOps.get, bindM, lift. now rewrite H.
  - intros data cb. unfold Table.update, bindM, lift.
    destruct (Table._split_col_value self data) as [[[vd cs] vals]|e'];
      [|eauto].
    unfold Table._join_where_params. rewrite H. simpl. eauto.
Qed.

Lemma X7_rejected_condition_runs_nothing_witness :
  let e := ColumnError ("Invalid column 'age' in condition ' WHERE "
                        ++ SqliteDriver.quote_name "age" ++ " = ?'") in
  let w := condition.Eq "age" (PInt 3) in
  let d := Driver.init Engine.empty 0 in
  Table._validate_where Engine.people w = Raise e
  /\ Table.count Engine.people w d = (d, Raise e).
Proof.
  intros e w d.
  assert (H0 : Table._validate_where Engine.people w = Raise e)
    by reflexivity.
  split; [exact H0|].
  exact (proj1 (X7_rejected_condition_runs_nothing Engine.runtime _
                  Engine.people w e d H0)).
Defined.

(** X8. [update] with the bare [Condition()] never reaches the driver: the
    parameters of [Condition()] are the empty list, so once the data is
    accepted [_join_where_params] asks for the last of no parameter sets
    and raises [IndexError]. *)
Theorem X8_update_bare_condition :
  forall (rt : PyRuntime) (C : Type) (self : Table.Table C)
         (data : list (dict PyVal)) (cb : option Table.Callback)
         (d : Driver.Driver C),
    exists e,
      Table.update self data condition.Base cb d = (d, Raise e)
      /\ (forall s, Table._split_col_value self data = Ok s ->
                    e = IndexError).
Proof.
  intros rt C self data cb d. unfold Table.update, bindM, lift.
  destruct (Table._split_col_value self data) as [[[vd cs] vals]|e] eqn:Hs.
  - exists IndexError. split; [|reflexivity].
    pose proof (_split_col_value_nonempty self data vd cs vals Hs) as Hne.
    destruct vals as [|v0 vals]; [congruence|].
    now rewrite _join_where_params_Base.
  - exists e. split; [reflexivity | discriminate].
Qed.

Section TableShape.
Import Table.
Context {rt : PyRuntime} {C : Type}.

Lemma _validate_data_loop_undeclared (self : Table C) (row : dict PyVal) :
  forall vd errs,
    (forall col v, In (col, v) row -> dict_in col (columns self) = false) ->
    _validate_data_loop self row vd errs = Ok (vd, errs).
Proof.
  induction row as [|[col v] row IH]; intros vd errs H; [reflexivity|].
  cbn [_validate_data_loop].
  pose proof (H col v (or_introl eq_refl)) as Hcol. unfold dict_in in Hcol.
  destruct (dict_get (columns self) col); [discriminate|].
  apply IH. intros col' v' Hin. apply (H col' v'). now right.
Qed.

Lemma split_loop_undeclared (self : Table C) (data : list (dict PyVal)) :
  forall acc,
    Table.cols acc = [] ->
    (forall row, In row data ->
       forall col v, In (col, v) row -> dict_in col (columns self) = false) ->
    split_loop self acc data
    = Ok {| validated := (validated acc ++ map (fun _ => []) data)%list;
            cols := [];
            values := (values acc ++ map (fun _ => []) data)%list;
            errors := (errors acc ++ map (fun _ => []) data)%list |}.
Proof.
  induction data as [|row data IH]; intros acc Hc H.
  - destruct acc as [vd cs vals es]. simpl in *. subst.
    now rewrite !app_nil_r.
  - cbn [split_loop]. unfold split_step, _validate_data.
    rewrite _validate_data_loop_undeclared
      by (intros col v; apply H; now left).
    cbn [bind fst snd]. rewrite Hc. cbn [bind dict_keys map row_values mapM].
    rewrite IH; [|reflexivity | intros r Hr; apply H; now right].
    cbn [validated Table.cols values errors map].
    now rewrite <- !app_assoc.
Qed.

Lemma validate_raise (col : string) (v : PyVal) (fmt : list string)
    (errs : ErrorDict) (e : exn) :
  validate.validate col v fmt errs = Raise e ->
  (exists f c x, e = NotImplementedError f c x)
  \/ exists pattern, e = ReError pattern.
Proof.
  unfold validate.validate. intros H.
  assert (Hbody :
    (if str_in "not_empty" fmt && String.eqb (py_str v) EmptyString
     then Ok (PStr (py_str v), dict_set errs col "EMPTY_FIELD")
     else if negb (String.eqb (py_str v) EmptyString) then
       r <- validate.formats col fmt (py_str v) errs ;;
       Ok (PStr (fst r), snd r)
     else Ok (PStr (py_str v), errs)) = Raise e).
  { destruct v; try exact H. now destruct (str_in "not_null" fmt). }
  destruct (str_in "not_empty" fmt && String.eqb (py_str v) EmptyString);
    [discriminate|].
  destruct (negb (String.eqb (py_str v) EmptyString)); [|discriminate].
  destruct (validate.formats col fmt (py_str v) errs) as [r|e'] eqn:Hf;
    simpl in Hbody; [discriminate|].
  injection Hbody as <-.
  destruct (formats_raise _ _ _ _ _ Hf)
    as (f & _ & _ & [(_ & _ & x & ->)|(_ & _ & ->)]); eauto.
Qed.

Lemma _validate_data_loop_raise (self : Table C) (row : dict PyVal) :
  forall vd errs e,
    _validate_data_loop self row vd errs = Raise e ->
    (exists f c x, e = NotImplementedError f c x)
    \/ exists pattern, e = ReError pattern.
Proof.
  induction row as [|[col v] row IH]; intros vd errs e H; [discriminate|].
  cbn [_validate_data_loop] in H.
  destruct (dict_get (columns self) col) as [fmt|]; [|eauto].
  destruct (validate.validate col v fmt errs) as [[r e']|e'] eqn:Hv;
    simpl in H; [eauto|].
  injection H as <-. eapply validate_raise; eauto.
Qed.

Lemma mapM_raise {A B} (f : A -> result B) (l : list A) (e : exn) :
  mapM f l = Raise e -> exists a, In a l /\ f a = Raise e.
Proof.
  induction l as [|a l IH]; [discriminate|]. cbn [mapM].
  destruct (f a) as [b|e'] eqn:Hf; simpl.
  - destruct (mapM f l) as [bs|e'']; simpl; [discriminate|].
    intros [= <-]. destruct (IH eq_refl) as (a' & Hin & Ha).
    exists a'. split; [now right | exact Ha].
  - intros [= <-]. exists a. split; [now left | exact Hf].
Qed.

(** The loop of [_split_col_value] does not raise a [ValidationError]
    itself. *)
Lemma split_step_raise (self : Table C) (acc : Split) (row : dict PyVal)
    (e : exn) :
  split_step self acc row = Raise e -> forall es, e <> ValidationError es.
Proof.
  unfold split_step, _validate_data. intros H es ->.
  destruct (_validate_data_loop self row [] []) as [[v error]|e] eqn:Hv;
    simpl in H.
  - destruct error; [|discriminate].
    assert (Hrow : forall cs, row_values cs v <> Raise (ValidationError es)).
    { intros cs Hr. apply mapM_raise in Hr as (c & _ & Hc).
      destruct (dict_get v c); discriminate. }
    destruct (Table.cols acc) as [|c0 cs0]; cbn [bind] in H.
    + destruct (row_values (dict_keys v) v) eqn:Hr; cbn [bind] in H;
        [discriminate|]. injection H as ->. eapply Hrow; eauto.
    + destruct (check_cols_in (c0 :: cs0) v) eqn:Hck; cbn [bind] in H.
      * destruct (row_values (c0 :: cs0) v) eqn:Hr; cbn [bind] in H;
          [discriminate|]. injection H as ->. eapply Hrow; eauto.
      * injection H as ->. rewrite check_cols_in_forallb in Hck.
        destruct (forallb _ (c0 :: cs0)); discriminate.
  - injection H as ->.
    destruct (_validate_data_loop_raise _ _ _ _ _ Hv)
      as [(f & c & x & Hx)|(pattern & Hx)]; discriminate.
Qed.

Lemma split_loop_raise (self : Table C) (data : list (dict PyVal)) :
  forall acc e,
    split_loop self acc data = Raise e -> forall es, e <> ValidationError es.
Proof.
  induction data as [|row data IH]; intros acc e H; [discriminate|].
  cbn [split_loop] in H.
  destruct (split_step self acc row) as [acc1|e'] eqn:Hstep; simpl in H.
  - eapply IH; eauto.
  - injection H as <-. eapply split_step_raise; eauto.
Qed.

End TableShape.

(** A data row without any declared column ahead of a row with one:
    the columns are those of the second row, and the first row has no
    value for them. *)
Example split_row_without_columns :
  Table._split_col_value (rt := Engine.runtime) Engine.people
    [[("age", PInt 3)]; [("name", PStr "Ann")]]
  = Ok ([[]; [("name", PStr "Ann")]], ["name"], [[]; [PStr "Ann"]]).
Proof. reflexivity. Qed.

(** X9. What [_split_col_value] returns: at least one column, every
    column once and every column a declared one; one validated row and one
    row of values for each data row; and every row of values has one value
    for each column, or none at all (a row of values without any value
    comes from a data row without declared columns that stands ahead of the
    row the columns are taken from). *)
Theorem X9_split_col_value_shape :
  forall (rt : PyRuntime) (C : Type) (self : Table.Table C)
         (data validated : list (dict PyVal)) (cols : list string)
         (values : list (list PyVal)),
    Table._split_col_value self data = Ok (validated, cols, values) ->
    cols <> []
    /\ NoDup cols
    /\ (forall c, In c cols -> dict_in c (Table.columns self) = true)
    /\ List.length validated = List.length data
    /\ List.length values = List.length data
    /\ Forall (fun row => List.length row = List.length cols \/ row = [])
              values.
Proof.
  intros rt C self data validated cols values H.
  pose proof (_split_col_value_length self data _ _ _ H) as Hlen.
  unfold Table._split_col_value in H.
  destruct (Table.split_loop self _ data) as [acc|e] eqn:Hloop; simpl in H;
    [|discriminate].
  destruct (Table.any_errors (Table.errors acc)); [discriminate|].
  assert (Hshape : split_shape self acc).
  { eapply split_loop_shape; [|exact Hloop].
    split; [apply NoDup_nil|]. split; [intros c []|].
    split; [constructor | reflexivity]. }
  destruct Hshape as (Hn & Hd & Hw & Hl).
  destruct (Table.cols acc) as [|c0 cs0] eqn:Hc; [discriminate|].
  injection H as <- <- <-.
  split; [discriminate|]. repeat split; auto. congruence.
Qed.

Lemma X9_split_col_value_shape_witness :
  Table._split_col_value (rt := Engine.runtime) Engine.people
    [[("name", PStr "Ann"); ("size", PStr "1,5")]]
  = Ok ([[("name", PStr "Ann"); ("size", PStr "1.5")]], ["name"; "size"],
        [[PStr "Ann"; PStr "1.5"]])
  /\ NoDup ["name"; "size"].
Proof.
  assert (H0 : Table._split_col_value (rt := Engine.runtime) Engine.people
                 [[("name", PStr "Ann"); ("size", PStr "1,5")]]
               = Ok ([[("name", PStr "Ann"); ("size", PStr "1.5")]],
                     ["name"; "size"], [[PStr "Ann"; PStr "1.5"]]))
    by reflexivity.
  split; [exact H0|].
  exact (proj1 (proj2 (X9_split_col_value_shape Engine.runtime _
                         Engine.people _ _ _ _ H0))).
Defined.

(** X10. The parameter rows [_join_where_params] gives to [update]: as
    many as the larger of the number of rows of values and the number of
    parameter sets of the condition, and each as long as a row of values
    and the placeholders of the serialized condition together. *)
Theorem X10_join_where_params_rows :
  forall (C : Type) (self : Table.Table C) (values : list (list PyVal))
         (w : condition.Condition) (rows pw : list (list PyVal)) (n : nat)
         (quote : option (string -> string)),
    Table._join_where_params self values w = Ok rows ->
    condition.params w = Ok pw ->
    Forall (fun r => List.length r = n) values ->
    List.length rows = Nat.max (List.length values) (List.length pw)
    /\ Forall (fun row =>
                 List.length row
                 = (n + condition.placeholders
                          (condition.pieces w false quote))%nat) rows.
Proof.
  intros C self values w rows pw n quote H Hp Hn.
  unfold Table._join_where_params in H.
  destruct (Table._validate_where self w); simpl in H; [|discriminate].
  rewrite Hp in H. simpl in H. split.
  - rewrite (mapM_length _ _ _ H). apply length_seq.
  - pose proof (params_width w false quote pw Hp) as Hw.
    rewrite Forall_forall in Hn, Hw.
    eapply Forall_impl; [|exact (mapM_In _ _ _ H)].
    intros row (i & _ & Hi).
    destruct (Table.nth_or_last values i) as [v1|] eqn:H1; simpl in Hi;
      [|discriminate].
    destruct (Table.nth_or_last pw i) as [v2|] eqn:H2; simpl in Hi;
      [|discriminate].
    injection Hi as <-. rewrite length_app.
    apply nth_or_last_In in H1, H2. now rewrite (Hn _ H1), (Hw _ H2).
Qed.

Lemma X10_join_where_params_rows_witness :
  Table._join_where_params Engine.people [[PStr "Ann"]]
    (condition.Eq "id" (PList [PInt 3; PInt 4]))
  = Ok [[PStr "Ann"; PInt 3]; [PStr "Ann"; PInt 4]]
  /\ condition.params (condition.Eq "id" (PList [PInt 3; PInt 4]))
     = Ok [[PInt 3]; [PInt 4]]
  /\ Forall (fun r => List.length r = 1%nat) [[PStr "Ann"]]
  /\ List.length [[PStr "Ann"; PInt 3]; [PStr "Ann"; PInt 4]]
     = Nat.max (List.length [[PStr "Ann"]])
               (List.length [[PInt 3]; [PInt 4]]).
Proof.
  assert (H0 : Table._join_where_params Engine.people [[PStr "Ann"]]
                 (condition.Eq "id" (PList [PInt 3; PInt 4]))
               = Ok [[PStr "Ann"; PInt 3]; [PStr "Ann"; PInt 4]])
    by reflexivity.
  assert (H1 : condition.params (condition.Eq "id" (PList [PInt 3; PInt 4]))
               = Ok [[PInt 3]; [PInt 4]]) by reflexivity.
  assert (H2 : Forall (fun r => List.length r = 1%nat) [[PStr "Ann"]])
    by (constructor; [reflexivity | constructor]).
  split; [exact H0|]. split; [exact H1|]. split; [exact H2|].
  exact (proj1 (X10_join_where_params_rows _ Engine.people _ _ _ _ 1%nat
                  None H0 H1 H2)).
Defined.

(** X12. Data without any declared column is refused before the driver is
    asked anything: when no column of any data row is a declared column
    (the empty list of rows included), [create] and [update] raise
    [Error] with the text [No valid columns available] and leave the driver
    as it was. *)
Theorem X12_no_valid_columns :
  forall (rt : PyRuntime) (C : Type) (self : Table.Table C)
         (data : list (dict PyVal)) (cb : option Table.Callback)
         (d : Driver.Driver C),
    (forall row, In row data ->
       forall col v, In (col, v) row ->
                     dict_in col (Table.columns self) = false) ->
    Table.create self data cb d
    = (d, Raise (Error "No valid columns available"))
    /\ forall w,
         Table.update self data w cb d
         = (d, Raise (Error "No valid columns available")).
Proof.
  intros rt C self data cb d H.
  assert (Hs : Table._split_col_value self data
               = Raise (Error "No valid columns available")).
  { unfold Table._split_col_value.
    rewrite split_loop_undeclared by auto. cbn [bind Table.errors app].
    unfold Table.any_errors. now rewrite forallb_map_nil. }
  split; [|intros w].
  - unfold Table.create, bindM, lift. now rewrite Hs.
  - unfold Table.update, bindM, lift. now rewrite Hs.
Qed.

Lemma X12_no_valid_columns_witness :
  (forall row, In row [[("age", PInt 3)]] ->
     forall col v, In (col, v) row ->
                   dict_in col (Table.columns Engine.people) = false)
  /\ Table.create (rt := Engine.runtime) Engine.people [[("age", PInt 3)]]
       None (Driver.init Engine.empty 0)
     = (Driver.init Engine.empty 0,
        Raise (Error "No valid columns available")).
Proof.
  assert (H0 : forall row, In row [[("age", PInt 3)]] ->
     forall col v, In (col, v) row ->
                   dict_in col (Table.columns Engine.people) = false).
  { intros row [<-|[]] col v [[= <- <-]|[]]. reflexivity. }
  split; [exact H0|].
  exact (proj1 (X12_no_valid_columns Engine.runtime _ Engine.people _ None
                  (Driver.init Engine.empty 0) H0)).
Defined.

(** X13. The [ValidationError] of [_split_col_value] holds one error
    mapping for each data row, in the order of the rows, and at least one
    of them is not empty; [create] and [update] raise it with the driver
    left as it was. *)
Theorem X13_validation_error_per_row :
  forall (rt : PyRuntime) (C : Type) (self : Table.Table C)
         (data : list (dict PyVal)) (es : list ErrorDict),
    Table._split_col_value self data = Raise (ValidationError es) ->
    List.length es = List.length data
    /\ Exists (fun e => e <> []) es
    /\ forall cb d,
         Table.create self data cb d = (d, Raise (ValidationError es))
         /\ forall w,
              Table.update self data w cb d
              = (d, Raise (ValidationError es)).
Proof.
  intros rt C self data es H. split; [|split].
  - unfold Table._split_col_value in H.
    destruct (Table.split_loop self _ data) as [acc|e] eqn:Hloop;
      simpl in H.
    + destruct (Table.any_errors (Table.errors acc)).
      * injection H as <-.
        destruct (split_loop_lengths self data _ acc Hloop)
          as (es & Hes & Hn & _).
        rewrite Hes. exact Hn.
      * destruct (Table.cols acc); discriminate.
    + injection H as ->. now apply split_loop_raise with (es := es) in Hloop.
  - unfold Table._split_col_value in H.
    destruct (Table.split_loop self _ data) as [acc|e] eqn:Hloop;
      simpl in H.
    + destruct (Table.any_errors (Table.errors acc)) eqn:Hany.
      * injection H as <-. unfold Table.any_errors in Hany.
        apply negb_true_iff, forallb_false_Exists in Hany.
        eapply Exists_impl; [|exact Hany].
        intros e He ->. discriminate.
      * destruct (Table.cols acc); discriminate.
    + injection H as ->. now apply split_loop_raise with (es := es) in Hloop.
  - intros cb d. split; [|intros w].
    + unfold Table.create, bindM, lift. now rewrite H.
    + unfold Table.update, bindM, lift. now rewrite H.
Qed.

Lemma X13_validation_error_per_row_witness :
  Table._split_col_value (rt := Engine.runtime) Engine.people
    [[("name", PStr "Ann")]; [("name", PStr EmptyString)]]
  = Raise (ValidationError [[]; [("name", "EMPTY_FIELD")]])
  /\ List.length [[]; [("name", "EMPTY_FIELD")]]
     = List.length [[("name", PStr "Ann")]; [("name", PStr EmptyString)]].
Proof.
  assert (H0 : Table._split_col_value (rt := Engine.runtime) Engine.people
                 [[("name", PStr "Ann")]; [("name", PStr EmptyString)]]
               = Raise (ValidationError [[]; [("name", "EMPTY_FIELD")]]))
    by reflexivity.
  split; [exact H0|].
  exact (proj1 (X13_validation_error_per_row Engine.runtime _ Engine.people
                  _ _ H0)).
Defined.

Section SqliteCalls.
Import Driver Table.
Context {rt : PyRuntime} {C : Type} {conn : Connection C}.

Lemma only_executes_lift {A} (r : result A) :
  only_executes (C := C) (lift r).
Proof. intros d. exists []. simpl. now rewrite app_nil_r. Qed.

Lemma only_executes_ret {A} (a : A) : only_executes (C := C) (ret a).
Proof. apply (only_executes_lift (Ok a)). Qed.

Lemma only_executes_raise {A} (e : exn) :
  only_executes (C := C) (A := A) (raise e).
Proof. apply (only_executes_lift (Raise e)). Qed.

Lemma only_executes_bind {A B} (m : M C A) (k : A -> M C B) :
  only_executes m -> (forall a, only_executes (k a)) ->
  only_executes (bindM m k).
Proof.
  intros Hm Hk d. unfold bindM. destruct (Hm d) as (l & Hl & Hx).
  destruct (m d) as [d1 [a|e]]; simpl in Hl.
  - destruct (Hk a d1) as (l' & Hl' & Hx'). exists (l ++ l')%list.
    split; [now rewrite Hl', Hl, app_assoc | now apply Forall_app].
  - exists l. auto.
Qed.

(** [execute] of the SQLite driver makes one call on the connection, with
    the statement and the parameter sets it was given. *)
Lemma sqlite_execute_calls (sql : string) (params : list (list PyVal))
    (ret_ : string) (d : Driver C) :
  calls (fst (SqliteDriver.execute sql params ret_ d))
  = (calls d ++ [(clock d,
                  CallExecute sql match params with
                                  | [] => [[]]
                                  | _ => params
                                  end)])%list.
Proof.
  unfold SqliteDriver.execute, call_execute, call_executemany.
  destruct params as [|p [|p' ps]].
  - destruct (cursor_execute (con d) sql []) as [c [e|cur]]; reflexivity.
  - destruct (cursor_execute (con d) sql p) as [c [e|cur]]; reflexivity.
  - destruct (cursor_executemany (con d) sql (p :: p' :: ps)) as [c [e|]];
      reflexivity.
Qed.

Lemma sqlite_execute_only_executes sql params ret_ :
  only_executes (SqliteDriver.execute sql params ret_).
Proof.
  intros d. eexists. split; [apply sqlite_execute_calls|].
  constructor; [exact I | constructor].
Qed.

Lemma count_only_executes (self : Table C) (w : condition.Condition) :
  dbh self = SqliteDriver.dbh -> only_executes (count self w).
Proof.
  intros Hdbh. unfold count.
  apply only_executes_bind; [apply only_executes_lift | intros _].
  apply only_executes_bind; [apply only_executes_lift | intros ps].
  rewrite Hdbh. apply sqlite_execute_only_executes.
Qed.

Lemma unique_loop_only_executes (self : Table C) (row : dict PyVal)
    (cs : dict (list string)) :
  dbh self = SqliteDriver.dbh ->
  forall e, only_executes (unique_loop self row cs e).
Proof.
  intros Hdbh. induction cs as [|[col fmt] cs IH]; intros e.
  - apply only_executes_ret.
  - cbn [unique_loop].
    destruct (if str_in "unique" fmt then dict_get row col else None);
      [|apply IH].
    apply only_executes_bind; [now apply count_only_executes | intros n].
    apply only_executes_bind; [apply only_executes_lift | intros many].
    apply IH.
Qed.

Lemma _validate2_only_executes (self : Table C) (data : list (dict PyVal))
    (cb : option Callback) :
  dbh self = SqliteDriver.dbh -> only_executes (_validate2 self data cb).
Proof.
  intros Hdbh. unfold _validate2. apply only_executes_bind.
  - induction data as [|row data IH]; [apply only_executes_ret|].
    cbn [_validate2_loop].
    apply only_executes_bind;
      [now apply unique_loop_only_executes | intros e].
    apply only_executes_bind; [exact IH | intros es].
    apply only_executes_ret.
  - intros errors. destruct (any_errors errors).
    + apply only_executes_raise.
    + destruct cb as [cb|]; [|apply only_executes_ret].
      destruct (any_errors (cb data errors));
        [apply only_executes_raise | apply only_executes_ret].
Qed.

Lemma create_only_executes (self : Table C) (data : list (dict PyVal))
    (cb : option Callback) :
  dbh self = SqliteDriver.dbh -> only_executes (create self data cb).
Proof.
  intros Hdbh. unfold create.
  apply only_executes_bind; [apply only_executes_lift|].
  intros [[validated cols] values].
  apply only_executes_bind;
    [rewrite Hdbh; apply sqlite_execute_only_executes | intros ids].
  apply only_executes_bind;
    [now apply _validate2_only_executes | intros _].
  apply only_executes_ret.
Qed.

Lemma update_only_executes (self : Table C) (data : list (dict PyVal))
    (w : condition.Condition) (cb : option Callback) :
  dbh self = SqliteDriver.dbh -> only_executes (update self data w cb).
Proof.
  intros Hdbh. unfold update.
  apply only_executes_bind; [apply only_executes_lift|].
  intros [[validated cols] values].
  apply only_executes_bind; [apply only_executes_lift | intros rows].
  apply only_executes_bind;
    [rewrite Hdbh; apply sqlite_execute_only_executes | intros _].
  now apply _validate2_only_executes.
Qed.

End SqliteCalls.

(** X11. [create] on the SQLite driver inserts before it checks for
    duplicates: once the data is accepted, the first call [create] makes on
    the connection is the INSERT with all rows of values, whatever
    [_validate2] and the callback find afterwards, and every call after it
    runs a statement; so a [ValidationError] for a value that is not
    unique is raised with the rows inserted, and [create] itself rolls
    nothing back. *)
Theorem X11_create_inserts_first :
  forall (rt : PyRuntime) (C : Type) (conn : Connection C)
         (self : Table.Table C) (data : list (dict PyVal))
         (cb : option Table.Callback) (d : Driver.Driver C)
         (validated : list (dict PyVal)) (cols : list string)
         (values : list (list PyVal)),
    Table.dbh self = SqliteDriver.dbh ->
    Table._split_col_value self data = Ok (validated, cols, values) ->
    exists rest,
      Driver.calls (fst (Table.create self data cb d))
      = (Driver.calls d
         ++ (Driver.clock d, CallExecute (Table.insert_sql self cols) values)
            :: rest)%list
      /\ Forall is_execute rest.
Proof.
  intros rt C conn self data cb d validated cols values Hdbh Hs.
  pose proof (_split_col_value_nonempty self data _ _ _ Hs) as Hne.
  unfold Table.create, bindM at 1, lift. rewrite Hs, Hdbh.
  cbn [dbh_execute SqliteDriver.dbh]. unfold bindM at 1.
  pose proof (sqlite_execute_calls (Table.insert_sql self cols) values "id" d)
    as Hcalls.
  replace (match values with [] => [[]] | _ => values end) with values
    in Hcalls by (now destruct values).
  destruct (SqliteDriver.execute (Table.insert_sql self cols) values "id" d)
    as [d1 [ids|e]]; simpl in Hcalls.
  - destruct (_validate2_only_executes self validated cb Hdbh d1)
      as (l & Hl & Hx).
    unfold bindM.
    destruct (Table._validate2 self validated cb d1) as [d2 [u|e]];
      simpl in Hl |- *; exists l; (split; [|exact Hx]);
      now rewrite Hl, Hcalls, <- app_assoc.
  - exists []. split; [exact Hcalls | constructor].
Qed.

Lemma X11_create_inserts_first_witness :
  let data := [[("name", PStr "Ann"); ("size", PStr "1,5")]] in
  let d := Driver.init Engine.empty 0 in
  Table.dbh Engine.people = SqliteDriver.dbh (conn := Engine.sqlite)
  /\ Table._split_col_value (rt := Engine.runtime) Engine.people data
     = Ok ([[("name", PStr "Ann"); ("size", PStr "1.5")]], ["name"; "size"],
           [[PStr "Ann"; PStr "1.5"]])
  /\ exists rest,
       Driver.calls (fst (Table.create (rt := Engine.runtime) Engine.people
                            data None d))
       = (Driver.calls d
          ++ (Driver.clock d,
              CallExecute (Table.insert_sql Engine.people ["name"; "size"])
                          [[PStr "Ann"; PStr "1.5"]]) :: rest)%list
       /\ Forall is_execute rest.
Proof.
  intros data d.
  assert (H0 : Table.dbh Engine.people
               = SqliteDriver.dbh (conn := Engine.sqlite)) by reflexivity.
  assert (H1 : Table._split_col_value (rt := Engine.runtime) Engine.people
                 data
               = Ok ([[("name", PStr "Ann"); ("size", PStr "1.5")]],
                     ["name"; "size"], [[PStr "Ann"; PStr "1.5"]]))
    by reflexivity.
  split; [exact H0|]. split; [exact H1|].
  exact (X11_create_inserts_first Engine.runtime _ Engine.sqlite
           Engine.people data None d _ _ _ H0 H1).
Defined.

(** X14. On the SQLite driver the methods of [Table] run statements and
    nothing else: [count], [exists], [delete], [get], [create] and [update]
    leave the calls made so far as they are, and every call they make on
    the connection runs a statement; none starts, commits or rolls back a
    transaction. *)
Theorem X14_table_methods_only_execute :
  forall (rt : PyRuntime) (C : Type) (conn : Connection C)
         (self : Table.Table C),
    Table.dbh self = SqliteDriver.dbh ->
    (forall w, only_executes (Table.count self w))
    /\ (forall w, only_executes (TableOps.exists_ self w))
    /\ (forall w, only_executes (TableOps.delete self w))
    /\ (forall w ret_ cols order distinct limit offset,
         only_executes
           (TableOps.get self w ret_ cols order distinct limit offset))
    /\ (forall data cb, only_executes (Table.create self data cb))
    /\ (forall data w cb, only_executes (Table.update self data w cb)).
Proof.
  intros rt C conn self Hdbh. repeat split.
  - intros w. now apply count_only_executes.
  - intros w. unfold TableOps.exists_.
    apply only_executes_bind; [now apply count_only_executes | intros n].
    apply only_executes_lift.
  - intros w. unfold TableOps.delete.
    apply only_executes_bind; [apply only_executes_lift | intros _].
    apply only_executes_bind; [apply only_executes_lift | intros ps].
    apply only_executes_bind;
      [rewrite Hdbh; apply sqlite_execute_only_executes | intros _].
    apply only_executes_ret.
  - intros w ret_ cols order distinct limit offset. unfold TableOps.get.
    apply only_executes_bind; [apply only_executes_lift | intros _].
    apply only_executes_bind; [apply only_executes_lift | intros cs].
    apply only_executes_bind; [apply only_executes_lift | intros os].
    apply only_executes_bind; [apply only_executes_lift | intros ps].
    rewrite Hdbh. apply sqlite_execute_only_executes.
  - intros data cb. now apply create_only_executes.
  - intros data w cb. now apply update_only_executes.
Qed.

Lemma X14_table_methods_only_execute_witness :
  Table.dbh Engine.people = SqliteDriver.dbh (conn := Engine.sqlite)
  /\ forall w : condition.Condition,
       only_executes (Table.count Engine.people w).
Proof.
  assert (H0 : Table.dbh Engine.people
               = SqliteDriver.dbh (conn := Engine.sqlite)) by reflexivity.
  split; [exact H0|].
  exact (proj1 (X14_table_methods_only_execute Engine.runtime _
                  Engine.sqlite Engine.people H0)).
Defined.

Section GetFacts.
Import Table.
Context {rt : PyRuntime} {C : Type}.

Lemma get_cols_Ok (self : Table C) (l l' : list string) :
  TableOps.get_cols self l = Ok l' ->
  Forall (fun c => TableOps.invalid_column self c = false) l
  /\ l' = map (dbh_quote_name (dbh self)) l.
Proof.
  revert l'. induction l as [|c l IH]; intros l' H.
  - injection H as <-. split; [constructor | reflexivity].
  - cbn [TableOps.get_cols] in H.
    destruct (TableOps.invalid_column self c) eqn:Hc; [discriminate|].
    destruct (TableOps.get_cols self l) as [rest|e]; simpl in H;
      [|discriminate].
    injection H as <-. destruct (IH rest eq_refl) as [Hl ->].
    split; [now constructor | reflexivity].
Qed.

Lemma get_cols_Raise (self : Table C) (l : list string) (e : exn) :
  TableOps.get_cols self l = Raise e -> exists msg, e = ColumnError msg.
Proof.
  induction l as [|c l IH]; [discriminate|]. cbn [TableOps.get_cols].
  destruct (TableOps.invalid_column self c); [intros [= <-]; eauto|].
  destruct (TableOps.get_cols self l) as [rest|e']; simpl; [discriminate|].
  intros [= <-]. now apply IH.
Qed.

Lemma get_order_Ok (self : Table C) (o : dict string) (l : list string) :
  TableOps.get_order self o = Ok l ->
  Forall (fun x => TableOps.invalid_column self (fst x) = false
                   /\ str_in (str_upper (snd x)) ["ASC"; "DESC"] = true) o
  /\ l = map (fun x => dbh_quote_name (dbh self) (fst x) ++ " " ++ snd x) o.
Proof.
  revert l. induction o as [|[c dir] o IH]; intros l H.
  - injection H as <-. split; [constructor | reflexivity].
  - cbn [TableOps.get_order] in H.
    destruct (TableOps.invalid_column self c) eqn:Hc; [discriminate|].
    destruct (str_in (str_upper dir) ["ASC"; "DESC"]) eqn:Hd; simpl in H;
      [|discriminate].
    destruct (TableOps.get_order self o) as [rest|e]; simpl in H;
      [|discriminate].
    injection H as <-. destruct (IH rest eq_refl) as [Ho ->].
    split; [constructor; auto | reflexivity].
Qed.

Lemma get_order_Raise (self : Table C) (o : dict string) (e : exn) :
  TableOps.get_order self o = Raise e ->
  exists msg, e = ColumnError msg \/ e = Error msg.
Proof.
  induction o as [|[c dir] o IH]; [discriminate|]. cbn [TableOps.get_order].
  destruct (TableOps.invalid_column self c); [intros [= <-]; eauto|].
  destruct (str_in (str_upper dir) ["ASC"; "DESC"]); simpl;
    [|intros [= <-]; eauto].
  destruct (TableOps.get_order self o) as [rest|e']; simpl; [discriminate|].
  intros [= <-]. now apply IH.
Qed.

Lemma str_in_values_In (col : string) (cols : list PyVal) :
  TableOps.str_in_values col cols = true <-> In (PStr col) cols.
Proof.
  unfold TableOps.str_in_values. rewrite existsb_exists. split.
  - intros (v & Hin & Hv). destruct v; try discriminate.
    apply String.eqb_eq in Hv. now subst.
  - intros H. exists (PStr col). split; [exact H | apply String.eqb_refl].
Qed.

Lemma _validate_where_cases (self : Table C) (w : condition.Condition) :
  (_validate_where self w = Ok tt
   /\ Forall (fun c => TableOps.invalid_column self c = false)
             (condition.cols w))
  \/ exists msg, _validate_where self w = Raise (ColumnError msg).
Proof.
  unfold _validate_where. rewrite _validate_where_loop_find.
  destruct (find (TableOps.invalid_column self) (condition.cols w))
    as [col|] eqn:F; [right; eauto|].
  left. split; [reflexivity|]. apply Forall_forall.
  exact (find_none _ _ F).
Qed.

End GetFacts.

(** X15. [get] asks the driver only about names it has checked: either
    every column of the condition, of [cols] and of [order] is [id] or a
    declared column and [upper()] of every direction, as the interpreter
    computes it, is ASC or DESC, and then the statement names exactly the
    quoted columns asked for and the directions as they were written; or
    [get] raises a [ColumnError] or an [Error] and leaves the driver as it
    was. *)
Theorem X15_get_checks_names :
  forall (rt : PyRuntime) (C : Type) (self : Table.Table C)
         (w : condition.Condition)
         (ret_ : string) (cols : ColsArg) (order : OrderArg)
         (distinct : bool) (limit offset : option Z) (d : Driver.Driver C),
    (Forall (fun c => TableOps.invalid_column self c = false)
            (condition.cols w ++ asked_cols cols
             ++ map fst (asked_order order))
     /\ Forall (fun x => str_upper (snd x) = "ASC"
                         \/ str_upper (snd x) = "DESC")
               (asked_order order)
     /\ TableOps.get self w ret_ cols order distinct limit offset d
        = (ps <~ lift (condition.params w) ;;
           dbh_execute (Table.dbh self)
             (TableOps.select_sql self w
                (if asks_all cols then "*"
                 else join "," (map (dbh_quote_name (Table.dbh self))
                                    (asked_cols cols)))
                (join ", "
                   (map (fun x => dbh_quote_name (Table.dbh self) (fst x)
                                  ++ " " ++ snd x)
                        (asked_order order)))
                distinct limit offset) ps ret_) d)
    \/ exists msg,
         TableOps.get self w ret_ cols order distinct limit offset d
         = (d, Raise (ColumnError msg))
         \/ TableOps.get self w ret_ cols order distinct limit offset d
            = (d, Raise (Error msg)).
Proof.
  intros rt C self w ret_ cols order distinct limit offset d.
  unfold TableOps.get. unfold bindM at 1, lift at 1.
  destruct (_validate_where_cases self w) as [[-> Hw]|[msg ->]];
    [|right; exists msg; left; reflexivity].
  unfold bindM at 1, lift at 1.
  assert (Hcols :
    (exists l, asked_cols cols = l
               /\ Forall (fun c => TableOps.invalid_column self c = false) l
               /\ match cols with
                  | ColsStr s =>
                      if String.eqb s "*" then Ok "*"
                      else l <- TableOps.get_cols self [s] ;; Ok (join "," l)
                  | ColsList l =>
                      l' <- TableOps.get_cols self l ;; Ok (join "," l')
                  end
                  = Ok (if asks_all cols then "*"
                      else join "," (map (dbh_quote_name (Table.dbh self))
                                         (asked_cols cols))))
    \/ exists msg,
         match cols with
         | ColsStr s =>
             if String.eqb s "*" then Ok "*"
             else l <- TableOps.get_cols self [s] ;; Ok (join "," l)
         | ColsList l => l' <- TableOps.get_cols self l ;; Ok (join "," l')
         end = Raise (ColumnError msg)).
  { destruct cols as [s|l]; unfold asked_cols, asks_all.
    - destruct (String.eqb s "*").
      + left. exists []. repeat split; constructor.
      + destruct (TableOps.get_cols self [s]) as [l'|e] eqn:Hg.
        * left. exists [s]. destruct (get_cols_Ok self _ _ Hg) as [Hf ->].
          repeat split; exact Hf.
        * right. destruct (get_cols_Raise self _ _ Hg) as [msg ->].
          exists msg. reflexivity.
    - destruct (TableOps.get_cols self l) as [l'|e] eqn:Hg.
      + left. exists l. destruct (get_cols_Ok self _ _ Hg) as [Hf ->].
        repeat split; exact Hf.
      + right. destruct (get_cols_Raise self _ _ Hg) as [msg ->].
        exists msg. reflexivity. }
  destruct Hcols as [(l & Hl & Hf & ->)|[msg ->]];
    [|right; exists msg; left; reflexivity].
  unfold bindM at 1, lift at 1. fold (asked_order order).
  destruct (TableOps.get_order self (asked_order order)) as [lo|e] eqn:Ho;
    simpl.
  - left. destruct (get_order_Ok self _ _ Ho) as [Hfo ->]. split; [|split].
    + apply Forall_app. split; [exact Hw|].
      apply Forall_app. split; [now rewrite Hl|].
      apply Forall_map. eapply Forall_impl; [|exact Hfo]. now intros x [].
    + eapply Forall_impl; [|exact Hfo]. intros x [_ Hx]. simpl in Hx.
      destruct (String.eqb_spec (str_upper (snd x)) "ASC"); [now left|].
      destruct (String.eqb_spec (str_upper (snd x)) "DESC"); [now right|].
      discriminate.
    + reflexivity.
  - right. destruct (get_order_Raise self _ _ Ho) as [msg [-> | ->]];
      exists msg; [left | right]; reflexivity.
Qed.

(** X16. [check_cols] passes exactly when [id] and every declared column
    are among the columns the driver reports for the table; otherwise it
    raises an [Error].  Either way the driver is left as [get_columns] left
    it. *)
Theorem X16_check_cols :
  forall (C : Type) (schema : Schema C) (self : Table.Table C)
         (d d1 : Driver.Driver C) (cols : list PyVal),
    dbh_get_columns schema (Table.name self) d = (d1, Ok cols) ->
    (TableOps.check_cols schema self d = (d1, Ok tt)
     <-> forall c, c = "id" \/ In c (dict_keys (Table.columns self)) ->
                   In (PStr c) cols)
    /\ (TableOps.check_cols schema self d = (d1, Ok tt)
        \/ exists msg,
             TableOps.check_cols schema self d = (d1, Raise (Error msg))).
Proof.
  intros C schema self d d1 cols H.
  unfold TableOps.check_cols, bindM. rewrite H.
  destruct (filter (fun col => negb (TableOps.str_in_values col cols))
                   (TableOps.cols_defined self)) as [|x l] eqn:F.
  - split; [|now left]. split; [|reflexivity]. intros _ c Hc.
    apply str_in_values_In.
    destruct (TableOps.str_in_values c cols) eqn:E; [reflexivity|].
    assert (Hin : In c (filter (fun col =>
                                  negb (TableOps.str_in_values col cols))
                               (TableOps.cols_defined self))).
    { apply filter_In. split; [|now rewrite E].
      unfold TableOps.cols_defined. apply in_app_iff.
      destruct Hc as [->|Hc]; [right; now left | now left]. }
    rewrite F in Hin. destruct Hin.
  - split; [|right; eexists; reflexivity].
    split; [discriminate|]. intros Hall.
    assert (Hx : In x (filter (fun col =>
                                 negb (TableOps.str_in_values col cols))
                              (TableOps.cols_defined self)))
      by (rewrite F; now left).
    apply filter_In in Hx as [Hx Hneg].
    unfold TableOps.cols_defined in Hx. apply in_app_iff in Hx.
    assert (Hcol : In (PStr x) cols).
    { apply Hall. destruct Hx as [Hx|[<-|[]]]; [now right | now left]. }
    apply str_in_values_In in Hcol. rewrite Hcol in Hneg. discriminate.
Qed.

Lemma X16_check_cols_witness :
  let d := Driver.init Engine.empty 0 in
  let schema := SqliteSchema.schema (conn := Engine.sqlite) in
  let d1 := fst (dbh_get_columns schema (Table.name Engine.people) d) in
  dbh_get_columns schema (Table.name Engine.people) d = (d1, Ok [])
  /\ (TableOps.check_cols schema Engine.people d = (d1, Ok tt)
      \/ exists msg,
           TableOps.check_cols schema Engine.people d
           = (d1, Raise (Error msg))).
Proof.
  intros d schema d1.
  assert (H0 : dbh_get_columns schema (Table.name Engine.people) d
               = (d1, Ok [])) by reflexivity.
  split; [exact H0|].
  exact (proj2 (X16_check_cols _ schema Engine.people d d1 [] H0)).
Defined.

(** ** condition.py, the parameter sets *)

(** X17. The conditions without any parameter set: [params] returns the
    empty list for the bare [Condition()] and for a comparison with the
    empty list, and for no other condition; a junction, a null test and
    every other comparison give at least one set when they return. *)
Theorem X17_params_empty :
  forall w : condition.Condition,
    condition.params w = Ok []
    <-> w = condition.Base
        \/ exists op col, w = condition.Compare op col (PList []).
Proof.
  intros w. split.
  - destruct w as [|op cs|op col|op col value]; cbn [condition.params].
    + now left.
    + destruct (mapM condition.params cs) as [ps|e]; simpl; [|discriminate].
      rewrite max_sets_spec.
      destruct (Nat.max 1 (list_max (map (@List.length _) ps))) as [|n]
        eqn:E; [lia|].
      cbn [seq mapM]. destruct (condition.param_set 0 ps); simpl;
        [|discriminate].
      destruct (mapM _ (seq 1 n)); discriminate.
    + discriminate.
    + intros H. right. exists op, col. destruct value; try discriminate.
      destruct l; [reflexivity | discriminate].
  - intros [->|(op & col & ->)]; reflexivity.
Qed.

(** ** SqliteDriver.py and MysqlDriver.py, the names *)

Section QuoteFacts.

Lemma string_length_app (a b : string) :
  String.length (a ++ b) = (String.length a + String.length b)%nat.
Proof. induction a as [|c a IH]; simpl; [reflexivity | now rewrite IH]. Qed.

Lemma string_app_inv_tail (a b t : string) : a ++ t = b ++ t -> a = b.
Proof.
  revert b. induction a as [|c a IH]; intros [|c' b] H.
  - reflexivity.
  - apply (f_equal String.length) in H.
    simpl in H. rewrite string_length_app in H. lia.
  - apply (f_equal String.length) in H.
    simpl in H. rewrite string_length_app in H. lia.
  - simpl in H. injection H as -> H. f_equal. now apply IH.
Qed.

Lemma double_dquotes_inj (a b : string) :
  SqliteDriver.double_dquotes a = SqliteDriver.double_dquotes b -> a = b.
Proof.
  revert b. induction a as [|c a IH]; intros [|c' b]; simpl.
  - reflexivity.
  - destruct (Ascii.eqb c' (ascii_of_nat 34)); discriminate.
  - destruct (Ascii.eqb c (ascii_of_nat 34)); discriminate.
  - destruct (Ascii.eqb_spec c (ascii_of_nat 34)) as [Hc|Hc];
      destruct (Ascii.eqb_spec c' (ascii_of_nat 34)) as [Hc'|Hc'].
    + intros [= -> H]. f_equal. now apply IH.
    + intros [= -> H]. congruence.
    + intros [= -> H]. congruence.
    + intros [= -> H]. f_equal. now apply IH.
Qed.

End QuoteFacts.

(** X18. Quoting keeps names apart: [quote_name] of the SQLite driver
    gives two different names two different texts, and so does
    [quote_name] of the MySQL driver. *)
Theorem X18_quote_name_injective :
  forall a b : string,
    a <> b ->
    SqliteDriver.quote_name a <> SqliteDriver.quote_name b
    /\ MysqlStatements.quote_name a <> MysqlStatements.quote_name b.
Proof.
  intros a b Hne. split; intros H; apply Hne.
  - unfold SqliteDriver.quote_name, SqliteDriver.dquote in H. simpl in H.
    injection H as H. apply string_app_inv_tail in H.
    now apply double_dquotes_inj.
  - unfold MysqlStatements.quote_name in H. simpl in H.
    injection H as H. now apply string_app_inv_tail in H.
Qed.

Lemma X18_quote_name_injective_witness :
  "id" <> "Id"
  /\ SqliteDriver.quote_name "id" <> SqliteDriver.quote_name "Id".
Proof.
  assert (H0 : "id" <> "Id") by discriminate.
  split; [exact H0|].
  exact (proj1 (X18_quote_name_injective "id" "Id" H0)).
Defined.

(** X19. The column a table is created with depends on which tags the
    column has, not on their order or on repeats: two tag lists with the
    same members give the same column definition. *)
Theorem X19_column_def_members :
  forall (col : string) (tags tags' : list string),
    (forall t, In t tags <-> In t tags') ->
    SqliteSchema.column_def col tags = SqliteSchema.column_def col tags'.
Proof.
  intros col tags tags' H.
  assert (Hin : forall t, str_in t tags = str_in t tags').
  { intros t. destruct (str_in t tags) eqn:E; symmetry.
    - apply str_in_In, H, str_in_In, E.
    - destruct (str_in t tags') eqn:E'; [|reflexivity].
      apply str_in_In, H, str_in_In in E'. congruence. }
  unfold SqliteSchema.column_def, SqliteSchema.column_type.
  now rewrite !Hin.
Qed.

Lemma X19_column_def_members_witness :
  (forall t, In t ["int"; "not_null"] <-> In t ["not_null"; "int"; "int"])
  /\ SqliteSchema.column_def "n" ["int"; "not_null"]
     = SqliteSchema.column_def "n" ["not_null"; "int"; "int"].
Proof.
  assert (H0 : forall t, In t ["int"; "not_null"]
                         <-> In t ["not_null"; "int"; "int"]).
  { intros t. simpl. tauto. }
  split; [exact H0|].
  exact (X19_column_def_members "n" _ _ H0).
Defined.

(** ** MysqlDriver.py and SqliteDriver.py, the transactions *)

Section StartFacts.
Import Driver.
Context {C : Type} {conn : Connection C}.

(** The loop of [start_transaction] when the engine is busy [k] times and
    then starts the transaction. *)
Lemma wait_loop_success (busy : string) (deadline : Z) (k fuel : nat)
    (d : Driver C) (ck c' : C) (last : option EngineError) :
  Calls.busy_for busy k None (con d) = Some (ck, last) ->
  con_start_transaction ck = (c', None) ->
  clock d + 100 * Z.of_nat k < deadline ->
  (k < fuel)%nat ->
  exists d',
    wait_loop busy deadline fuel None d = Some (d', LoopReturn)
    /\ calls d' = (calls d ++ Calls.attempts (clock d) (S k))%list
    /\ clock d' = clock d + 100 * Z.of_nat k
    /\ con d' = c'
    /\ transaction_cnt d' = transaction_cnt d
    /\ nested_rollback d' = nested_rollback d.
Proof.
  intros Hbusy Hstart Htime Hfuel.
  replace fuel with (k + S (fuel - S k))%nat by lia.
  rewrite (wait_loop_busy busy deadline k _ None d last ck Hbusy)
    by lia.
  cbn [wait_loop clock].
  destruct (Z.ltb_spec (clock d + 100 * Z.of_nat k) deadline); [|lia].
  unfold call_start. cbn [con]. rewrite Hstart.
  eexists. split; [reflexivity|]. unfold record.
  cbn [calls clock con transaction_cnt nested_rollback].
  rewrite attempts_S, app_assoc. repeat split.
Qed.

(** In nested mode a start below the outermost one only counts. *)
Lemma nested_starts (fuel : nat) (t : option Z) (m : nat) :
  forall d : Driver C,
    nested_transactions d = true ->
    0 < transaction_cnt d ->
    exists d',
      Calls.run fuel (repeat (OpStart t) m) d = Some (d', repeat (Ok tt) m)
      /\ calls d' = calls d
      /\ clock d' = clock d
      /\ con d' = con d
      /\ transaction_cnt d' = transaction_cnt d + Z.of_nat m
      /\ nested_transactions d' = true
      /\ nested_rollback d' = nested_rollback d.
Proof.
  induction m as [|m IH]; intros d Hn Hc.
  - exists d. cbn [repeat Calls.run]. repeat split; auto. lia.
  - cbn [repeat Calls.run Calls.step].
    unfold MysqlDriver.start_transaction. cbn [negb]. rewrite Hn.
    destruct (Z.eqb_spec (transaction_cnt d) 0); [lia|].
    destruct (IH (set_transaction_cnt d (transaction_cnt d + 1)))
      as (d' & -> & H1 & H2 & H3 & H4 & H5 & H6);
      [exact Hn | cbn [set_transaction_cnt transaction_cnt]; lia|].
    exists d'. cbn [set_transaction_cnt transaction_cnt] in H4.
    repeat split; auto. lia.
Qed.

(** In nested mode, from depth 0: the first start asks the engine, the
    others count. *)
Lemma nested_starts_all (fuel : nat) (t : option Z) (m : nat)
    (d : Driver C) (c1 : C) :
  nested_transactions d = true ->
  transaction_cnt d = 0 ->
  con_start_transaction (con d) = (c1, None) ->
  exists d',
    Calls.run fuel (repeat (OpStart t) (S m)) d
    = Some (d', repeat (Ok tt) (S m))
    /\ calls d' = (calls d ++ [(clock d, CallStart)])%list
    /\ clock d' = clock d
    /\ con d' = c1
    /\ transaction_cnt d' = Z.of_nat (S m)
    /\ nested_transactions d' = true
    /\ nested_rollback d' = false.
Proof.
  intros Hn Hc Hstart.
  cbn [repeat Calls.run Calls.step].
  unfold MysqlDriver.start_transaction. cbn [negb]. rewrite Hn, Hc.
  cbn [Z.eqb]. unfold call_start. cbn [set_nested_rollback con].
  rewrite Hstart.
  match goal with
  | |- context [Calls.run fuel _ ?d1] =>
      destruct (nested_starts fuel t m d1)
        as (d' & -> & H1 & H2 & H3 & H4 & H5 & H6)
  end.
  - exact Hn.
  - cbn [set_transaction_cnt record set_nested_rollback transaction_cnt].
    lia.
  - exists d'.
    cbn [set_transaction_cnt record set_nested_rollback transaction_cnt
         calls clock con nested_rollback nested_transactions] in *.
    repeat split; auto. lia.
Qed.

(** In nested mode, down to depth 0 without a rollback on the way: the
    commits count, and the last one asks the engine. *)
Lemma nested_commits_all (fuel : nat) (m : nat) (c2 : C) :
  forall d : Driver C,
    nested_transactions d = true ->
    transaction_cnt d = Z.of_nat (S m) ->
    nested_rollback d = false ->
    con_commit (con d) = (c2, None) ->
    exists d',
      Calls.run fuel (repeat OpCommit (S m)) d
      = Some (d', repeat (Ok tt) (S m))
      /\ calls d' = (calls d ++ [(clock d, CallCommit)])%list
      /\ con d' = c2
      /\ transaction_cnt d' = 0.
Proof.
  induction m as [|m IH]; intros d Hn Hc Hr Hcommit.
  - cbn [repeat Calls.run Calls.step]. unfold MysqlDriver.commit.
    cbn [negb]. rewrite Hn, Hc, Hr. cbn [Z.of_nat Pos.of_succ_nat Z.eqb].
    unfold call_commit. rewrite Hcommit. eexists. split; [reflexivity|].
    cbn [set_transaction_cnt record transaction_cnt calls con].
    repeat split. lia.
  - change (repeat OpCommit (S (S m)))
      with (OpCommit :: repeat OpCommit (S m)).
    cbn [Calls.run Calls.step]. unfold MysqlDriver.commit at 1.
    cbn [negb]. rewrite Hn.
    destruct (Z.eqb_spec (transaction_cnt d) 1); [lia|].
    destruct (IH (set_transaction_cnt d (transaction_cnt d - 1)))
      as (d' & -> & H1 & H2 & H3); auto.
    + cbn [set_transaction_cnt transaction_cnt]. lia.
    + exists d'. repeat split; auto.
Qed.

(** In nested mode, down to depth 0 by rollbacks: they count, and the last
    one asks the engine. *)
Lemma nested_rollbacks_all (fuel : nat) (m : nat) (c2 : C) :
  forall d : Driver C,
    nested_transactions d = true ->
    transaction_cnt d = Z.of_nat (S m) ->
    con_rollback (con d) = (c2, None) ->
    exists d',
      Calls.run fuel (repeat OpRollback (S m)) d
      = Some (d', repeat (Ok tt) (S m))
      /\ calls d' = (calls d ++ [(clock d, CallRollback)])%list
      /\ con d' = c2
      /\ transaction_cnt d' = 0.
Proof.
  induction m as [|m IH]; intros d Hn Hc Hrollback.
  - cbn [repeat Calls.run Calls.step]. unfold MysqlDriver.rollback.
    cbn [negb]. rewrite Hn.
    cbn [set_nested_rollback transaction_cnt]. rewrite Hc.
    cbn [Z.of_nat Pos.of_succ_nat Z.eqb].
    unfold call_rollback, set_nested_rollback. cbn [con]. rewrite Hrollback.
    eexists. split; [reflexivity|].
    cbn [set_transaction_cnt record transaction_cnt calls con clock].
    repeat split. lia.
  - change (repeat OpRollback (S (S m)))
      with (OpRollback :: repeat OpRollback (S m)).
    cbn [Calls.run Calls.step]. unfold MysqlDriver.rollback at 1.
    cbn [negb]. rewrite Hn. cbn [set_nested_rollback transaction_cnt].
    destruct (Z.eqb_spec (transaction_cnt d) 1); [lia|].
    match goal with
    | |- context [Calls.run fuel _ ?d1] =>
        destruct (IH d1) as (d' & -> & H1 & H2 & H3); auto
    end.
    + cbn [set_transaction_cnt transaction_cnt]. lia.
    + exists d'. repeat split; auto.
Qed.

End StartFacts.

(** X20. A start in timeout mode waits for a busy engine: when the engine
    says [k] times that a transaction is in progress and then starts one,
    and the [k] waits of 100 milliseconds end before the timeout, then
    [start_transaction] of either driver returns, after [k + 1] attempts at
    100 milliseconds from one to the next and [100 * k] milliseconds after
    the call. *)
Theorem X20_start_waits_for_engine :
  forall (C : Type) (conn : Connection C) (b : Backend)
         (d : Driver.Driver C) (timeout : option Z) (fuel k : nat)
         (ck c' : C) (last : option EngineError),
    let t := match timeout with
             | None => Driver.transaction_timeout d
             | Some t => t
             end in
    Driver.nested_transactions d = false ->
    (k < fuel)%nat ->
    100 * Z.of_nat k < 1000 * t ->
    Calls.busy_for (Backends.busy b) k None (Driver.con d)
    = Some (ck, last) ->
    con_start_transaction ck = (c', None) ->
    exists d',
      Backends.start_transaction b fuel true timeout d = Some (d', Ok tt)
      /\ Driver.calls d'
         = (Driver.calls d ++ Calls.attempts (Driver.clock d) (S k))%list
      /\ Driver.clock d' = Driver.clock d + 100 * Z.of_nat k
      /\ Driver.con d' = c'.
Proof.
  intros C conn b d timeout fuel k ck c' last t Hmode Hfuel Htime Hbusy
         Hstart.
  destruct (wait_loop_success (Backends.busy b)
              (Driver.clock d + 1000 * t) k fuel d ck c' last)
    as (d' & Hloop & Hcalls & Hclock & Hcon & _); try lia; auto.
  exists d'. split; [|split; [exact Hcalls|split; [exact Hclock|exact Hcon]]].
  destruct b; cbn [Backends.start_transaction Backends.busy] in *;
    unfold MysqlDriver.start_transaction, SqliteDriver.start_transaction;
    cbn [negb]; rewrite ?Hmode; fold t; rewrite Hloop; reflexivity.
Qed.

Lemma X20_start_waits_for_engine_witness :
  let d : Driver.Driver nat := Driver.init 3%nat 0 in
  let last := Some (Waiting.busy_error SqliteDriver.busy) in
  Driver.nested_transactions d = false
  /\ (3 < 4)%nat
  /\ 100 * Z.of_nat 3 < 1000 * 3
  /\ Calls.busy_for (conn := Waiting.sqlite) (Backends.busy Sqlite) 3 None
                    (Driver.con d) = Some (0%nat, last)
  /\ con_start_transaction (Connection := Waiting.sqlite) 0%nat
     = (0%nat, None)
  /\ exists d',
       Backends.start_transaction (conn := Waiting.sqlite) Sqlite 4 true None
                                  d = Some (d', Ok tt)
       /\ Driver.calls d'
          = (Driver.calls d ++ Calls.attempts (Driver.clock d) 4)%list
       /\ Driver.clock d' = Driver.clock d + 100 * Z.of_nat 3
       /\ Driver.con d' = 0%nat.
Proof.
  intros d last.
  assert (H0 : Driver.nested_transactions d = false) by reflexivity.
  assert (H1 : (3 < 4)%nat) by lia.
  assert (H2 : 100 * Z.of_nat 3 < 1000 * 3) by lia.
  assert (H3 : Calls.busy_for (conn := Waiting.sqlite) (Backends.busy Sqlite)
                 3 None (Driver.con d) = Some (0%nat, last))
    by reflexivity.
  assert (H4 : con_start_transaction (Connection := Waiting.sqlite) 0%nat
               = (0%nat, None)) by reflexivity.
  repeat (split; [assumption|]).
  exact (X20_start_waits_for_engine _ Waiting.sqlite Sqlite d None 4 3
           0%nat 0%nat last H0 H1 H2 H3 H4).
Defined.

(** X21. A timeout of zero seconds or less makes no attempt at all: in
    timeout mode [start_transaction] of either driver leaves the driver as
    it was and raises [AttributeError], because the message of the [Error]
    it is about to raise reads [exc_buf.args] while [exc_buf] is still
    [None]. *)
Theorem X21_start_without_time :
  forall (C : Type) (conn : Connection C) (b : Backend)
         (d : Driver.Driver C) (timeout : option Z) (fuel : nat),
    let t := match timeout with
             | None => Driver.transaction_timeout d
             | Some t => t
             end in
    Driver.nested_transactions d = false ->
    t <= 0 ->
    Backends.start_transaction b fuel true timeout d
    = Some (d, Raise AttributeError).
Proof.
  intros C conn b d timeout fuel t Hmode Ht.
  destruct b; cbn [Backends.start_transaction];
    unfold MysqlDriver.start_transaction, SqliteDriver.start_transaction;
    cbn [negb]; rewrite ?Hmode; fold t;
    rewrite wait_loop_late by lia; reflexivity.
Qed.

Lemma X21_start_without_time_witness :
  let d := Driver.init Engine.empty 0 in
  Driver.nested_transactions d = false
  /\ 0 <= 0
  /\ Backends.start_transaction (conn := Engine.mysql) Mysql 0 true (Some 0)
                                d
     = Some (d, Raise AttributeError).
Proof.
  intros d.
  assert (H0 : Driver.nested_transactions d = false) by reflexivity.
  assert (H1 : 0 <= 0) by lia.
  split; [exact H0|]. split; [exact H1|].
  exact (X21_start_without_time _ Engine.mysql Mysql d (Some 0) 0%nat H0 H1).
Defined.

(** X22. Nested transactions reach the engine once on the way in and once
    on the way out: in nested mode at depth 0, [n + 1] starts followed by
    [n + 1] commits all return, and the only calls on the connection are
    one start, at the first start, and one commit, at the last commit; with
    [n + 1] rollbacks in place of the commits it is one start and one
    rollback.  The depth is 0 again afterwards. *)
Theorem X22_nested_calls_once :
  forall (C : Type) (conn : Connection C) (fuel : nat) (t : option Z)
         (n : nat) (d : Driver.Driver C) (c1 c2 : C),
    Driver.nested_transactions d = true ->
    Driver.transaction_cnt d = 0 ->
    con_start_transaction (Driver.con d) = (c1, None) ->
    (con_commit c1 = (c2, None) ->
     exists d',
       Calls.run fuel (repeat (OpStart t) (S n) ++ repeat OpCommit (S n)) d
       = Some (d', repeat (Ok tt) (S n + S n))
       /\ Driver.calls d'
          = (Driver.calls d ++ [(Driver.clock d, CallStart);
                                (Driver.clock d, CallCommit)])%list
       /\ Driver.con d' = c2
       /\ Driver.transaction_cnt d' = 0)
    /\ (con_rollback c1 = (c2, None) ->
        exists d',
          Calls.run fuel (repeat (OpStart t) (S n) ++ repeat OpRollback (S n))
                    d
          = Some (d', repeat (Ok tt) (S n + S n))
          /\ Driver.calls d'
             = (Driver.calls d ++ [(Driver.clock d, CallStart);
                                   (Driver.clock d, CallRollback)])%list
          /\ Driver.con d' = c2
          /\ Driver.transaction_cnt d' = 0).
Proof.
  intros C conn fuel t n d c1 c2 Hn Hc Hstart.
  destruct (nested_starts_all fuel t n d c1 Hn Hc Hstart)
    as (d1 & Hrun & Hcalls & Hclock & Hcon & Hcnt & Hnest & Hroll).
  split; intros Hend; rewrite run_app, Hrun.
  - destruct (nested_commits_all fuel n c2 d1 Hnest Hcnt Hroll)
      as (d' & -> & H1 & H2 & H3); [now rewrite Hcon|].
    exists d'. rewrite repeat_app.
    split; [reflexivity|]. split; [|auto].
    now rewrite H1, Hcalls, Hclock, <- app_assoc.
  - destruct (nested_rollbacks_all fuel n c2 d1 Hnest Hcnt)
      as (d' & -> & H1 & H2 & H3); [now rewrite Hcon|].
    exists d'. rewrite repeat_app.
    split; [reflexivity|]. split; [|auto].
    now rewrite H1, Hcalls, Hclock, <- app_assoc.
Qed.

Lemma X22_nested_calls_once_witness :
  let d := Driver.set_nested_transactions (Driver.init Engine.empty 0) true in
  let c1 := {| Engine.in_transaction := true; Engine.stored := [];
               Engine.working := [] |} in
  Driver.nested_transactions d = true
  /\ Driver.transaction_cnt d = 0
  /\ con_start_transaction (Connection := Engine.mysql) (Driver.con d)
     = (c1, None)
  /\ con_commit (Connection := Engine.mysql) c1 = (Engine.empty, None)
  /\ exists d',
       Calls.run (conn := Engine.mysql) 1
         (repeat (OpStart None) 2 ++ repeat OpCommit 2) d
       = Some (d', repeat (Ok tt) (2 + 2))
       /\ Driver.calls d'
          = (Driver.calls d ++ [(Driver.clock d, CallStart);
                                (Driver.clock d, CallCommit)])%list
       /\ Driver.con d' = Engine.empty
       /\ Driver.transaction_cnt d' = 0.
Proof.
  intros d c1.
  assert (H0 : Driver.nested_transactions d = true) by reflexivity.
  assert (H1 : Driver.transaction_cnt d = 0) by reflexivity.
  assert (H2 : con_start_transaction (Connection := Engine.mysql)
                 (Driver.con d) = (c1, None)) by reflexivity.
  assert (H3 : con_commit (Connection := Engine.mysql) c1
               = (Engine.empty, None)) by reflexivity.
  repeat (split; [assumption|]).
  exact (proj1 (X22_nested_calls_once _ Engine.mysql 1 None 1 d c1
                  Engine.empty H0 H1 H2) H3).
Defined.

(** ** TransactionCM.py *)

(** X23. A [with TransactionCM(dbh):] block in timeout mode ends with
    exactly one more call on the connection: a commit when the block
    returned, a rollback when it raised.  When the engine takes that call,
    the block's value is returned, or its exception raised again; when the
    engine refuses it, the [Error] of [commit] or [rollback] is raised in
    its place. *)
Theorem X23_with_block_ends_transaction :
  forall (C : Type) (conn : Connection C) (b : Backend) (fuel : nat)
         (A : Type) (body : M C A) (d d1 d2 : Driver.Driver C)
         (r : result A),
    TransactionCM.__enter__ b fuel d = Some (d1, Ok tt) ->
    body d1 = (d2, r) ->
    Driver.nested_transactions d2 = false ->
    exists d3 r',
      TransactionCM.with_ b fuel body d = Some (d3, r')
      /\ Driver.calls d3
         = (Driver.calls d2
            ++ [(Driver.clock d2,
                 match r with
                 | Ok _ => CallCommit
                 | Raise _ => CallRollback
                 end)])%list
      /\ (r' = r \/ exists msg, r' = Raise (Error msg))
      /\ (forall c,
           match r with
           | Ok _ => con_commit (Driver.con d2)
           | Raise _ => con_rollback (Driver.con d2)
           end = (c, None) ->
           r' = r /\ Driver.con d3 = c).
Proof.
  intros C conn b fuel A body d d1 d2 r Henter Hbody Hmode.
  unfold TransactionCM.with_. rewrite Henter, Hbody.
  unfold TransactionCM.__exit__, bindM, ret.
  destruct r as [a|e]; destruct b;
    cbn [TransactionCM.commit TransactionCM.rollback];
    unfold MysqlDriver.commit, MysqlDriver.rollback, SqliteDriver.commit,
      SqliteDriver.rollback; cbn [negb]; rewrite ?Hmode;
    unfold Driver.call_commit, Driver.call_rollback.
  - destruct (con_commit (Driver.con d2)) as [c [e|]];
      do 2 eexists; (split; [reflexivity|]); (split; [reflexivity|]);
      (split; [eauto|]); intros c0 [= <-]; auto.
  - destruct (con_commit (Driver.con d2)) as [c [e|]];
      do 2 eexists; (split; [reflexivity|]); (split; [reflexivity|]);
      (split; [eauto|]); intros c0 [= <-]; auto.
  - destruct (con_rollback (Driver.con d2)) as [c [e'|]];
      do 2 eexists; (split; [reflexivity|]); (split; [reflexivity|]);
      (split; [eauto|]); intros c0 [= <-]; auto.
  - destruct (con_rollback (Driver.con d2)) as [c [e'|]];
      do 2 eexists; (split; [reflexivity|]); (split; [reflexivity|]);
      (split; [eauto|]); intros c0 [= <-]; auto.
Qed.

Lemma X23_with_block_ends_transaction_witness :
  let d := Driver.init Engine.empty 0 in
  let body : M Engine.Db unit := raise (Error "stop") in
  let d1 :=
    match TransactionCM.__enter__ (conn := Engine.sqlite) Sqlite 1 d with
    | Some (d1, _) => d1
    | None => d
    end in
  TransactionCM.__enter__ (conn := Engine.sqlite) Sqlite 1 d
  = Some (d1, Ok tt)
  /\ body d1 = (d1, Raise (Error "stop"))
  /\ Driver.nested_transactions d1 = false
  /\ exists d3 r',
       TransactionCM.with_ (conn := Engine.sqlite) Sqlite 1 body d
       = Some (d3, r')
       /\ Driver.calls d3
          = (Driver.calls d1 ++ [(Driver.clock d1, CallRollback)])%list.
Proof.
  intros d body d1.
  assert (H0 : TransactionCM.__enter__ (conn := Engine.sqlite) Sqlite 1 d
               = Some (d1, Ok tt)) by reflexivity.
  assert (H1 : body d1 = (d1, Raise (Error "stop"))) by reflexivity.
  assert (H2 : Driver.nested_transactions d1 = false) by reflexivity.
  split; [exact H0|]. split; [exact H1|]. split; [exact H2|].
  destruct (X23_with_block_ends_transaction _ Engine.sqlite Sqlite 1 unit
              body d d1 d1 (Raise (Error "stop")) H0 H1 H2)
    as (d3 & r' & Hw & Hc & _).
  exists d3, r'. split; [exact Hw | exact Hc].
Defined.

(** ** MysqlDriver.py, the statements *)

Section StatementFacts.
Import Driver.
Context {C : Type} {conn : Connection C}.

(** When the loop of [execute] returns, it has run the statement once for
    every parameter set, in their order, and has one result more for each. *)
Lemma execute_loop_Ok (sql ret_ : string) (params : list (list PyVal)) :
  forall res (d d' : Driver C) res',
    MysqlStatements.execute_loop sql ret_ params res d = (d', Ok res') ->
    List.length res' = (List.length res + List.length params)%nat
    /\ calls d'
       = (calls d
          ++ map (fun p =>
                    (clock d,
                     CallExecute sql [MysqlStatements.cursor_params p]))
                 params)%list
    /\ clock d' = clock d.
Proof.
  induction params as [|p params IH]; intros res d d' res' H.
  - injection H as <- <-. rewrite app_nil_r. repeat split. simpl. lia.
  - cbn [MysqlStatements.execute_loop] in H. unfold call_execute in H.
    destruct (cursor_execute (con d) sql (MysqlStatements.cursor_params p))
      as [c [e|cur]]; [discriminate|].
    destruct (MysqlStatements.fetched cur ret_) as [r|e]; [|discriminate].
    apply IH in H as (Hl & Hc & Ht).
    unfold record in *. cbn [calls clock] in *.
    rewrite Hl, Hc, length_app, <- app_assoc. simpl. repeat split; [lia|].
    exact Ht.
Qed.

(** Whatever the loop of [execute] ends with, it has only run statements. *)
Lemma execute_loop_calls (sql ret_ : string) (params : list (list PyVal)) :
  forall res (d : Driver C),
    exists l,
      calls (fst (MysqlStatements.execute_loop sql ret_ params res d))
      = (calls d ++ l)%list
      /\ Forall is_execute l.
Proof.
  induction params as [|p params IH]; intros res d.
  - exists []. split; [now rewrite app_nil_r | constructor].
  - cbn [MysqlStatements.execute_loop]. unfold call_execute.
    destruct (cursor_execute (con d) sql (MysqlStatements.cursor_params p))
      as [c [e|cur]].
    + eexists. split; [reflexivity|]. constructor; [exact I | constructor].
    + destruct (MysqlStatements.fetched cur ret_) as [r|e].
      * match goal with
        | |- context [MysqlStatements.execute_loop _ _ _ ?res1 ?d1] =>
            destruct (IH res1 d1) as (l & Hl & Hx)
        end.
        eexists. split; [rewrite Hl; cbn [record calls];
                         rewrite <- app_assoc; reflexivity|].
        constructor; [exact I | exact Hx].
      * eexists. split; [reflexivity|].
        constructor; [exact I | constructor].
Qed.

Lemma execute_loop_mode (sql ret_ : string) (params : list (list PyVal)) :
  forall res (d : Driver C),
    nested_transactions
      (fst (MysqlStatements.execute_loop sql ret_ params res d))
    = nested_transactions d.
Proof.
  induction params as [|p params IH]; intros res d; [reflexivity|].
  cbn [MysqlStatements.execute_loop]. unfold call_execute.
  destruct (cursor_execute (con d) sql (MysqlStatements.cursor_params p))
    as [c [e|cur]]; [reflexivity|].
  destruct (MysqlStatements.fetched cur ret_) as [r|e]; [|reflexivity].
  now rewrite IH.
Qed.

(** Reading the results raises only when a row without columns is asked
    for its first column. *)
Lemma fetched_raise (c : Cursor) (ret_ : string) (e : exn) :
  MysqlStatements.fetched c ret_ = Raise e -> e = IndexError.
Proof.
  unfold MysqlStatements.fetched.
  destruct (String.eqb ret_ "rows"); [discriminate|].
  destruct (String.eqb ret_ "row"); [destruct (fetch c); discriminate|].
  destruct (String.eqb ret_ "col");
    [destruct (fetch c) as [|[|[? ?] ?] ?]; discriminate|].
  destruct (String.eqb ret_ "cols").
  - destruct (mapM _ (fetch c)) as [vs|e'] eqn:Hm; simpl; [discriminate|].
    intros [= <-]. apply mapM_raise in Hm as (row & _ & Hrow).
    destruct row as [|[? ?] ?]; [now injection Hrow | discriminate].
  - destruct (String.eqb ret_ "id"); discriminate.
Qed.

(** The loop of [execute] raises a [QueryError] only for the statement it
    runs. *)
Lemma execute_loop_QueryError (sql ret_ : string)
    (params : list (list PyVal)) :
  forall res (d d' : Driver C) msg code s,
    MysqlStatements.execute_loop sql ret_ params res d
    = (d', Raise (QueryError msg code s)) ->
    s = sql.
Proof.
  induction params as [|p params IH]; intros res d d' msg code s H.
  - discriminate.
  - cbn [MysqlStatements.execute_loop] in H.
    destruct (call_execute d sql (MysqlStatements.cursor_params p))
      as [d1 [e|cur]]; [now injection H|].
    destruct (MysqlStatements.fetched cur ret_) as [r|e] eqn:Hf.
    + eapply IH; eauto.
    + injection H as _ ->. apply fetched_raise in Hf. discriminate.
Qed.

(** The loop of [start_transaction] only makes attempts to start, and when
    it returns it has made one. *)
Lemma wait_loop_calls (busy : string) (deadline : Z) (fuel : nat) :
  forall exc_buf (d d' : Driver C) x,
    wait_loop busy deadline fuel exc_buf d = Some (d', x) ->
    exists l,
      calls d' = (calls d ++ l)%list
      /\ Forall is_start l
      /\ (x = LoopReturn -> l <> []).
Proof.
  induction fuel as [|fuel IH]; intros exc_buf d d' x H;
    cbn [wait_loop] in H;
    destruct (clock d <? deadline)%Z.
  - discriminate.
  - injection H as <- <-. exists []. rewrite app_nil_r.
    repeat split; [constructor | discriminate].
  - unfold call_start in H.
    destruct (con_start_transaction (con d)) as [c [e|]].
    + destruct (String.eqb (e_msg e) busy).
      * apply IH in H as (l & Hl & Hs & Hr).
        unfold sleep, record in Hl. cbn [calls] in Hl.
        exists ((clock d, CallStart) :: l).
        split; [now rewrite Hl, <- app_assoc|].
        split; [constructor; [reflexivity | exact Hs] | discriminate].
      * injection H as <- <-. exists [(clock d, CallStart)].
        repeat split; [constructor; [reflexivity | constructor]
                      | discriminate].
    + injection H as <- <-. exists [(clock d, CallStart)].
      repeat split; [constructor; [reflexivity | constructor]
                    | discriminate].
  - injection H as <- <-. exists []. rewrite app_nil_r.
    repeat split; [constructor | discriminate].
Qed.

End StatementFacts.

(** X24. What [execute] of the MySQL driver returns: [None] when [ret] is
    ["none"]; otherwise, for two parameter sets or more, the list of the
    results, one for each parameter set, and for one parameter set or none,
    a single result. *)
Theorem X24_mysql_execute_results :
  forall (C : Type) (conn : Connection C) (fuel : nat) (sql : string)
         (params : list (list PyVal)) (ret_ : string)
         (d d' : Driver.Driver C) (r : Results),
    MysqlStatements.execute fuel sql params ret_ d = Some (d', Ok r) ->
    (ret_ = "none" -> r = Single (Val PNone))
    /\ (ret_ <> "none" ->
        (2 <= List.length params)%nat ->
        exists rs, r = Several rs /\ List.length rs = List.length params)
    /\ (ret_ <> "none" ->
        (List.length params <= 1)%nat ->
        exists x, r = Single x).
Proof.
  intros C conn fuel sql params ret_ d d' r H.
  unfold MysqlStatements.execute in H.
  set (ps := match params with [] => [[PNone]] | _ => params end) in H.
  destruct (if con_in_transaction (Driver.con d)
            then Some (d, Ok tt, false)
            else
              match MysqlDriver.start_transaction fuel true None d with
              | Some (d1, r0) => Some (d1, r0, true)
              | None => None
              end) as [[[d1 [u|e]] autotrans]|]; try discriminate.
  destruct (MysqlStatements.execute_loop sql ret_ ps [] d1)
    as [d2 [res|e]] eqn:Hloop; [|discriminate].
  destruct (if autotrans && con_in_transaction (Driver.con d2)
            then MysqlDriver.commit true d2 else (d2, Ok tt))
    as [d3 [u'|e]]; [|discriminate].
  injection H as _ Hr.
  apply execute_loop_Ok in Hloop as (Hlen & _). simpl in Hlen.
  destruct (String.eqb_spec ret_ "none") as [->|Hne].
  - injection Hr as <-. repeat split; congruence.
  - split; [congruence|]. split; intros _ Hp.
    + destruct params as [|p1 [|p2 params]]; simpl in Hp; try lia.
      subst ps. injection Hr as <-. exists res. split; [reflexivity|].
      exact Hlen.
    + destruct params as [|p1 [|p2 params]]; simpl in Hp; try lia;
        subst ps; cbn iota in Hr;
        destruct (list_index res 0) as [x|]; try discriminate;
        injection Hr as <-; eauto.
Qed.

Lemma X24_mysql_execute_results_witness :
  let d := Driver.init Engine.empty 0 in
  let out :=
    MysqlStatements.execute (conn := Engine.mysql) 1 "INSERT"
      [[PInt 7]; [PInt 8]] "id" d in
  let d' := match out with Some (d', _) => d' | None => d end in
  out = Some (d', Ok (Several [Val (PInt 1); Val (PInt 2)]))
  /\ (2 <= List.length [[PInt 7]; [PInt 8]])%nat
  /\ exists rs,
       Several [Val (PInt 1); Val (PInt 2)] = Several rs
       /\ List.length rs = List.length [[PInt 7]; [PInt 8]].
Proof.
  intros d out d'.
  assert (H0 : out = Some (d', Ok (Several [Val (PInt 1); Val (PInt 2)])))
    by reflexivity.
  assert (H1 : "id" <> "none") by discriminate.
  assert (H2 : (2 <= List.length [[PInt 7]; [PInt 8]])%nat)
    by (simpl; lia).
  split; [exact H0|]. split; [exact H2|].
  exact (proj1 (proj2 (X24_mysql_execute_results _ Engine.mysql 1 "INSERT"
                         [[PInt 7]; [PInt 8]] "id" d d' _ H0)) H1 H2).
Defined.

(** X25. A statement that fails inside the transaction [execute] of the
    MySQL driver opened itself leaves that transaction open: in timeout
    mode, called outside a transaction, when [execute] raises a
    [QueryError], the error carries the statement, and the calls
    [execute] has made on the connection are attempts to start the
    transaction, at least one, followed by statements only; there is no
    commit and no rollback. *)
Theorem X25_failed_statement_keeps_transaction :
  forall (C : Type) (conn : Connection C) (fuel : nat) (sql : string)
         (params : list (list PyVal)) (ret_ : string)
         (d d' : Driver.Driver C) (msg : string) (code : Z) (s : string),
    Driver.nested_transactions d = false ->
    con_in_transaction (Driver.con d) = false ->
    MysqlStatements.execute fuel sql params ret_ d
    = Some (d', Raise (QueryError msg code s)) ->
    s = sql
    /\ exists starts runs,
         Driver.calls d' = (Driver.calls d ++ starts ++ runs)%list
         /\ starts <> []
         /\ Forall is_start starts
         /\ Forall is_execute runs.
Proof.
  intros C conn fuel sql params ret_ d d' msg code s Hmode Hout H.
  unfold MysqlStatements.execute in H. rewrite Hout in H.
  set (ps := match params with [] => [[PNone]] | _ => params end) in H.
  unfold MysqlDriver.start_transaction in H. cbn [negb] in H.
  rewrite Hmode in H.
  destruct (Driver.wait_loop MysqlDriver.busy _ fuel None d)
    as [[d1 x]|] eqn:Hloop; [|discriminate].
  destruct (wait_loop_calls _ _ _ _ _ _ _ Hloop) as (starts & Hs & Hst & Hne).
  destruct x as [|[e|]]; [|discriminate|discriminate].
  destruct (execute_loop_calls sql ret_ ps [] d1) as (runs & Hr & Hx).
  destruct (MysqlStatements.execute_loop sql ret_ ps [] d1)
    as [d2 [res|e]] eqn:Hexec.
  - cbn [andb] in H.
    destruct (if con_in_transaction (Driver.con d2)
              then MysqlDriver.commit true d2 else (d2, Ok tt))
      as [d3 [u|e]] eqn:Hcommit.
    + destruct (String.eqb ret_ "none"); [discriminate|].
      unfold list_index in H.
      destruct ps as [|p1 [|p2 ps]]; try discriminate;
        destruct (nth_error res 0); discriminate.
    + injection H as _ ->.
      destruct (con_in_transaction (Driver.con d2)); [|discriminate].
      unfold MysqlDriver.commit in Hcommit. cbn [negb] in Hcommit.
      assert (Hm2 : Driver.nested_transactions d2 = false).
      { pose proof (execute_loop_mode sql ret_ ps [] d1) as Hm.
        rewrite Hexec in Hm. cbn [fst] in Hm. rewrite Hm.
        destruct (wait_loop_state _ _ _ _ _ _ _ Hloop) as (_ & _ & ->).
        exact Hmode. }
      rewrite Hm2 in Hcommit.
      destruct (Driver.call_commit d2) as [d4 [e|]]; discriminate.
  - injection H as <- ->.
    split; [eapply execute_loop_QueryError; eauto|].
    exists starts, runs. simpl in Hr. rewrite Hr, Hs, <- app_assoc.
    repeat split; auto.
Qed.

Lemma X25_failed_statement_keeps_transaction_witness :
  let d := Driver.init false 0 in
  let out :=
    MysqlStatements.execute (conn := Refusing.connection) 1
      "SELECT name FROM people" [] "rows" d in
  let d' := match out with Some (d', _) => d' | None => d end in
  Driver.nested_transactions d = false
  /\ con_in_transaction (Connection := Refusing.connection) (Driver.con d)
     = false
  /\ out = Some (d', Raise (QueryError (e_text Refusing.no_table) 1146
                              "SELECT name FROM people"))
  /\ exists starts runs,
       Driver.calls d' = (Driver.calls d ++ starts ++ runs)%list
       /\ starts <> []
       /\ Forall is_start starts
       /\ Forall is_execute runs.
Proof.
  intros d out d'.
  assert (H0 : Driver.nested_transactions d = false) by reflexivity.
  assert (H1 : con_in_transaction (Connection := Refusing.connection)
                 (Driver.con d) = false) by reflexivity.
  assert (H2 : out = Some (d', Raise (QueryError (e_text Refusing.no_table)
                                        1146 "SELECT name FROM people")))
    by reflexivity.
  split; [exact H0|]. split; [exact H1|]. split; [exact H2|].
  exact (proj2 (X25_failed_statement_keeps_transaction _ Refusing.connection
                  1 _ [] "rows" d d' _ _ _ H0 H1 H2)).
Defined.

(** ** Table.py, setting a table up *)

Section InitFacts.
Import Driver Table.
Context {rt : PyRuntime} {C : Type} {conn : Connection C}.

Lemma create_default_rows_only_executes (self : Table C)
    (default : list (dict PyVal)) :
  dbh self = SqliteDriver.dbh ->
  only_executes (TableOps.create_default_rows self default).
Proof.
  intros Hdbh. induction default as [|row default IH].
  - apply only_executes_ret.
  - cbn [TableOps.create_default_rows].
    apply only_executes_bind; [now apply create_only_executes | intros _].
    exact IH.
Qed.

Lemma create_table_only_executes (name : string)
    (columns : dict (list string)) (unique : list string) :
  only_executes (SqliteSchema.create_table name columns unique).
Proof.
  unfold SqliteSchema.create_table.
  apply only_executes_bind;
    [apply sqlite_execute_only_executes | intros _].
  apply only_executes_ret.
Qed.

End InitFacts.

(** X26. Setting a table up on the SQLite driver: [Table.__init__] first
    asks [sqlite_master] for the name of the table, and everything it does
    after that runs a statement (it starts no transaction around creating
    the table and its default rows); without [create] that question is the
    only call it makes, whether the table exists or not. *)
Theorem X26_init_asks_first :
  forall (rt : PyRuntime) (C : Type) (conn : Connection C)
         (self : Table.Table C) (default : list (dict PyVal))
         (create : bool) (d : Driver.Driver C),
    Table.dbh self = SqliteDriver.dbh ->
    exists rest,
      Driver.calls
        (fst (TableOps.__init__ SqliteSchema.schema self default create d))
      = (Driver.calls d
         ++ (Driver.clock d,
             CallExecute "SELECT name FROM sqlite_master WHERE name=?"
                         [[PStr (Table.name self)]]) :: rest)%list
      /\ Forall is_execute rest
      /\ (create = false -> rest = []).
Proof.
  intros rt C conn self default create d Hdbh.
  unfold TableOps.__init__. unfold bindM at 1.
  cbn [dbh_table_exists dbh_create_table SqliteSchema.schema].
  unfold SqliteSchema.table_exists, bindM at 1, ret at 1.
  pose proof (sqlite_execute_calls
                "SELECT name FROM sqlite_master WHERE name=?"
                [[PStr (Table.name self)]] "row" d) as Hcalls.
  destruct (SqliteDriver.execute
              "SELECT name FROM sqlite_master WHERE name=?"
              [[PStr (Table.name self)]] "row" d) as [d1 [r|e]];
    cbn [fst] in Hcalls.
  - destruct (match r with Val PNone => false | _ => true end).
    + exists []. cbn [ret fst]. repeat split; auto.
    + destruct create.
      * assert (Hrest : only_executes
                  (_ <~ SqliteSchema.create_table (Table.name self)
                          (Table.columns self) [] ;;
                   TableOps.create_default_rows self default)).
        { apply only_executes_bind;
            [apply create_table_only_executes | intros _].
          now apply create_default_rows_only_executes. }
        destruct (Hrest d1) as (l & Hl & Hx).
        exists l. split; [|split; [exact Hx | discriminate]].
        now rewrite Hl, Hcalls, <- app_assoc.
      * exists []. cbn [raise fst]. repeat split; auto.
  - exists []. cbn [fst]. repeat split; auto.
Qed.

Lemma X26_init_asks_first_witness :
  let d := Driver.init Engine.empty 0 in
  Table.dbh Engine.people = SqliteDriver.dbh (conn := Engine.sqlite)
  /\ exists rest,
       Driver.calls
         (fst (TableOps.__init__ (rt := Engine.runtime)
                 (SqliteSchema.schema (conn := Engine.sqlite))
                 Engine.people [] false d))
       = (Driver.calls d
          ++ (Driver.clock d,
              CallExecute "SELECT name FROM sqlite_master WHERE name=?"
                          [[PStr (Table.name Engine.people)]]) :: rest)%list
       /\ Forall is_execute rest
       /\ (false = false -> rest = []).
Proof.
  intros d.
  assert (H0 : Table.dbh Engine.people
               = SqliteDriver.dbh (conn := Engine.sqlite)) by reflexivity.
  split; [exact H0|].
  exact (X26_init_asks_first Engine.runtime _ Engine.sqlite Engine.people
           [] false d H0).
Defined.

(** ** Table.py, the values that are bound *)

Section BoundFacts.
Import Table.
Context {rt : PyRuntime} {C : Type}.





End BoundFacts.



(** ** Table.py, what create returns *)

Section IdFacts.
Import Driver.
Context {C : Type} {conn : Connection C}.


End IdFacts.



